(** * The Feishu channel plugin: inbound gateway, dedupe, expiry, lifecycle

    A shallow embedding of [extensions/feishu/src/{gateway,client,channel}.ts]
    together with the pieces of the JavaScript runtime those files call
    ([parseInt], [JSON.parse], property access, [ToBoolean], [String]).

    Conventions.
    - A JavaScript string is its sequence of UTF-16 code units, [list N].
    - A JavaScript number that holds a millisecond timestamp is an integer
      of magnitude below 2^53, on which double arithmetic is exact: [Z].
    - Module-level [Map]s are [gmap]s; iteration order is never observable
      in the code modelled here.
    - Effects (module state, [Date.now()], SDK calls, logger calls,
      [setImmediate]) are threaded through a state-and-exception monad
      over one [World] record.  An [async] function is run to completion:
      [await p] continues with the value of [p] or raises its rejection. *)

From Stdlib Require Import ZArith NArith List String Ascii Bool Lia.
From stdpp Require Import base option list gmap.
Import ListNotations.

Set Warnings "-register-all".

(** ** The JavaScript runtime *)

Module JS.

Abbreviation jsstring := (list N).

(** An ASCII literal as a JavaScript string. *)
Definition js (s : string) : jsstring :=
  map N_of_ascii (list_ascii_of_string s).

(** The same between quotation marks, as a JSON text spells a string. *)
Definition quoted (s : string) : jsstring := [0x22%N] ++ js s ++ [0x22%N].

(** *** Thrown values and completions *)

Inductive JsThrown :=
  | ErrorObject (name message : jsstring)
  | ThrownString (s : jsstring).

(** [String(e)]: [Error.prototype.toString] for error objects. *)
Definition String_of (e : JsThrown) : jsstring :=
  match e with
  | ErrorObject name [] => name
  | ErrorObject [] message => message
  | ErrorObject name message => name ++ js ": " ++ message
  | ThrownString s => s
  end.

Inductive Completion (A : Type) :=
  | Normal (a : A)
  | Throw (e : JsThrown).
Arguments Normal {A} a.
Arguments Throw {A} e.

(** The rest of a computation runs when its first part completes
    normally. *)
Definition and_then {A B : Type} (c : Completion A) (k : A → Completion B)
  : Completion B :=
  match c with
  | Normal a => k a
  | Throw e => Throw e
  end.

(** *** [parseInt(string, 10)] *)

(** StrWhiteSpaceChar: WhiteSpace (TAB, VT, FF, SP, NBSP, ZWNBSP and the
    code points of category Zs) and LineTerminator (LF, CR, LS, PS). *)
Definition is_StrWhiteSpaceChar (c : N) : bool :=
  (c =? 0x09)%N || (c =? 0x0A)%N || (c =? 0x0B)%N || (c =? 0x0C)%N
  || (c =? 0x0D)%N || (c =? 0x20)%N || (c =? 0xA0)%N || (c =? 0x1680)%N
  || ((0x2000 <=? c)%N && (c <=? 0x200A)%N)
  || (c =? 0x2028)%N || (c =? 0x2029)%N || (c =? 0x202F)%N
  || (c =? 0x205F)%N || (c =? 0x3000)%N || (c =? 0xFEFF)%N.

Fixpoint trim_start (s : jsstring) : jsstring :=
  match s with
  | c :: r => if is_StrWhiteSpaceChar c then trim_start r else s
  | [] => []
  end.

Definition digit_value (c : N) : option Z :=
  if ((0x30 <=? c) && (c <=? 0x39))%N then Some (Z.of_N (c - 0x30)) else None.

(** The value of the longest prefix of decimal digits; [acc] is the value
    read so far, [None] while no digit has been seen. *)
Fixpoint leading_digits (acc : option Z) (s : jsstring) : option Z :=
  match s with
  | c :: r =>
      match digit_value c with
      | Some d => leading_digits (Some (10 * default 0 acc + d)%Z) r
      | None => acc
      end
  | [] => acc
  end.

(** [parseInt(s, 10)]; [None] is NaN.  The result is the mathematical
    integer; callers below only compare it against timestamps, where the
    rounding to a double cannot change the outcome. *)
Definition parseInt (s : jsstring) : option Z :=
  let t := trim_start s in
  let '(sign, digits) :=
    match t with
    | c :: r => if (c =? 0x2D)%N then ((-1)%Z, r)
                else if (c =? 0x2B)%N then (1%Z, r)
                else (1%Z, t)
    | [] => (1%Z, [])
    end in
  (λ n, (sign * n)%Z) <$> leading_digits None digits.

(** *** JSON values *)

(** A JSON number before its rounding to a double:
    [(-1)^neg * mantissa * 10^exp10]. *)
Record JsNumber := { neg : bool; mantissa : N; exp10 : Z }.

Inductive json :=
  | JNull
  | JBool (b : bool)
  | JNumber (n : JsNumber)
  | JString (s : jsstring)
  | JArray (elements : list json)
  | JObject (members : list (jsstring * json)).

(** The number is [+0] or [-0] once rounded to the nearest double: its
    magnitude is at most [2^-1075], half the least subnormal. *)
Definition rounds_to_zero (n : JsNumber) : bool :=
  (mantissa n =? 0)%N
  || ((exp10 n <? 0)%Z
      && (Z.of_N (mantissa n) * 2 ^ 1075 <=? 10 ^ (- exp10 n))%Z).

(** [ToBoolean]. *)
Definition ToBoolean (v : json) : bool :=
  match v with
  | JNull => false
  | JBool b => b
  | JNumber n => negb (rounds_to_zero n)
  | JString [] => false
  | JString (_ :: _) => true
  | JArray _ | JObject _ => true
  end.

(** [v.key] for a value built by [JSON.parse].  On [null] it throws a
    TypeError; [Normal None] is [undefined].  For a repeated key the
    object keeps the last value; strings, numbers, booleans and arrays
    have no property of the name used here ([text]) on their prototypes. *)
Fixpoint last_binding (key : jsstring) (ms : list (jsstring * json))
  : option json :=
  match ms with
  | [] => None
  | (k, v) :: r =>
      match last_binding key r with
      | Some w => Some w
      | None => if decide (k = key) then Some v else None
      end
  end.

Definition get_property (v : json) (key : jsstring)
  : Completion (option json) :=
  match v with
  | JNull => Throw (ErrorObject (js "TypeError")
                      (js "Cannot read properties of null"))
  | JObject ms => Normal (last_binding key ms)
  | _ => Normal None
  end.

(** [String(v)], as a template literal computes it; [Number::toString]
    is left to the caller.  An object is converted through its
    [toString]: the one it inherits gives [[object Object]]; an own
    member of that name, which in a value built by [JSON.parse] is never
    callable, hides the inherited one, [valueOf] gives nothing primitive
    either, and the conversion throws a TypeError.  An array joins the
    strings of its elements, [null] counting as the empty string, and
    throws when an element does. *)
Fixpoint ToString (number_toString : JsNumber → jsstring) (v : json)
  : Completion jsstring :=
  match v with
  | JNull => Normal (js "null")
  | JBool true => Normal (js "true")
  | JBool false => Normal (js "false")
  | JNumber n => Normal (number_toString n)
  | JString s => Normal s
  | JArray l =>
      let element x :=
        match x with
        | JNull => Normal []
        | _ => ToString number_toString x
        end in
      (fix join (l : list json) : Completion jsstring :=
         match l with
         | [] => Normal []
         | [x] => element x
         | x :: r =>
             and_then (element x) (λ first,
             and_then (join r) (λ rest,
             Normal (first ++ js "," ++ rest)))
         end) l
  | JObject ms =>
      match last_binding (js "toString") ms with
      | Some _ => Throw (ErrorObject (js "TypeError")
                           (js "Cannot convert object to primitive value"))
      | None => Normal (js "[object Object]")
      end
  end.

(** *** [JSON.parse] *)

(** The lexer reads one code unit at a time. *)
Inductive token :=
  | TLBrace | TRBrace | TLBracket | TRBracket | TColon | TComma
  | TString (s : jsstring)
  | TNumber (n : JsNumber)
  | TTrue | TFalse | TNull.

Definition is_json_ws (c : N) : bool :=
  (c =? 0x20)%N || (c =? 0x09)%N || (c =? 0x0A)%N || (c =? 0x0D)%N.

Definition is_digit (c : N) : bool := ((0x30 <=? c) && (c <=? 0x39))%N.

(** The code units a literal name or a number is made of. *)
Definition is_word_char (c : N) : bool :=
  is_digit c || ((0x61 <=? c) && (c <=? 0x7A))%N
  || (c =? 0x2D)%N || (c =? 0x2B)%N || (c =? 0x2E)%N || (c =? 0x45)%N.

(** The digits at the head of [s], most significant first, and the rest. *)
Fixpoint take_digits (s : jsstring) : list N * jsstring :=
  match s with
  | c :: r =>
      if is_digit c
      then let '(ds, rest) := take_digits r in ((c - 0x30)%N :: ds, rest)
      else ([], s)
  | [] => ([], [])
  end.

Definition digits_value (ds : list N) : N :=
  fold_left (λ acc d, (10 * acc + d)%N) ds 0%N.

(** An optional minus sign; an integer part, a lone 0 or digits not
    starting with 0; an optional fraction, a dot and at least one digit;
    an optional exponent, e or E, an optional sign, at least one digit. *)
Definition number_of_lexeme (w : jsstring) : option JsNumber :=
  let '(negative, w1) :=
    match w with
    | c :: r => if (c =? 0x2D)%N then (true, r) else (false, w)
    | [] => (false, [])
    end in
  let '(int, w2) := take_digits w1 in
  match int with
  | [] => None
  | d :: ds =>
      if (d =? 0)%N && negb (bool_decide (ds = [])) then None else
      '(frac, w3) ←
        match w2 with
        | c :: r =>
            if (c =? 0x2E)%N
            then let '(fs, rest) := take_digits r in
                 if bool_decide (fs = []) then None else Some (fs, rest)
            else Some ([], w2)
        | [] => Some ([], [])
        end;
      e ←
        match w3 with
        | [] => Some 0%Z
        | c :: r =>
            if (c =? 0x65)%N || (c =? 0x45)%N then
              let '(sign, r1) :=
                match r with
                | s :: r' => if (s =? 0x2D)%N then ((-1)%Z, r')
                             else if (s =? 0x2B)%N then (1%Z, r')
                             else (1%Z, r)
                | [] => (1%Z, [])
                end in
              match take_digits r1 with
              | (d1 :: ds1, []) => Some (sign * Z.of_N (digits_value (d1 :: ds1)))%Z
              | _ => None
              end
            else None
        end;
      Some {| neg := negative;
              mantissa := digits_value (int ++ frac);
              exp10 := (e - Z.of_nat (length frac))%Z |}
  end.

Definition word_token (w : jsstring) : option token :=
  if decide (w = js "true") then Some TTrue
  else if decide (w = js "false") then Some TFalse
  else if decide (w = js "null") then Some TNull
  else TNumber <$> number_of_lexeme w.

Definition hex_value (c : N) : option N :=
  if is_digit c then Some (c - 0x30)%N
  else if ((0x61 <=? c) && (c <=? 0x66))%N then Some (c - 0x61 + 10)%N
  else if ((0x41 <=? c) && (c <=? 0x46))%N then Some (c - 0x41 + 10)%N
  else None.

(** The code unit a one-letter escape stands for. *)
Definition escape_char (c : N) : option N :=
  if (c =? 0x22)%N then Some 0x22%N          (* quotation mark *)
  else if (c =? 0x5C)%N then Some 0x5C%N     (* reverse solidus *)
  else if (c =? 0x2F)%N then Some 0x2F%N     (* solidus *)
  else if (c =? 0x62)%N then Some 0x08%N     (* b: backspace *)
  else if (c =? 0x66)%N then Some 0x0C%N     (* f: form feed *)
  else if (c =? 0x6E)%N then Some 0x0A%N     (* n: line feed *)
  else if (c =? 0x72)%N then Some 0x0D%N     (* r: carriage return *)
  else if (c =? 0x74)%N then Some 0x09%N     (* t: tab *)
  else None.

Inductive lex_state :=
  | LxIdle
  | LxWord (w_rev : jsstring)
  | LxString (s_rev : jsstring)
  | LxEscape (s_rev : jsstring)
  | LxUnicode (s_rev : jsstring) (hex_rev : list N).

(** One code unit read between tokens: the next state and the token it
    completes, if any. *)
Definition lex_idle (c : N) : option (lex_state * list token) :=
  if is_json_ws c then Some (LxIdle, [])
  else if (c =? 0x22)%N then Some (LxString [], [])
  else if (c =? 0x7B)%N then Some (LxIdle, [TLBrace])
  else if (c =? 0x7D)%N then Some (LxIdle, [TRBrace])
  else if (c =? 0x5B)%N then Some (LxIdle, [TLBracket])
  else if (c =? 0x5D)%N then Some (LxIdle, [TRBracket])
  else if (c =? 0x3A)%N then Some (LxIdle, [TColon])
  else if (c =? 0x2C)%N then Some (LxIdle, [TComma])
  else if is_word_char c then Some (LxWord [c], [])
  else None.

Fixpoint lex (st : lex_state) (out_rev : list token) (s : jsstring)
  : option (list token) :=
  match s with
  | [] =>
      match st with
      | LxIdle => Some (rev out_rev)
      | LxWord w => t ← word_token (rev w); Some (rev (t :: out_rev))
      | _ => None
      end
  | c :: r =>
      match st with
      | LxIdle =>
          '(st', ts) ← lex_idle c; lex st' (ts ++ out_rev) r
      | LxWord w =>
          if is_word_char c then lex (LxWord (c :: w)) out_rev r
          else t ← word_token (rev w);
               '(st', ts) ← lex_idle c;
               lex st' (ts ++ t :: out_rev) r
      | LxString acc =>
          if (c =? 0x22)%N then lex LxIdle (TString (rev acc) :: out_rev) r
          else if (c =? 0x5C)%N then lex (LxEscape acc) out_rev r
          else if (c <? 0x20)%N then None
          else lex (LxString (c :: acc)) out_rev r
      | LxEscape acc =>
          match escape_char c with
          | Some e => lex (LxString (e :: acc)) out_rev r
          | None => if (c =? 0x75)%N then lex (LxUnicode acc []) out_rev r
                    else None
          end
      | LxUnicode acc hs =>
          h ← hex_value c;
          match hs with
          | [h2; h1; h0] =>
              lex (LxString ((((h0 * 16 + h1) * 16 + h2) * 16 + h)%N :: acc))
                  out_rev r
          | _ => lex (LxUnicode acc (h :: hs)) out_rev r
          end
      end
  end.

(** The parser is a pushdown automaton over the tokens. *)
Inductive frame :=
  | FArray (elements_rev : list json)
  | FObject (members_rev : list (jsstring * json)) (key : option jsstring).

Inductive expect :=
  | XValue            (* a value *)
  | XValueOrClose     (* just after an opening bracket *)
  | XKeyOrClose       (* just after an opening brace *)
  | XKey              (* after a comma in an object *)
  | XColon
  | XCommaOrClose
  | XEnd (v : json).

(** A value is complete: it is the whole text, or it goes into the
    innermost open container. *)
Definition push_value (v : json) (stack : list frame)
  : option (list frame * expect) :=
  match stack with
  | [] => Some ([], XEnd v)
  | FArray es :: st => Some (FArray (v :: es) :: st, XCommaOrClose)
  | FObject ms (Some k) :: st =>
      Some (FObject ((k, v) :: ms) None :: st, XCommaOrClose)
  | FObject _ None :: _ => None
  end.

Definition scalar_of_token (t : token) : option json :=
  match t with
  | TString s => Some (JString s)
  | TNumber n => Some (JNumber n)
  | TTrue => Some (JBool true)
  | TFalse => Some (JBool false)
  | TNull => Some JNull
  | _ => None
  end.

Definition parse_step (t : token) (stack : list frame) (x : expect)
  : option (list frame * expect) :=
  match x, t with
  | (XValue | XValueOrClose), TLBracket =>
      Some (FArray [] :: stack, XValueOrClose)
  | (XValue | XValueOrClose), TLBrace =>
      Some (FObject [] None :: stack, XKeyOrClose)
  | (XValueOrClose | XCommaOrClose), TRBracket =>
      match stack with
      | FArray es :: st => push_value (JArray (rev es)) st
      | _ => None
      end
  | (XValue | XValueOrClose), _ =>
      v ← scalar_of_token t; push_value v stack
  | (XKeyOrClose | XCommaOrClose), TRBrace =>
      match stack with
      | FObject ms None :: st => push_value (JObject (rev ms)) st
      | _ => None
      end
  | (XKeyOrClose | XKey), TString k =>
      match stack with
      | FObject ms None :: st => Some (FObject ms (Some k) :: st, XColon)
      | _ => None
      end
  | XColon, TColon => Some (stack, XValue)
  | XCommaOrClose, TComma =>
      match stack with
      | FArray _ :: _ => Some (stack, XValue)
      | FObject _ None :: _ => Some (stack, XKey)
      | _ => None
      end
  | _, _ => None
  end.

Fixpoint parse_tokens (ts : list token) (stack : list frame) (x : expect)
  : option json :=
  match ts with
  | [] => match x with XEnd v => Some v | _ => None end
  | t :: r => '(stack', x') ← parse_step t stack x; parse_tokens r stack' x'
  end.

(** [JSON.parse(text)] without a reviver; [None] is the SyntaxError. *)
Definition JSON_parse (text : jsstring) : option json :=
  ts ← lex LxIdle [] text; parse_tokens ts [] XValue.

(** *** Values that may be [undefined], [trim], object spread *)

(** [v.key] for a [v] that is not [null]: [None] is [undefined].  The
    names read below are neither an index nor [length] nor a member of a
    prototype, so only an object can hold them. *)
Definition member (v : json) (key : jsstring) : option json :=
  match v with
  | JObject ms => last_binding key ms
  | _ => None
  end.

(** [o?.key] for an [o] that may be [undefined] or [null]. *)
Definition optional_member (o : option json) (key : jsstring) : option json :=
  match o with
  | None | Some JNull => None
  | Some v => member v key
  end.

(** [ToBoolean] of a value that may be [undefined]. *)
Definition truthy (o : option json) : bool :=
  match o with
  | Some v => ToBoolean v
  | None => false
  end.

(** [String.prototype.trim]: white space and line terminators are
    removed at both ends. *)
Definition trim (s : jsstring) : jsstring :=
  rev (trim_start (rev (trim_start s))).

(** The decimal spelling of an array index. *)
Fixpoint uint_codes (u : Decimal.uint) : jsstring :=
  match u with
  | Decimal.Nil => []
  | Decimal.D0 u => 0x30%N :: uint_codes u
  | Decimal.D1 u => 0x31%N :: uint_codes u
  | Decimal.D2 u => 0x32%N :: uint_codes u
  | Decimal.D3 u => 0x33%N :: uint_codes u
  | Decimal.D4 u => 0x34%N :: uint_codes u
  | Decimal.D5 u => 0x35%N :: uint_codes u
  | Decimal.D6 u => 0x36%N :: uint_codes u
  | Decimal.D7 u => 0x37%N :: uint_codes u
  | Decimal.D8 u => 0x38%N :: uint_codes u
  | Decimal.D9 u => 0x39%N :: uint_codes u
  end.

Definition index_key (i : nat) : jsstring := uint_codes (Nat.to_uint i).

(** The own enumerable properties a spread [...v] copies: the members of
    an object, the elements of an array and the code units of a string
    under their indices, nothing for the other values and for
    [undefined]. *)
Definition spread (o : option json) : list (jsstring * json) :=
  match o with
  | Some (JObject ms) => ms
  | Some (JArray l) => imap (λ i x, (index_key i, x)) l
  | Some (JString s) => imap (λ i c, (index_key i, JString [c])) s
  | _ => []
  end.

(** *** [JSON.stringify] of a string *)

Definition is_high_surrogate (c : N) : bool :=
  ((0xD800 <=? c) && (c <=? 0xDBFF))%N.

Definition is_low_surrogate (c : N) : bool :=
  ((0xDC00 <=? c) && (c <=? 0xDFFF))%N.

Definition hex_digit (n : N) : N :=
  if (n <? 10)%N then (0x30 + n)%N else (0x61 + (n - 10))%N.

(** [\uXXXX] with lower-case digits. *)
Definition unicode_escape (c : N) : jsstring :=
  [0x5C; 0x75; hex_digit (c / 4096); hex_digit (c / 256 mod 16);
   hex_digit (c / 16 mod 16); hex_digit (c mod 16)]%N.

(** QuoteJSONString without the enclosing quotation marks: the seven
    short escapes, [\uXXXX] for the other control characters and for
    surrogates that are not paired, everything else as it is. *)
Fixpoint quote_json (s : jsstring) : jsstring :=
  match s with
  | [] => []
  | c :: r =>
      if (c =? 0x08)%N then [0x5C; 0x62]%N ++ quote_json r
      else if (c =? 0x09)%N then [0x5C; 0x74]%N ++ quote_json r
      else if (c =? 0x0A)%N then [0x5C; 0x6E]%N ++ quote_json r
      else if (c =? 0x0C)%N then [0x5C; 0x66]%N ++ quote_json r
      else if (c =? 0x0D)%N then [0x5C; 0x72]%N ++ quote_json r
      else if (c =? 0x22)%N then [0x5C; 0x22]%N ++ quote_json r
      else if (c =? 0x5C)%N then [0x5C; 0x5C]%N ++ quote_json r
      else if (c <? 0x20)%N then unicode_escape c ++ quote_json r
      else if is_high_surrogate c then
        match r with
        | d :: r' =>
            if is_low_surrogate d then c :: d :: quote_json r'
            else unicode_escape c ++ quote_json r
        | [] => unicode_escape c
        end
      else if is_low_surrogate c then unicode_escape c ++ quote_json r
      else c :: quote_json r
  end.

(** [JSON.stringify({ text })] for a string [text]. *)
Definition JSON_stringify_text (text : jsstring) : jsstring :=
  js "{" ++ quoted "text" ++ js ":"
  ++ [0x22%N] ++ quote_json text ++ [0x22%N] ++ js "}".

End JS.

Import JS.

(** ** types.ts, msg-context.ts *)

Record ResolvedFeishuAccount := {
  accountId : jsstring;
  appId : jsstring;
  appSecret : jsstring;
}.

Inductive ChatKind := p2p | group.

(** [text] is declared [text?: string]; at run time it holds whatever
    [JSON.parse(content).text] evaluated to, [None] being [undefined]. *)
Record FeishuMessage := {
  messageId : jsstring;
  chatId : jsstring;
  chatType : ChatKind;
  senderId : jsstring;
  messageType : jsstring;
  content : jsstring;
  text : option json;
}.

(** [message.text = value] *)
Definition set_text (message : FeishuMessage) (value : option json)
  : FeishuMessage :=
  {| messageId := messageId message;
     chatId := chatId message;
     chatType := chatType message;
     senderId := senderId message;
     messageType := messageType message;
     content := content message;
     text := value |}.

Inductive ContextChatType := direct | group_chat.

Record MsgContext := {
  From : jsstring;
  Body : json;
  AccountId : jsstring;
  Provider : jsstring;
  Surface : jsstring;
  SessionKey : jsstring;
  To : jsstring;
  ChatType : ContextChatType;
}.

(** ** What the platform SDK exchanges with the plugin *)

Module Lark.

(** [data.message] of an [im.message.receive_v1] event; every field may
    be missing at run time, which is why the handler guards each one. *)
Record RawMessage := {
  message_id : option jsstring;
  create_time : option jsstring;
  chat_id : option jsstring;
  chat_type : option jsstring;
  message_type : option jsstring;
  content : option jsstring;
}.

(** [open_id] is [data.sender?.sender_id?.open_id]. *)
Record ReceiveEvent := {
  message : option RawMessage;
  open_id : option jsstring;
}.

(** What calling a method of an SDK object does. *)
Inductive CallOutcome :=
  | Returns
  | Raises (e : JsThrown).

(** A [lark.WSClient]: its identity, what it was built from, and its
    [close] and [stop] members ([None] when [typeof] is not
    ["function"]). *)
Record WSClient := {
  handle : nat;
  ws_appId : jsstring;
  ws_appSecret : jsstring;
  close : option CallOutcome;
  stop : option CallOutcome;
}.

(** A [lark.Client]. *)
Record Client := {
  client_appId : jsstring;
  client_appSecret : jsstring;
}.

(** [content] of a text request stands for the string
    [JSON.stringify({ text })]; it is kept as the [text] it encodes. *)
Record CreateRequest := {
  receive_id_type : jsstring;
  receive_id : jsstring;
  create_msg_type : jsstring;
  create_text : jsstring;
}.

Record ReplyRequest := {
  path_message_id : jsstring;
  reply_msg_type : jsstring;
  reply_text : jsstring;
}.

(** The promise of an API call: resolved with [{ code, msg }] or
    rejected. *)
Inductive ApiOutcome :=
  | Resolved (code : option Z) (msg : option jsstring)
  | Rejected (e : JsThrown).

(** A reply payload handed to [deliver]; [payload_text] is
    [payload.text], [None] when null or undefined. *)
Record ReplyPayload := { payload_text : option jsstring }.

End Lark.

(** ** Effects *)

(** What the plugin does to its environment, in order: calls into the
    SDK, the logger and the console, API requests, dispatcher calls.  The
    two mutations of the connection registry are recorded as well, so
    that their order relative to the SDK calls can be stated. *)
Inductive Effect :=
  | WsConstructed (h : nat)
  | WsStarted (h : nat)
  | WsCloseCalled (h : nat)
  | WsStopCalled (h : nat)
  | AbortListenerAdded (signal : nat) (key : jsstring)
  | RegistrySet (key : jsstring) (h : nat)
  | RegistryDelete (key : jsstring)
  | LoggerInfo (msg : jsstring)
  | LoggerError (msg : jsstring)
  | ConsoleLog (line : jsstring)
  | ConsoleError (line : jsstring)
  | MessageCreate (client : Lark.Client) (req : Lark.CreateRequest)
  | MessageReply (client : Lark.Client) (req : Lark.ReplyRequest)
  | DispatchReply (ctx : MsgContext).

(** The module-level state of [gateway.ts] and [client.ts], the counters
    of the environment, the pending [setImmediate] callbacks (each is the
    message it closes over) and the effects so far. *)
Record World := {
  wsClientCache : gmap jsstring Lark.WSClient;
  processedMessages : gmap jsstring Z;
  clientCache : gmap jsstring Lark.Client;
  clock_reads : nat;
  ws_constructed : nat;
  immediates : list FeishuMessage;
  effects : list Effect;
}.

Definition set_wsClientCache f (s : World) : World :=
  {| wsClientCache := f (wsClientCache s);
     processedMessages := processedMessages s;
     clientCache := clientCache s;
     clock_reads := clock_reads s;
     ws_constructed := ws_constructed s;
     immediates := immediates s;
     effects := effects s |}.

Definition set_processedMessages f (s : World) : World :=
  {| wsClientCache := wsClientCache s;
     processedMessages := f (processedMessages s);
     clientCache := clientCache s;
     clock_reads := clock_reads s;
     ws_constructed := ws_constructed s;
     immediates := immediates s;
     effects := effects s |}.

Definition set_clientCache f (s : World) : World :=
  {| wsClientCache := wsClientCache s;
     processedMessages := processedMessages s;
     clientCache := f (clientCache s);
     clock_reads := clock_reads s;
     ws_constructed := ws_constructed s;
     immediates := immediates s;
     effects := effects s |}.

Definition set_clock_reads f (s : World) : World :=
  {| wsClientCache := wsClientCache s;
     processedMessages := processedMessages s;
     clientCache := clientCache s;
     clock_reads := f (clock_reads s);
     ws_constructed := ws_constructed s;
     immediates := immediates s;
     effects := effects s |}.

Definition set_ws_constructed f (s : World) : World :=
  {| wsClientCache := wsClientCache s;
     processedMessages := processedMessages s;
     clientCache := clientCache s;
     clock_reads := clock_reads s;
     ws_constructed := f (ws_constructed s);
     immediates := immediates s;
     effects := effects s |}.

Definition set_immediates f (s : World) : World :=
  {| wsClientCache := wsClientCache s;
     processedMessages := processedMessages s;
     clientCache := clientCache s;
     clock_reads := clock_reads s;
     ws_constructed := ws_constructed s;
     immediates := f (immediates s);
     effects := effects s |}.

Definition set_effects f (s : World) : World :=
  {| wsClientCache := wsClientCache s;
     processedMessages := processedMessages s;
     clientCache := clientCache s;
     clock_reads := clock_reads s;
     ws_constructed := ws_constructed s;
     immediates := immediates s;
     effects := f (effects s) |}.

Definition empty_world : World :=
  {| wsClientCache := ∅; processedMessages := ∅; clientCache := ∅;
     clock_reads := 0; ws_constructed := 0; immediates := []; effects := [] |}.

(** A computation: from a world to a completion and the world it leaves. *)
Definition M (A : Type) : Type := World → Completion A * World.

#[global] Instance M_ret : MRet M := λ A a s, (Normal a, s).

#[global] Instance M_bind : MBind M := λ A B f m s,
  match m s with
  | (Normal a, s') => f a s'
  | (Throw e, s') => (Throw e, s')
  end.

Definition throw {A} (e : JsThrown) : M A := λ s, (Throw e, s).

(** [try { body } catch (error) { handler }] *)
Definition try_catch {A} (body : M A) (handler : JsThrown → M A) : M A :=
  λ s, match body s with
       | (Normal a, s') => (Normal a, s')
       | (Throw e, s') => handler e s'
       end.

(** A computation that does not touch the world. *)
Definition completed {A} (c : Completion A) : M A := λ s, (c, s).

Definition get_world : M World := λ s, (Normal s, s).
Definition modify (f : World → World) : M unit := λ s, (Normal (), f s).
Definition emit (e : Effect) : M unit := modify (set_effects (λ l, l ++ [e])).

(** [when c m]: [if (c) { m }] *)
Definition when (c : bool) (m : M unit) : M unit := if c then m else mret ().

(** [for (const x of xs) { await f(x) }] *)
Fixpoint for_of {A} (xs : list A) (f : A → M unit) : M unit :=
  match xs with
  | [] => mret ()
  | x :: r => f x ;; for_of r f
  end.

(** ** The plugin *)

Definition MESSAGE_DEDUPE_TTL_MS : Z := 60 * 1000.
Definition MESSAGE_EXPIRE_TTL_MS : Z := 30 * 60 * 1000.

(** A logger is the pair of callbacks of [GatewayOptions.logger]; a call
    emits one effect and returns. *)
Record Logger := {
  info : jsstring → Effect;
  error : jsstring → Effect;
}.

Record GatewayOptions := {
  account : ResolvedFeishuAccount;
  onMessage : FeishuMessage → M unit;
  abortSignal : option nat;
  logger : option Logger;
}.

Definition set_onMessage (f : FeishuMessage → M unit)
    (options : GatewayOptions) : GatewayOptions :=
  {| account := account options;
     onMessage := f;
     abortSignal := abortSignal options;
     logger := logger options |}.

(** [logger?.info(msg)] and [logger?.error(msg)] *)
Definition logger_info (l : option Logger) (msg : jsstring) : M unit :=
  match l with Some lg => emit (info lg msg) | None => mret () end.

Definition logger_error (l : option Logger) (msg : jsstring) : M unit :=
  match l with Some lg => emit (error lg msg) | None => mret () end.

(** [`${x}`] for [x : string | undefined] *)
Definition template (x : option jsstring) : jsstring :=
  default (js "undefined") x.

#[global] Instance nat_gt_dec (x y : nat) : Decision (x > y) :=
  decide (y < x).

(** [x || empty] for [x : string | undefined] and the empty string *)
Definition or_empty (x : option jsstring) : jsstring := default [] x.

Section Plugin.

(** The environment: the successive readings of [Date.now()], the
    [close] and [stop] members of the n-th [WSClient] the SDK builds, the
    answers of the platform to the two API calls, the host's reply
    dispatcher (which payloads it delivers, and whether it then rejects),
    [Number::toString], and what [new lark.Client] throws for an
    application id and a secret, [None] when it returns the client. *)
Variable clock : nat → Z.
Variable ws_members :
  nat → option Lark.CallOutcome * option Lark.CallOutcome.
Variable im_v1_message_create : World → Lark.CreateRequest → Lark.ApiOutcome.
Variable im_v1_message_reply : World → Lark.ReplyRequest → Lark.ApiOutcome.
Variable ClawdbotConfig : Type.
Variable dispatcher :
  ClawdbotConfig → World → MsgContext →
  list Lark.ReplyPayload * option JsThrown.
Variable number_toString : JsNumber → jsstring.
Variable Client_throws : jsstring → jsstring → option JsThrown.

Definition Date_now : M Z :=
  λ s, (Normal (clock (clock_reads s)), set_clock_reads S s).

(** *** client.ts *)

Record SendResult := { ok : bool; send_error : option jsstring }.

Definition getFeishuClient (account : ResolvedFeishuAccount)
  : M Lark.Client :=
  let cacheKey := appId account in
  s ← get_world;
  match clientCache s !! cacheKey with
  | Some client => mret client
  | None =>
      match Client_throws (appId account) (appSecret account) with
      | Some e => throw e
      | None =>
          let client := {| Lark.client_appId := appId account;
                           Lark.client_appSecret := appSecret account |} in
          modify (set_clientCache <[cacheKey := client]>);;
          mret client
      end
  end.

(** [await client.im.v1.message.create(req)] *)
Definition message_create (client : Lark.Client) (req : Lark.CreateRequest)
  : M (option Z * option jsstring) :=
  s ← get_world;
  emit (MessageCreate client req);;
  match im_v1_message_create s req with
  | Lark.Resolved code msg => mret (code, msg)
  | Lark.Rejected e => throw e
  end.

(** [await client.im.v1.message.reply(req)] *)
Definition message_reply (client : Lark.Client) (req : Lark.ReplyRequest)
  : M (option Z * option jsstring) :=
  s ← get_world;
  emit (MessageReply client req);;
  match im_v1_message_reply s req with
  | Lark.Resolved code msg => mret (code, msg)
  | Lark.Rejected e => throw e
  end.

Definition sendTextMessage (account : ResolvedFeishuAccount)
    (chatId text : jsstring) : M SendResult :=
  client ← getFeishuClient account;
  try_catch
    (result ← message_create client
       {| Lark.receive_id_type := js "chat_id";
          Lark.receive_id := chatId;
          Lark.create_msg_type := js "text";
          Lark.create_text := text |};
     if bool_decide (result.1 = Some 0%Z)
     then mret {| ok := true; send_error := None |}
     else mret {| ok := false; send_error := result.2 |})
    (λ error,
       mret {| ok := false; send_error := Some (String_of error) |}).

Definition replyTextMessage (account : ResolvedFeishuAccount)
    (messageId text : jsstring) : M SendResult :=
  client ← getFeishuClient account;
  try_catch
    (result ← message_reply client
       {| Lark.path_message_id := messageId;
          Lark.reply_msg_type := js "text";
          Lark.reply_text := text |};
     if bool_decide (result.1 = Some 0%Z)
     then mret {| ok := true; send_error := None |}
     else mret {| ok := false; send_error := result.2 |})
    (λ error,
       mret {| ok := false; send_error := Some (String_of error) |}).

(** *** gateway.ts *)

(** The [for ... of processedMessages] loop of [cleanupDedupeCache]: it
    visits every entry once and deletes the ones it finds older than the
    TTL. *)
Definition sweep (now : Z) (processed : gmap jsstring Z) : gmap jsstring Z :=
  map_fold (λ messageId timestamp remaining,
              if bool_decide (now - timestamp > MESSAGE_DEDUPE_TTL_MS)%Z
              then delete messageId remaining
              else remaining)
           processed processed.

Definition cleanupDedupeCache : M unit :=
  now ← Date_now;
  modify (set_processedMessages (sweep now)).

Definition isDuplicateMessage (messageId : jsstring) : M bool :=
  s ← get_world;
  if bool_decide (is_Some (processedMessages s !! messageId))
  then mret true
  else
    now ← Date_now;
    modify (set_processedMessages <[messageId := now]>);;
    s ← get_world;
    when (bool_decide (size (processedMessages s) > 100))
      cleanupDedupeCache;;
    mret false.

Definition isMessageExpired (createTimeMs : option jsstring) : M bool :=
  match createTimeMs with
  | None | Some [] => mret false
  | Some createTimeMs =>
      match parseInt createTimeMs with
      | None => mret false
      | Some createTime =>
          now ← Date_now;
          mret (bool_decide (now - createTime > MESSAGE_EXPIRE_TTL_MS)%Z)
      end
  end.

Definition stopGateway (accountId : jsstring) : M unit :=
  s ← get_world;
  match wsClientCache s !! accountId with
  | Some wsClient =>
      try_catch
        (match Lark.close wsClient with
         | Some outcome =>
             emit (WsCloseCalled (Lark.handle wsClient));;
             match outcome with
             | Lark.Returns => mret ()
             | Lark.Raises e => throw e
             end
         | None =>
             match Lark.stop wsClient with
             | Some outcome =>
                 emit (WsStopCalled (Lark.handle wsClient));;
                 match outcome with
                 | Lark.Returns => mret ()
                 | Lark.Raises e => throw e
                 end
             | None => mret ()
             end
         end)
        (λ _, mret ());;
      modify (set_wsClientCache (delete accountId));;
      emit (RegistryDelete accountId)
  | None => mret ()
  end.

(** [setImmediate(async () => { ... })]: the callback is queued; it
    closes over the message. *)
Definition setImmediate (feishuMessage : FeishuMessage) : M unit :=
  modify (set_immediates (λ q, q ++ [feishuMessage])).

(** The body of that callback. *)
Definition immediate_callback (options : GatewayOptions)
    (feishuMessage : FeishuMessage) : M unit :=
  try_catch
    (onMessage options feishuMessage)
    (λ error,
       logger_error (logger options)
         (js "Error handling message: " ++ String_of error)).

(** One turn of the event loop's check phase: the oldest pending
    [setImmediate] callback, if any, is taken off the queue and run.
    The callback is run here to its completion; in the event loop its
    [await]s suspend it, and what other callbacks and handlers do in
    between is interleaved with the rest of it. *)
Definition next_turn (options : GatewayOptions) : M unit :=
  s ← get_world;
  match immediates s with
  | [] => mret ()
  | feishuMessage :: rest =>
      modify (set_immediates (λ _, rest));;
      immediate_callback options feishuMessage
  end.

(** The handler registered for ["im.message.receive_v1"]; its result is
    the acknowledgment [{}]. *)
Definition on_message_receive (options : GatewayOptions)
    (data : Lark.ReceiveEvent) : M unit :=
  match Lark.message data with
  | None => mret ()
  | Some message =>
      let id := or_empty (Lark.message_id message) in
      let createTime := Lark.create_time message in
      duplicate ← isDuplicateMessage id;
      if duplicate : bool then mret () else
      expired ← isMessageExpired createTime;
      if expired : bool then
        logger_info (logger options)
          (js "Skipping expired message " ++ template (Lark.content message)
           ++ js ", create_time: " ++ template createTime);;
        mret ()
      else
        let feishuMessage :=
          {| messageId := id;
             chatId := or_empty (Lark.chat_id message);
             chatType := if bool_decide (Lark.chat_type message = Some (js "p2p"))
                         then p2p else group;
             senderId := or_empty (Lark.open_id data);
             messageType := or_empty (Lark.message_type message);
             content := or_empty (Lark.content message);
             text := None |} in
        feishuMessage ←
          (if bool_decide (messageType feishuMessage = js "text") then
             try_catch
               (match JSON_parse (content feishuMessage) with
                | None => throw (ErrorObject (js "SyntaxError") [])
                | Some parsed =>
                    match get_property parsed (js "text") with
                    | Throw e => throw e
                    | Normal parsed_text =>
                        mret (set_text feishuMessage parsed_text)
                    end
                end)
               (λ _, mret feishuMessage)
           else mret feishuMessage);
        setImmediate feishuMessage;;
        mret ()
  end.

(** The listener added to [abortSignal]. *)
Definition abort_listener (options : GatewayOptions) : M unit :=
  logger_info (logger options) (js "received abort signal, stopping gateway");;
  stopGateway (accountId (account options)).

(** [new lark.WSClient({ appId, appSecret, loggerLevel })] *)
Definition new_WSClient (appId appSecret : jsstring) : M Lark.WSClient :=
  s ← get_world;
  let h := ws_constructed s in
  modify (set_ws_constructed S);;
  emit (WsConstructed h);;
  mret {| Lark.handle := h;
          Lark.ws_appId := appId;
          Lark.ws_appSecret := appSecret;
          Lark.close := (ws_members h).1;
          Lark.stop := (ws_members h).2 |}.

Definition startGateway (options : GatewayOptions) : M Lark.WSClient :=
  let cacheKey := accountId (account options) in
  s ← get_world;
  when (bool_decide (is_Some (wsClientCache s !! cacheKey)))
    (stopGateway cacheKey);;
  wsClient ← new_WSClient (appId (account options))
                          (appSecret (account options));
  match abortSignal options with
  | Some signal => emit (AbortListenerAdded signal cacheKey)
  | None => mret ()
  end;;
  emit (WsStarted (Lark.handle wsClient));;
  logger_info (logger options)
    (js "logged in to feishu as " ++ appId (account options));;
  modify (set_wsClientCache <[cacheKey := wsClient]>);;
  emit (RegistrySet cacheKey (Lark.handle wsClient));;
  mret wsClient.

(** *** channel.ts: the callbacks [startAccount] passes to the gateway *)

(** [runtime.channel.reply.dispatchReplyWithBufferedBlockDispatcher] *)
Definition dispatchReplyWithBufferedBlockDispatcher (ctx : MsgContext)
    (cfg : ClawdbotConfig) (deliver : Lark.ReplyPayload → M unit)
  : M unit :=
  s ← get_world;
  emit (DispatchReply ctx);;
  for_of (dispatcher cfg s ctx).1 deliver;;
  match (dispatcher cfg s ctx).2 with
  | None => mret ()
  | Some e => throw e
  end.

Definition deliver (account : ResolvedFeishuAccount)
    (message : FeishuMessage) (payload : Lark.ReplyPayload) : M unit :=
  let text := default [] (Lark.payload_text payload) in
  if bool_decide (text ≠ []) then
    sendTextMessage account (chatId message) text;; mret ()
  else mret ().

(** [!message.text] *)
Definition not_text (message : FeishuMessage) : bool :=
  match text message with
  | None => true
  | Some v => negb (ToBoolean v)
  end.

Definition channel_onMessage (account : ResolvedFeishuAccount)
    (cfg : ClawdbotConfig) (message : FeishuMessage) : M unit :=
  if bool_decide (messageType message ≠ js "text") || not_text message
  then mret ()
  else
    let body := default JNull (text message) in
    shown ← completed (ToString number_toString body);
    emit (ConsoleLog (js "[feishu:" ++ accountId account ++ js "] "
                      ++ [0x6536; 0x5230; 0x6D88; 0x606F]%N ++ js ": "
                      ++ shown));;
    let msgCtx :=
      {| From := senderId message;
         Body := body;
         AccountId := accountId account;
         Provider := js "feishu";
         Surface := js "feishu";
         SessionKey := js "feishu:" ++ accountId account ++ js ":"
                       ++ chatId message;
         To := chatId message;
         ChatType := match chatType message with
                     | p2p => direct
                     | group => group_chat
                     end |} in
    dispatchReplyWithBufferedBlockDispatcher msgCtx cfg
      (deliver account message).

(** The logger [startAccount] passes. *)
Definition channel_logger (account : ResolvedFeishuAccount) : Logger :=
  {| info := λ msg,
       ConsoleLog (js "[feishu:" ++ accountId account ++ js "] " ++ msg);
     error := λ msg,
       ConsoleError (js "[feishu:" ++ accountId account ++ js "] " ++ msg) |}.

(** *** runtime.ts *)

(** The host's runtime; its reply dispatcher is [dispatcher].  The module
    variable [feishuRuntime] is passed to the functions that use it;
    [None] is its initial [null]. *)
Inductive PluginRuntime : Set := host_runtime.

Definition setFeishuRuntime (runtime : PluginRuntime)
    (feishuRuntime : option PluginRuntime) : option PluginRuntime :=
  Some runtime.

Definition getFeishuRuntime (feishuRuntime : option PluginRuntime)
  : M PluginRuntime :=
  match feishuRuntime with
  | None => throw (ErrorObject (js "Error") (js "Feishu runtime not initialized"))
  | Some runtime => mret runtime
  end.

(** *** channel.ts: [outbound.sendText] and [gateway.startAccount] *)

Record OutboundContext := {
  outbound_account : ResolvedFeishuAccount;
  to : jsstring;
  outbound_text : jsstring;
}.

(** [outbound_error] is the [Error] built, [None] when none is. *)
Record OutboundResult := {
  outbound_ok : bool;
  outbound_error : option JsThrown;
}.

Definition sendText (ctx : OutboundContext) : M OutboundResult :=
  let acct := outbound_account ctx in
  result ← sendTextMessage acct (to ctx) (outbound_text ctx);
  mret {| outbound_ok := ok result;
          outbound_error :=
            match send_error result with
            | Some (c :: r) => Some (ErrorObject (js "Error") (c :: r))
            | _ => None
            end |}.

Record GatewayContext := {
  ctx_account : ResolvedFeishuAccount;
  ctx_cfg : ClawdbotConfig;
  ctx_abortSignal : option nat;
}.

Definition startAccount (feishuRuntime : option PluginRuntime)
    (ctx : GatewayContext) : M unit :=
  runtime ← getFeishuRuntime feishuRuntime;
  let acct := ctx_account ctx in
  let cfg := ctx_cfg ctx in
  startGateway {| account := acct;
                  abortSignal := ctx_abortSignal ctx;
                  onMessage := channel_onMessage acct cfg;
                  logger := Some (channel_logger acct) |};;
  mret ().

(** *** channel.ts: the configuration *)

Definition DEFAULT_ACCOUNT_ID : jsstring := js "default".
Definition CHANNEL_ID : jsstring := js "feishu".

(** The configuration is the object the host loaded, kept as the list of
    its members.  An object literal is the list of the members it writes,
    in the order it writes them; reading a name takes its last member. *)
Definition Config : Type := list (jsstring * json).

Definition getFeishuConfig (cfg : Config) : option json :=
  optional_member (member (JObject cfg) (js "channels")) (js "feishu").

(** [x === false] *)
Definition is_false (x : option json) : bool :=
  match x with
  | Some (JBool false) => true
  | _ => false
  end.

Definition listFeishuAccountIds (cfg : Config) : list jsstring :=
  match getFeishuConfig cfg with
  | None => []
  | Some feishuCfg =>
      if negb (ToBoolean feishuCfg)
         || is_false (member feishuCfg (js "enabled"))
      then []
      else if negb (truthy (member feishuCfg (js "appId")))
              || negb (truthy (member feishuCfg (js "appSecret")))
      then []
      else [DEFAULT_ACCOUNT_ID]
  end.

(** The account as [resolveFeishuAccount] builds it: the two credentials
    are whatever the configuration holds under their names. *)
Record ResolvedAccount := {
  resolved_accountId : jsstring;
  resolved_appId : option json;
  resolved_appSecret : option json;
}.

Definition resolveFeishuAccount (cfg : Config) (id : jsstring)
  : option ResolvedAccount :=
  if bool_decide (id ≠ DEFAULT_ACCOUNT_ID) then None
  else
    match getFeishuConfig cfg with
    | None => None
    | Some feishuCfg =>
        if negb (ToBoolean feishuCfg) then None
        else Some {| resolved_accountId := DEFAULT_ACCOUNT_ID;
                     resolved_appId := member feishuCfg (js "appId");
                     resolved_appSecret := member feishuCfg (js "appSecret") |}
    end.

Definition isConfigured (acct : ResolvedAccount) : bool :=
  truthy (resolved_appId acct) && truthy (resolved_appSecret acct).

Record OnboardingStatus := {
  status_channel : jsstring;
  configured : bool;
  statusLines : list jsstring;
  selectionHint : jsstring;
}.

Definition getStatus (cfg : Config) : OnboardingStatus :=
  let feishuCfg := getFeishuConfig cfg in
  let configured :=
    truthy (optional_member feishuCfg (js "appId"))
    && truthy (optional_member feishuCfg (js "appSecret")) in
  {| status_channel := CHANNEL_ID;
     configured := configured;
     statusLines :=
       [js "Feishu: "
        ++ (if configured then js "configured"
            else js "needs App ID & Secret")];
     selectionHint :=
       if configured then js "configured" else js "needs credentials" |}.

Definition disable (cfg : Config) : Config :=
  cfg
  ++ [(js "channels",
       JObject
         (spread (member (JObject cfg) (js "channels"))
          ++ [(js "feishu",
               JObject
                 (spread (optional_member
                            (member (JObject cfg) (js "channels"))
                            (js "feishu"))
                  ++ [(js "enabled", JBool false)]))]))].

(** The prompter of the onboarding wizard: what its [note] does, and the
    answers to the two confirmations and the two text questions.  A
    cancelled prompt rejects. *)
Record Prompter := {
  note : Completion unit;
  confirm_appId : Completion bool;
  text_appId : Completion jsstring;
  confirm_appSecret : Completion bool;
  text_appSecret : Completion jsstring;
}.

(** The template of the confirmation, which holds
    [value.slice(0, 8)]: a string has a [slice] and its slice is a
    string; an array has one and the template stringifies its first
    eight elements, which can throw; on any other value the call of
    [slice] throws. *)
Definition slice_0_8 (value : option json) : Completion unit :=
  match value with
  | Some (JString _) => Normal ()
  | Some (JArray l) =>
      and_then (ToString number_toString (JArray (take 8 l))) (λ _, Normal ())
  | _ => Throw (ErrorObject (js "TypeError")
                  (js "currentCfg.appId.slice is not a function"))
  end.

Definition configure (cfg : Config) (prompter : Prompter)
  : Completion (Config * jsstring) :=
  let next := cfg in
  let currentCfg := getFeishuConfig cfg in
  let hasAppId := truthy (optional_member currentCfg (js "appId")) in
  let hasAppSecret := truthy (optional_member currentCfg (js "appSecret")) in
  and_then (note prompter) (λ _,
  and_then
    (if hasAppId then
       and_then (slice_0_8 (optional_member currentCfg (js "appId"))) (λ _,
       and_then (confirm_appId prompter) (λ keep,
       if negb keep
       then and_then (text_appId prompter) (λ value, Normal (Some (trim value)))
       else Normal None))
     else and_then (text_appId prompter) (λ value, Normal (Some (trim value))))
    (λ appId,
  and_then
    (if hasAppSecret then
       and_then (confirm_appSecret prompter) (λ keep,
       if negb keep
       then and_then (text_appSecret prompter)
              (λ value, Normal (Some (trim value)))
       else Normal None)
     else and_then (text_appSecret prompter)
            (λ value, Normal (Some (trim value))))
    (λ appSecret,
  let next :=
    next
    ++ [(js "channels",
         JObject
           (spread (member (JObject next) (js "channels"))
            ++ [(js "feishu",
                 JObject
                   (spread (optional_member
                              (member (JObject next) (js "channels"))
                              (js "feishu"))
                    ++ [(js "enabled", JBool true)]
                    ++ match appId with
                       | Some (c :: r) => [(js "appId", JString (c :: r))]
                       | _ => []
                       end
                    ++ match appSecret with
                       | Some (c :: r) => [(js "appSecret", JString (c :: r))]
                       | _ => []
                       end))]))] in
  Normal (next, DEFAULT_ACCOUNT_ID)))).

(** ** Vocabulary of the statements *)

Definition monotone_clock : Prop := ∀ i j : nat, i ≤ j → (clock i ≤ clock j)%Z.

(** The world a first sighting of [messageId] leaves. *)
Definition recorded (messageId : jsstring) (s : World) : World :=
  let s1 := set_processedMessages <[messageId := clock (clock_reads s)]>
              (set_clock_reads S s) in
  if bool_decide (size (processedMessages s1) > 100)
  then set_processedMessages (sweep (clock (clock_reads s1)))
         (set_clock_reads S s1)
  else s1.

(** What [isMessageExpired] answers when the clock reads [now], and
    whether it reads the clock at all. *)
Definition expired_at (now : Z) (createTimeMs : option jsstring) : bool :=
  match createTimeMs with
  | Some (c :: r) =>
      match parseInt (c :: r) with
      | Some createTime =>
          bool_decide (now - createTime > MESSAGE_EXPIRE_TTL_MS)%Z
      | None => false
      end
  | _ => false
  end.

Definition reads_clock (createTimeMs : option jsstring) : bool :=
  match createTimeMs with
  | Some (c :: r) => bool_decide (is_Some (parseInt (c :: r)))
  | _ => false
  end.

(** The text the handler extracts from the content of a text message:
    [JSON.parse(content).text], or nothing when either step throws. *)
Definition extracted_text (content : jsstring) : option json :=
  match JSON_parse content with
  | Some parsed =>
      match get_property parsed (js "text") with
      | Normal value => value
      | Throw _ => None
      end
  | None => None
  end.

(** The message the handler builds from an event. *)
Definition normalized (data : Lark.ReceiveEvent) (message : Lark.RawMessage)
  : FeishuMessage :=
  {| messageId := or_empty (Lark.message_id message);
     chatId := or_empty (Lark.chat_id message);
     chatType := if bool_decide (Lark.chat_type message = Some (js "p2p"))
                 then p2p else group;
     senderId := or_empty (Lark.open_id data);
     messageType := or_empty (Lark.message_type message);
     content := or_empty (Lark.content message);
     text := if bool_decide (or_empty (Lark.message_type message) = js "text")
             then extracted_text (or_empty (Lark.content message))
             else None |}.

Definition expired_notice (message : Lark.RawMessage) : jsstring :=
  js "Skipping expired message " ++ template (Lark.content message)
  ++ js ", create_time: " ++ template (Lark.create_time message).

(** The world [logger?.info(msg)] or [logger?.error(msg)] leaves. *)
Definition logged (line : option Effect) (s : World) : World :=
  match line with
  | Some e => set_effects (λ l, l ++ [e]) s
  | None => s
  end.

(** The world the handler leaves for an event that carries a message
    whose id was not seen before. *)
Definition admitted_or_expired (options : GatewayOptions)
    (data : Lark.ReceiveEvent) (message : Lark.RawMessage) (s : World)
  : World :=
  let s1 := recorded (or_empty (Lark.message_id message)) s in
  let s2 := if reads_clock (Lark.create_time message)
            then set_clock_reads S s1 else s1 in
  if expired_at (clock (clock_reads s1)) (Lark.create_time message)
  then logged ((λ lg, info lg (expired_notice message)) <$> logger options) s2
  else set_immediates (λ q, q ++ [normalized data message]) s2.


(** The effects of the close attempt on a handle. *)
Definition close_attempt (wsClient : Lark.WSClient) : list Effect :=
  match Lark.close wsClient, Lark.stop wsClient with
  | Some _, _ => [WsCloseCalled (Lark.handle wsClient)]
  | None, Some _ => [WsStopCalled (Lark.handle wsClient)]
  | None, None => []
  end.

(** How many handles the registry holds for an account id. *)
Definition registered (key : jsstring) (s : World) : nat :=
  length (filter (λ entry, entry.1 = key) (map_to_list (wsClientCache s))).

Definition create_request (target body : jsstring) : Lark.CreateRequest :=
  {| Lark.receive_id_type := js "chat_id";
     Lark.receive_id := target;
     Lark.create_msg_type := js "text";
     Lark.create_text := body |}.

Definition reply_request (source body : jsstring) : Lark.ReplyRequest :=
  {| Lark.path_message_id := source;
     Lark.reply_msg_type := js "text";
     Lark.reply_text := body |}.

(** What the send functions make of the platform's answer. *)
Definition send_result (answer : Lark.ApiOutcome) : SendResult :=
  match answer with
  | Lark.Resolved code msg =>
      if bool_decide (code = Some 0%Z)
      then {| ok := true; send_error := None |}
      else {| ok := false; send_error := msg |}
  | Lark.Rejected e => {| ok := false; send_error := Some (String_of e) |}
  end.

(** [getFeishuClient] has a client for the account: one is cached for
    its application id, or [new lark.Client] returns one. *)
Definition client_available (acct : ResolvedFeishuAccount) (s : World)
  : Prop :=
  is_Some (clientCache s !! appId acct)
  ∨ Client_throws (appId acct) (appSecret acct) = None.

(** No client is cached for the application id of the account, and
    [new lark.Client] throws [e]. *)
Definition client_refused (acct : ResolvedFeishuAccount) (s : World)
    (e : JsThrown) : Prop :=
  clientCache s !! appId acct = None
  ∧ Client_throws (appId acct) (appSecret acct) = Some e.

(** The client [getFeishuClient] returns for an account when it has
    one: the cached one for its application id, or a new one from its
    credentials. *)
Definition client_of (acct : ResolvedFeishuAccount) (s : World) : Lark.Client :=
  default {| Lark.client_appId := appId acct;
             Lark.client_appSecret := appSecret acct |}
          (clientCache s !! appId acct).

(** The effects a computation added to a world. *)
Definition added (before after : World) : list Effect :=
  drop (length (effects before)) (effects after).

(** ** Sample inputs *)

(** A clock that advances one second per reading. *)
Definition sample_clock (n : nat) : Z := 1700000000000 + 1000 * Z.of_nat n.

Definition sample_account : ResolvedFeishuAccount :=
  {| accountId := js "default";
     appId := js "cli_a1b2c3";
     appSecret := js "secret" |}.


(** A logger whose calls are the effects [LoggerInfo] and [LoggerError]. *)
Definition trace_logger : Logger := {| info := LoggerInfo; error := LoggerError |}.

(** A callback that throws [new Error("boom")]. *)
Definition failing_onMessage : FeishuMessage → M unit :=
  λ _, throw (ErrorObject (js "Error") (js "boom")).

Definition sample_options : GatewayOptions :=
  {| account := sample_account;
     onMessage := failing_onMessage;
     abortSignal := Some 0;
     logger := Some trace_logger |}.

(** The same options without the optional logger. *)
Definition options_without_logger : GatewayOptions :=
  {| account := sample_account;
     onMessage := failing_onMessage;
     abortSignal := Some 0;
     logger := None |}.

Definition text_message (id created body : jsstring) : Lark.RawMessage :=
  {| Lark.message_id := Some id;
     Lark.create_time := Some created;
     Lark.chat_id := Some (js "oc_1");
     Lark.chat_type := Some (js "p2p");
     Lark.message_type := Some (js "text");
     Lark.content := Some body |}.

Definition text_event (id created body : jsstring) : Lark.ReceiveEvent :=
  {| Lark.message := Some (text_message id created body);
     Lark.open_id := Some (js "ou_1") |}.

(** The content [{"text":"hi"}]. *)
Definition hi_content : jsstring :=
  js "{" ++ quoted "text" ++ js ":" ++ quoted "hi" ++ js "}".

(** A world whose dedupe mapping holds [n] ids, all seen at [stamp]. *)
Fixpoint remember (n : nat) (stamp : Z) (processed : gmap jsstring Z)
  : gmap jsstring Z :=
  match n with
  | 0 => processed
  | S k => remember k stamp (<[[N.of_nat k] := stamp]> processed)
  end.

Definition crowded_world (n : nat) (stamp : Z) : World :=
  set_processedMessages (λ _, remember n stamp ∅) empty_world.

(** A platform that answers every call the same way, a dispatcher that
    delivers one reply, and a SDK whose clients have a working [close]. *)
Definition platform_answers {Request : Type} (answer : Lark.ApiOutcome)
  : World → Request → Lark.ApiOutcome := λ _ _, answer.

Definition echo_dispatcher
  : unit → World → MsgContext → list Lark.ReplyPayload * option JsThrown :=
  λ _ _ _, ([{| Lark.payload_text := Some (js "pong") |}], None).

Definition closable : nat → option Lark.CallOutcome * option Lark.CallOutcome :=
  λ _, (Some Lark.Returns, None).

(** A SDK whose [Client] constructor always returns, and one whose
    constructor throws for an empty secret. *)
Definition builds_any : jsstring → jsstring → option JsThrown :=
  λ _ _, None.

Definition refuses_empty_secret : jsstring → jsstring → option JsThrown :=
  λ _ appSecret,
    if bool_decide (appSecret = [])
    then Some (ErrorObject (js "Error") (js "appSecret is needed"))
    else None.

(** The sample account without its secret. *)
Definition account_without_secret : ResolvedFeishuAccount :=
  {| accountId := js "default";
     appId := js "cli_a1b2c3";
     appSecret := [] |}.

Definition close_throws : nat → option Lark.CallOutcome * option Lark.CallOutcome :=
  λ _, (Some (Lark.Raises (ErrorObject (js "Error") (js "socket"))), None).

(** ** Vocabulary of the further statements *)

(** The client [startGateway] builds in the world [before]. *)
Definition built_client (options : GatewayOptions) (before : World)
  : Lark.WSClient :=
  {| Lark.handle := ws_constructed before;
     Lark.ws_appId := appId (account options);
     Lark.ws_appSecret := appSecret (account options);
     Lark.close := (ws_members (ws_constructed before)).1;
     Lark.stop := (ws_members (ws_constructed before)).2 |}.

(** What [startGateway] does once a handle it found is stopped. *)
Definition opening (options : GatewayOptions) (before : World)
  : list Effect :=
  [WsConstructed (ws_constructed before)]
  ++ match abortSignal options with
     | Some signal => [AbortListenerAdded signal (accountId (account options))]
     | None => []
     end
  ++ [WsStarted (ws_constructed before)]
  ++ match logger options with
     | Some lg =>
         [info lg (js "logged in to feishu as " ++ appId (account options))]
     | None => []
     end
  ++ [RegistrySet (accountId (account options)) (ws_constructed before)].

(** The effects of stopping the handle registered under [key], if any. *)
Definition closing (key : jsstring) (s : World) : list Effect :=
  match wsClientCache s !! key with
  | Some wsClient => close_attempt wsClient ++ [RegistryDelete key]
  | None => []
  end.

(** Every timestamp in the mapping is a clock reading already taken,
    and when the mapping holds more than 100 ids no two of them were
    first seen more than the TTL apart. *)
Definition window_bounded (s : World) : Prop :=
  (∀ (k : jsstring) (t : Z),
     processedMessages s !! k = Some t →
     ∃ i : nat, i < clock_reads s ∧ t = clock i)
  ∧ (size (processedMessages s) ≤ 100
     ∨ ∀ (k1 : jsstring) (t1 : Z) (k2 : jsstring) (t2 : Z),
         processedMessages s !! k1 = Some t1 →
         processedMessages s !! k2 = Some t2 →
         (t1 - t2 ≤ MESSAGE_DEDUPE_TTL_MS)%Z).

(** Every registered client was built by the SDK before, and no client
    is registered under two account ids. *)
Definition registry_sound (s : World) : Prop :=
  ∀ (k1 : jsstring) (c1 : Lark.WSClient),
    wsClientCache s !! k1 = Some c1 →
    Lark.handle c1 < ws_constructed s
    ∧ ∀ (k2 : jsstring) (c2 : Lark.WSClient),
        wsClientCache s !! k2 = Some c2 →
        Lark.handle c1 = Lark.handle c2 → k1 = k2.

(** The texts [deliver] sends for a list of reply payloads: those that
    are present and not empty, in order. *)
Definition reply_texts (payloads : list Lark.ReplyPayload) : list jsstring :=
  filter (λ t, t ≠ []) (map (λ p, default [] (Lark.payload_text p)) payloads).

(** The options [startAccount] passes to [startGateway]. *)
Definition account_options (ctx : GatewayContext) : GatewayOptions :=
  {| account := ctx_account ctx;
     abortSignal := ctx_abortSignal ctx;
     onMessage := channel_onMessage (ctx_account ctx) (ctx_cfg ctx);
     logger := Some (channel_logger (ctx_account ctx)) |}.

(** The prefix of every line the plugin writes to the console. *)
Definition console_prefix (acct : ResolvedFeishuAccount) : jsstring :=
  js "[feishu:" ++ accountId acct ++ js "] ".

(** The context [onMessage] hands to the dispatcher. *)
Definition context_of (acct : ResolvedFeishuAccount) (message : FeishuMessage)
  : MsgContext :=
  {| From := senderId message;
     Body := default JNull (text message);
     AccountId := accountId acct;
     Provider := js "feishu";
     Surface := js "feishu";
     SessionKey := js "feishu:" ++ accountId acct ++ js ":" ++ chatId message;
     To := chatId message;
     ChatType := match chatType message with
                 | p2p => direct
                 | group => group_chat
                 end |}.

(** The [Error] [sendText] builds from a failure message, if there is
    one and it is not empty. *)
Definition error_of (message : option jsstring) : option JsThrown :=
  match message with
  | Some (c :: r) => Some (ErrorObject (js "Error") (c :: r))
  | _ => None
  end.

(** The credential the configuration holds under [name]. *)
Definition credential (cfg : Config) (name : jsstring) : option json :=
  optional_member (getFeishuConfig cfg) name.

(** The credential after the wizard: the current one when it is kept or
    when nothing but white space is typed, else what is typed, trimmed. *)
Definition entered (current : option json) (confirm : Completion bool)
    (typed : Completion jsstring) : option json :=
  let typed_value :=
    match typed with
    | Normal value =>
        match trim value with
        | [] => current
        | c :: r => Some (JString (c :: r))
        end
    | Throw _ => current
    end in
  if truthy current then
    match confirm with
    | Normal false => typed_value
    | _ => current
    end
  else typed_value.

(** Every code unit is a 16-bit number. *)
Definition code_units (s : jsstring) : Prop := Forall (λ c, (c < 65536)%N) s.

(** One question of the wizard: what is to be written, [None] when the
    current value is kept. *)
Definition asked (has : bool) (confirm : Completion bool)
    (typed : Completion jsstring) : Completion (option jsstring) :=
  if has then
    and_then confirm (λ keep,
      if negb keep
      then and_then typed (λ value, Normal (Some (trim value)))
      else Normal None)
  else and_then typed (λ value, Normal (Some (trim value))).

(** The member the wizard writes for an answer. *)
Definition written (name : jsstring) (value : option jsstring)
  : list (jsstring * json) :=
  match value with
  | Some (c :: r) => [(name, JString (c :: r))]
  | _ => []
  end.

(** The prompts are answered, and what is typed is not blank. *)
Definition answered (prompter : Prompter) : Prop :=
  note prompter = Normal ()
  ∧ (∃ keep : bool, confirm_appId prompter = Normal keep)
  ∧ (∃ value : jsstring,
       text_appId prompter = Normal value ∧ trim value ≠ [])
  ∧ (∃ keep : bool, confirm_appSecret prompter = Normal keep)
  ∧ (∃ value : jsstring,
       text_appSecret prompter = Normal value ∧ trim value ≠ []).

(** The contexts handed to the dispatcher, in the order of the calls. *)
Definition dispatched (trace : list Effect) : list MsgContext :=
  omap (λ e, match e with DispatchReply c => Some c | _ => None end) trace.

(** [onMessage] calls the dispatcher for the message: its type is
    [text], its text is truthy, and the text converts to a string. *)
Definition dispatchable (message : FeishuMessage) : bool :=
  bool_decide (messageType message = js "text")
  && negb (not_text message)
  && match ToString number_toString (default JNull (text message)) with
     | Normal _ => true
     | Throw _ => false
     end.


(** ** Further sample inputs *)

(** A configuration with both credentials, as the wizard writes it into
    an empty one. *)
Definition sample_config : Config :=
  [(js "channels",
    JObject
      [(js "feishu",
        JObject [(js "enabled", JBool true);
                 (js "appId", JString (js "cli_a1b2c3"));
                 (js "appSecret", JString (js "secret"))])])].

(** A person who types both credentials, the first one between spaces,
    and keeps neither of the current ones. *)
Definition typing_prompter : Prompter :=
  {| note := Normal ();
     confirm_appId := Normal false;
     text_appId := Normal (js " cli_a1b2c3 ");
     confirm_appSecret := Normal false;
     text_appSecret := Normal (js "secret") |}.

(** A second account with the application id of the first and another
    secret. *)
Definition rotated_account : ResolvedFeishuAccount :=
  {| accountId := js "second";
     appId := js "cli_a1b2c3";
     appSecret := js "rotated" |}.

(** A text with a quotation mark, a line feed, a reverse solidus, a
    surrogate pair and a surrogate on its own. *)
Definition awkward_text : jsstring :=
  js "say " ++ [0x22; 0x0A; 0x5C; 0xD83D; 0xDE00; 0xD800]%N.

(** The message the gateway builds from a text event with text [hi]. *)
Definition hi_message : FeishuMessage :=
  {| messageId := js "E1";
     chatId := js "oc_1";
     chatType := p2p;
     senderId := js "ou_1";
     messageType := js "text";
     content := hi_content;
     text := Some (JString (js "hi")) |}.

(** ** Properties *)

(** Unfolding the monad, and projecting out of updated worlds. *)
Ltac run :=
  unfold mbind, M_bind, mret, M_ret, when, emit, modify, get_world, throw,
    try_catch, completed, Date_now in *; cbn [fst snd] in *.

Ltac world :=
  cbn [wsClientCache processedMessages clientCache clock_reads
       ws_constructed immediates effects
       set_wsClientCache set_processedMessages set_clientCache
       set_clock_reads set_ws_constructed set_immediates set_effects
       logged fmap option_fmap option_map fst snd] in *.

(** *** The dedupe mapping *)

Lemma sweep_lookup (now : Z) (processed : gmap jsstring Z) (k : jsstring) :
  sweep now processed !! k =
    match processed !! k with
    | Some timestamp =>
        if bool_decide (now - timestamp > MESSAGE_DEDUPE_TTL_MS)%Z
        then None else Some timestamp
    | None => None
    end.
Proof.
  unfold sweep.
  enough (∀ base : gmap jsstring Z,
            map_fold (λ messageId timestamp remaining,
                        if bool_decide (now - timestamp > MESSAGE_DEDUPE_TTL_MS)%Z
                        then delete messageId remaining else remaining)
                     base processed !! k =
            match processed !! k with
            | Some timestamp =>
                if bool_decide (now - timestamp > MESSAGE_DEDUPE_TTL_MS)%Z
                then None else base !! k
            | None => base !! k
            end) as General.
  { rewrite General. destruct (processed !! k) eqn:E; [|done].
    by destruct (bool_decide _). }
  intros base.
  apply (map_fold_weak_ind
           (λ r m, r !! k = match m !! k with
                            | Some timestamp =>
                                if bool_decide (now - timestamp > MESSAGE_DEDUPE_TTL_MS)%Z
                                then None else base !! k
                            | None => base !! k
                            end)).
  - by rewrite lookup_empty.
  - intros i x m r Hi IH.
    destruct (decide (i = k)) as [->|Hne].
    + rewrite lookup_insert_eq. rewrite Hi in IH.
      destruct (bool_decide _); [apply lookup_delete_eq | done].
    + rewrite lookup_insert_ne by done.
      destruct (bool_decide (now - x > _)%Z); [|done].
      by rewrite lookup_delete_ne.
Qed.

Lemma sweep_filter (now : Z) (processed : gmap jsstring Z) :
  sweep now processed =
    filter (λ entry, ¬ (now - entry.2 > MESSAGE_DEDUPE_TTL_MS)%Z) processed.
Proof.
  apply map_eq. intros k. rewrite sweep_lookup.
  destruct (processed !! k) as [timestamp|] eqn:E.
  - case_bool_decide.
    + symmetry. apply map_lookup_filter_None. right. intros x Hx.
      rewrite E in Hx. injection Hx as <-. cbn. lia.
    + symmetry. apply map_lookup_filter_Some. split; [done|]. cbn. lia.
  - symmetry. apply map_lookup_filter_None. by left.
Qed.

Lemma cleanupDedupeCache_run (s : World) :
  cleanupDedupeCache s =
    (Normal (),
     set_processedMessages (sweep (clock (clock_reads s)))
       (set_clock_reads S s)).
Proof. reflexivity. Qed.

Lemma isDuplicateMessage_seen (messageId : jsstring) (s : World) :
  is_Some (processedMessages s !! messageId) →
  isDuplicateMessage messageId s = (Normal true, s).
Proof.
  intros Hin. unfold isDuplicateMessage. run.
  by rewrite bool_decide_eq_true_2.
Qed.

Lemma isDuplicateMessage_fresh (messageId : jsstring) (s : World) :
  processedMessages s !! messageId = None →
  isDuplicateMessage messageId s = (Normal false, recorded messageId s).
Proof.
  intros Hout. unfold isDuplicateMessage, recorded. run.
  rewrite bool_decide_eq_false_2 by (rewrite Hout; by intros [? ?]).
  cbn. by destruct (bool_decide _).
Qed.

(** *** Expiry *)

Lemma isMessageExpired_run (createTimeMs : option jsstring) (s : World) :
  isMessageExpired createTimeMs s =
    (Normal (expired_at (clock (clock_reads s)) createTimeMs),
     if reads_clock createTimeMs then set_clock_reads S s else s).
Proof.
  unfold isMessageExpired, expired_at, reads_clock.
  destruct createTimeMs as [[|c r]|]; try reflexivity.
  destruct (parseInt (c :: r)) as [createTime|]; reflexivity.
Qed.

Lemma parseInt_empty : parseInt [] = None.
Proof. reflexivity. Qed.

(** C2.  [isMessageExpired] always answers; the answer is [true] exactly
    when the creation timestamp is present, [parseInt] reads a number
    from it, and the clock reading minus that number exceeds 30 minutes;
    an absent timestamp and one [parseInt] reads no number from both
    answer [false]. *)
Theorem isMessageExpired_exactly_when_older_than_30_minutes
    (createTimeMs : option jsstring) (s : World) :
  ∃ expired : bool,
    (isMessageExpired createTimeMs s).1 = Normal expired
    ∧ (expired = true ↔
         ∃ (raw : jsstring) (createTime : Z),
           createTimeMs = Some raw
           ∧ parseInt raw = Some createTime
           ∧ (clock (clock_reads s) - createTime > 30 * 60 * 1000)%Z)
    ∧ (createTimeMs = None → expired = false)
    ∧ (∀ raw : jsstring,
         createTimeMs = Some raw → parseInt raw = None → expired = false).
Proof.
  rewrite isMessageExpired_run. cbn [fst].
  exists (expired_at (clock (clock_reads s)) createTimeMs).
  split; [reflexivity|]. split; [|split].
  - unfold expired_at. split.
    + destruct createTimeMs as [[|c r]|]; try discriminate.
      destruct (parseInt (c :: r)) as [createTime|] eqn:Parsed;
        [|discriminate].
      intros Old%bool_decide_eq_true. by exists (c :: r), createTime.
    + intros (raw & createTime & -> & Parsed & Old).
      destruct raw as [|c r]; [by rewrite parseInt_empty in Parsed|].
      rewrite Parsed. by apply bool_decide_eq_true.
  - by intros ->.
  - intros raw -> Parsed. unfold expired_at.
    destruct raw as [|c r]; [done|]. by rewrite Parsed.
Qed.

(** *** The inbound handler *)

Lemma logger_info_run (l : option Logger) (msg : jsstring) (s : World) :
  logger_info l msg s = (Normal (), logged ((λ lg, info lg msg) <$> l) s).
Proof. by destruct l. Qed.

Lemma logger_error_run (l : option Logger) (msg : jsstring) (s : World) :
  logger_error l msg s = (Normal (), logged ((λ lg, error lg msg) <$> l) s).
Proof. by destruct l. Qed.

Lemma on_message_receive_no_message (options : GatewayOptions)
    (data : Lark.ReceiveEvent) (s : World) :
  Lark.message data = None →
  on_message_receive options data s = (Normal (), s).
Proof. intros E. unfold on_message_receive. by rewrite E. Qed.

Lemma on_message_receive_duplicate (options : GatewayOptions)
    (data : Lark.ReceiveEvent) (message : Lark.RawMessage) (s : World) :
  Lark.message data = Some message →
  is_Some (processedMessages s !! or_empty (Lark.message_id message)) →
  on_message_receive options data s = (Normal (), s).
Proof.
  intros E Seen. unfold on_message_receive. rewrite E.
  unfold mbind at 1, M_bind. by rewrite isDuplicateMessage_seen.
Qed.

Lemma on_message_receive_fresh (options : GatewayOptions)
    (data : Lark.ReceiveEvent) (message : Lark.RawMessage) (s : World) :
  Lark.message data = Some message →
  processedMessages s !! or_empty (Lark.message_id message) = None →
  on_message_receive options data s =
    (Normal (), admitted_or_expired options data message s).
Proof.
  intros E Fresh. unfold on_message_receive, admitted_or_expired. rewrite E.
  unfold mbind at 1, M_bind. rewrite isDuplicateMessage_fresh by done.
  unfold mbind at 1, M_bind. rewrite isMessageExpired_run.
  destruct (expired_at _ _).
  - unfold mbind, M_bind. rewrite logger_info_run. reflexivity.
  - unfold normalized, extracted_text. cbn [messageType content].
    destruct (bool_decide (or_empty (Lark.message_type message) = js "text")).
    + destruct (JSON_parse _) as [parsed|]; [|reflexivity].
      destruct (get_property parsed (js "text")); reflexivity.
    + reflexivity.
Qed.

(** *** Deduplication over a run of events *)



Lemma recorded_immediates (id : jsstring) (s : World) :
  immediates (recorded id s) = immediates s.
Proof. unfold recorded. world. by destruct (bool_decide _). Qed.

Lemma recorded_effects (id : jsstring) (s : World) :
  effects (recorded id s) = effects s.
Proof. unfold recorded. world. by destruct (bool_decide _). Qed.

Lemma admitted_or_expired_processed (options : GatewayOptions)
    (data : Lark.ReceiveEvent) (message : Lark.RawMessage) (s : World) :
  processedMessages (admitted_or_expired options data message s) =
    processedMessages (recorded (or_empty (Lark.message_id message)) s).
Proof.
  unfold admitted_or_expired.
  destruct (expired_at _ _), (reads_clock _), (logger options); by world.
Qed.

Lemma admitted_or_expired_clock_reads (options : GatewayOptions)
    (data : Lark.ReceiveEvent) (message : Lark.RawMessage) (s : World) :
  clock_reads (recorded (or_empty (Lark.message_id message)) s)
    ≤ clock_reads (admitted_or_expired options data message s).
Proof.
  unfold admitted_or_expired.
  destruct (expired_at _ _), (reads_clock _), (logger options); world; lia.
Qed.


(** The handler never throws. *)
Lemma on_message_receive_total (options : GatewayOptions)
    (data : Lark.ReceiveEvent) (s : World) :
  (on_message_receive options data s).1 = Normal ().
Proof.
  destruct (Lark.message data) as [message|] eqn:E.
  - destruct (processedMessages s !! or_empty (Lark.message_id message))
      as [t|] eqn:Seen.
    + by erewrite on_message_receive_duplicate.
    + by erewrite on_message_receive_fresh.
  - by rewrite on_message_receive_no_message.
Qed.



Lemma for_of_on_message_receive_cons (options : GatewayOptions)
    (data : Lark.ReceiveEvent) (rest : list Lark.ReceiveEvent) (s : World) :
  for_of (data :: rest) (on_message_receive options) s =
    for_of rest (on_message_receive options)
      (on_message_receive options data s).2.
Proof.
  cbn [for_of]. unfold mbind, M_bind.
  pose proof (on_message_receive_total options data s) as Total.
  destruct (on_message_receive options data s) as [[[]|e] s']; [done|].
  discriminate.
Qed.




(** *** Cleanup of the dedupe mapping *)

Lemma sweep_lookup_Some (now : Z) (processed : gmap jsstring Z)
    (k : jsstring) (timestamp : Z) :
  sweep now processed !! k = Some timestamp
  ↔ processed !! k = Some timestamp
    ∧ ¬ (now - timestamp > MESSAGE_DEDUPE_TTL_MS)%Z.
Proof.
  rewrite sweep_lookup.
  destruct (processed !! k) as [t|];
    [|split; [discriminate | by intros [? _]]].
  destruct (decide (now - t > MESSAGE_DEDUPE_TTL_MS)%Z) as [Old|Young].
  - rewrite bool_decide_eq_true_2 by done. split; [discriminate|].
    intros [Same Young]. injection Same as ->. by destruct Young.
  - rewrite bool_decide_eq_false_2 by done. split; [|by intros [? _]].
    intros Same. injection Same as ->. done.
Qed.

(** C8.  The dedupe check sweeps the mapping only after an insert that
    leaves more than 100 entries: it changes nothing for an id already
    present, and only inserts while the size stays within 100.  When the
    sweep runs, the entries that remain are exactly those whose timestamp
    is not more than 60 seconds before the clock reading of the sweep.
    Hence, once a sweep has run more than 60 seconds after an id was
    recorded, the check answers [false] for that id again. *)
Theorem dedupe_cleanup_runs_only_above_100_entries
    (messageId : jsstring) (s : World) :
  let t0 := clock (clock_reads s) in
  let t1 := clock (S (clock_reads s)) in
  let inserted := <[messageId := t0]> (processedMessages s) in
  (is_Some (processedMessages s !! messageId) →
     isDuplicateMessage messageId s = (Normal true, s))
  ∧ (processedMessages s !! messageId = None → size inserted ≤ 100 →
       isDuplicateMessage messageId s =
         (Normal false,
          set_processedMessages <[messageId := t0]> (set_clock_reads S s)))
  ∧ (processedMessages s !! messageId = None → size inserted > 100 →
       (isDuplicateMessage messageId s).1 = Normal false
       ∧ ∀ (k : jsstring) (timestamp : Z),
           processedMessages (isDuplicateMessage messageId s).2 !! k
             = Some timestamp
           ↔ inserted !! k = Some timestamp
             ∧ ¬ (t1 - timestamp > 60 * 1000)%Z)
  ∧ (∀ (k : jsstring) (timestamp : Z),
       processedMessages (cleanupDedupeCache s).2 !! k = Some timestamp
       ↔ processedMessages s !! k = Some timestamp
         ∧ ¬ (t0 - timestamp > 60 * 1000)%Z)
  ∧ (∀ seen : Z,
       processedMessages s !! messageId = Some seen →
       (t0 - seen > 60 * 1000)%Z →
       (isDuplicateMessage messageId (cleanupDedupeCache s).2).1
         = Normal false).
Proof.
  cbv zeta. change (60 * 1000)%Z with MESSAGE_DEDUPE_TTL_MS.
  split; [apply isDuplicateMessage_seen|]. split; [|split; [|split]].
  - intros Fresh Small. rewrite isDuplicateMessage_fresh by done.
    unfold recorded. world. rewrite bool_decide_eq_false_2 by lia. done.
  - intros Fresh Large. rewrite isDuplicateMessage_fresh by done.
    split; [done|]. intros k timestamp. unfold recorded. world.
    rewrite bool_decide_eq_true_2 by done. world. apply sweep_lookup_Some.
  - intros k timestamp. rewrite cleanupDedupeCache_run. world.
    apply sweep_lookup_Some.
  - intros seen Seen Old. rewrite cleanupDedupeCache_run.
    rewrite isDuplicateMessage_fresh; [done|]. world.
    rewrite sweep_lookup, Seen. by rewrite bool_decide_eq_true_2.
Qed.

(** *** Order of the checks, normalisation, scheduling *)

(** C3, as the code has it.  For an event that carries a message: when
    its id is in the mapping the handler returns and leaves the world as
    it was, whatever the creation time (no log line, no clock reading, the
    staleness check is never reached).  When the id is not in the mapping
    and the staleness check, run in the world the dedupe check left,
    answers [true], the event is dropped: nothing is scheduled, the
    mapping is as the dedupe check left it, and the effects grow by
    exactly the call [logger.info] of a line made of the event's content
    and creation time when the options carry a logger, and by nothing
    when they carry none.  For every event whose id is not in the mapping
    the staleness check is the one run in the world the dedupe check
    left: the mapping and the number of clock readings are those. *)
Theorem dedupe_check_precedes_staleness_check (options : GatewayOptions)
    (data : Lark.ReceiveEvent) (message : Lark.RawMessage) (s : World) :
  Lark.message data = Some message →
  let id := or_empty (Lark.message_id message) in
  let after_dedupe := (isDuplicateMessage id s).2 in
  let s' := (on_message_receive options data s).2 in
  (is_Some (processedMessages s !! id) →
     on_message_receive options data s = (Normal (), s))
  ∧ (processedMessages s !! id = None →
     (isMessageExpired (Lark.create_time message) after_dedupe).1
       = Normal true →
       (on_message_receive options data s).1 = Normal ()
       ∧ immediates s' = immediates s
       ∧ processedMessages s' = processedMessages after_dedupe
       ∧ effects s' =
           effects s ++
           match logger options with
           | Some lg =>
               [info lg (js "Skipping expired message "
                         ++ template (Lark.content message)
                         ++ js ", create_time: "
                         ++ template (Lark.create_time message))]
           | None => []
           end)
  ∧ (processedMessages s !! id = None →
     processedMessages s' = processedMessages after_dedupe
     ∧ clock_reads s'
       = clock_reads
           (isMessageExpired (Lark.create_time message) after_dedupe).2).
Proof.
  intros E. cbv zeta. split.
  { by apply on_message_receive_duplicate. }
  split; cycle 1.
  { intros Fresh. rewrite isDuplicateMessage_fresh by done. cbn [snd].
    rewrite isMessageExpired_run. cbn [snd].
    rewrite (on_message_receive_fresh options data message s E Fresh).
    cbn [snd]. rewrite admitted_or_expired_processed. split; [done|].
    unfold admitted_or_expired.
    destruct (expired_at _ _), (logger options), (reads_clock _); by world. }
  intros Fresh. rewrite isDuplicateMessage_fresh by done. cbn [snd].
  rewrite isMessageExpired_run. cbn [fst]. intros Expired.
  injection Expired as Expired.
  rewrite (on_message_receive_fresh options data message s E Fresh).
  cbn [fst snd]. unfold admitted_or_expired. rewrite Expired.
  fold (expired_notice message).
  destruct (logger options) as [lg|], (reads_clock _); world;
    rewrite ?recorded_immediates, ?recorded_effects, ?app_nil_r; done.
Qed.

(** C7.  An admitted event of type ["text"]: the handler returns normally
    and schedules one message whose content is the raw content and whose
    text field is the [text] member of the content parsed as JSON.  The
    content [{"text":"hi"}] gives the text ["hi"]; a content that is not
    JSON, such as [not-json], leaves the text field absent, and the
    message is scheduled all the same. *)
Theorem text_is_extracted_from_json_content (options : GatewayOptions)
    (data : Lark.ReceiveEvent) (message : Lark.RawMessage) (s : World) :
  Lark.message data = Some message →
  processedMessages s !! or_empty (Lark.message_id message) = None →
  (isMessageExpired (Lark.create_time message)
     (isDuplicateMessage (or_empty (Lark.message_id message)) s).2).1
    = Normal false →
  Lark.message_type message = Some (js "text") →
  let raw := or_empty (Lark.content message) in
  ∃ feishuMessage : FeishuMessage,
    (on_message_receive options data s).1 = Normal ()
    ∧ immediates (on_message_receive options data s).2
      = immediates s ++ [feishuMessage]
    ∧ content feishuMessage = raw
    ∧ (∀ parsed : json,
         JSON_parse raw = Some parsed →
         text feishuMessage =
           match get_property parsed (js "text") with
           | Normal value => value
           | Throw _ => None
           end)
    ∧ (JSON_parse raw = None → text feishuMessage = None)
    ∧ (raw = js "{" ++ quoted "text" ++ js ":" ++ quoted "hi" ++ js "}" →
       text feishuMessage = Some (JString (js "hi")))
    ∧ (raw = js "not-json" → text feishuMessage = None).
Proof.
  intros E Fresh NotExpired Text. cbv zeta.
  rewrite isDuplicateMessage_fresh in NotExpired by done.
  rewrite isMessageExpired_run in NotExpired. cbn [fst snd] in NotExpired.
  injection NotExpired as NotExpired.
  exists (normalized data message).
  rewrite (on_message_receive_fresh options data message s E Fresh).
  cbn [fst snd]. unfold admitted_or_expired. rewrite NotExpired.
  split; [done|]. split.
  { destruct (reads_clock _); world; by rewrite recorded_immediates. }
  split; [done|].
  assert (text (normalized data message)
          = extracted_text (or_empty (Lark.content message))) as ->.
  { unfold normalized. cbn [text]. rewrite Text. reflexivity. }
  unfold extracted_text.
  split; [by intros parsed ->|]. split; [by intros ->|].
  split; intros ->; reflexivity.
Qed.

(** C9, as the code has it.  The handler always returns its
    acknowledgment normally and its outcome does not depend on the
    [onMessage] callback, which it never runs: for an admitted event it
    queues the message, and a later turn of the event loop runs the
    callback on it.  That turn never throws: when [onMessage] returns the
    turn leaves the world [onMessage] left; when [onMessage] throws, the
    error is caught and the only further effect is the call
    [logger.error] with the stringified error when the options carry a
    logger, and nothing when they carry none. *)
Theorem dispatch_errors_are_caught_in_their_own_turn
    (options : GatewayOptions) (data : Lark.ReceiveEvent) (s : World) :
  (on_message_receive options data s).1 = Normal ()
  ∧ (∀ other : FeishuMessage → M unit,
       on_message_receive (set_onMessage other options) data s
       = on_message_receive options data s)
  ∧ (∀ message : Lark.RawMessage,
       Lark.message data = Some message →
       processedMessages s !! or_empty (Lark.message_id message) = None →
       (isMessageExpired (Lark.create_time message)
          (isDuplicateMessage (or_empty (Lark.message_id message)) s).2).1
         = Normal false →
       ∃ feishuMessage : FeishuMessage,
         immediates (on_message_receive options data s).2
           = immediates s ++ [feishuMessage]
         ∧ effects (on_message_receive options data s).2 = effects s
         ∧ (immediates s = [] →
            next_turn options (on_message_receive options data s).2
            = immediate_callback options feishuMessage
                (set_immediates (λ _, [])
                   (on_message_receive options data s).2)))
  ∧ (∀ (feishuMessage : FeishuMessage) (s0 : World),
       (immediate_callback options feishuMessage s0).1 = Normal ()
       ∧ (next_turn options s0).1 = Normal ())
  ∧ (∀ (feishuMessage : FeishuMessage) (s0 s1 : World),
       onMessage options feishuMessage s0 = (Normal (), s1) →
       immediate_callback options feishuMessage s0 = (Normal (), s1))
  ∧ (∀ (feishuMessage : FeishuMessage) (s0 s1 : World) (e : JsThrown),
       onMessage options feishuMessage s0 = (Throw e, s1) →
       (immediate_callback options feishuMessage s0).1 = Normal ()
       ∧ set_effects (λ _, effects s1)
           (immediate_callback options feishuMessage s0).2 = s1
       ∧ effects (immediate_callback options feishuMessage s0).2 =
           effects s1 ++
           match logger options with
           | Some lg =>
               [error lg (js "Error handling message: " ++ String_of e)]
           | None => []
           end).
Proof.
  assert (∀ (feishuMessage : FeishuMessage) (s0 : World),
            (immediate_callback options feishuMessage s0).1 = Normal ())
    as Caught.
  { intros feishuMessage s0. unfold immediate_callback, try_catch.
    destruct (onMessage options feishuMessage s0) as [[[]|e] s1]; [done|].
    by rewrite logger_error_run. }
  split; [apply on_message_receive_total|]. split; [reflexivity|].
  split; [|split; [|split]].
  - intros message E Fresh NotExpired.
    rewrite isDuplicateMessage_fresh in NotExpired by done.
    rewrite isMessageExpired_run in NotExpired. cbn [fst snd] in NotExpired.
    injection NotExpired as NotExpired.
    exists (normalized data message).
    rewrite (on_message_receive_fresh options data message s E Fresh).
    cbn [fst snd]. unfold admitted_or_expired. rewrite NotExpired.
    split; [|split].
    + destruct (reads_clock _); world; by rewrite recorded_immediates.
    + destruct (reads_clock _); world; by rewrite recorded_effects.
    + intros Empty. unfold next_turn. run.
      destruct (reads_clock _); world;
        rewrite recorded_immediates, Empty; reflexivity.
  - intros feishuMessage s0. split; [apply Caught|].
    unfold next_turn. run.
    destruct (immediates s0) as [|m rest]; [done|apply Caught].
  - intros feishuMessage s0 s1 Returned.
    unfold immediate_callback, try_catch. by rewrite Returned.
  - intros feishuMessage s0 s1 e Thrown.
    unfold immediate_callback, try_catch. rewrite Thrown, logger_error_run.
    cbn [fst snd]. destruct (logger options) as [lg|]; world.
    + split; [done|]. split; [by destruct s1|done].
    + split; [done|]. split; [by destruct s1|by rewrite app_nil_r].
Qed.

(** *** Connection lifecycle *)

Lemma stopGateway_absent (accountId : jsstring) (s : World) :
  wsClientCache s !! accountId = None →
  stopGateway accountId s = (Normal (), s).
Proof. intros Absent. unfold stopGateway. run. by rewrite Absent. Qed.

Lemma set_effects_app_nil (s : World) : set_effects (λ l, l ++ []) s = s.
Proof. destruct s. unfold set_effects. cbn. by rewrite app_nil_r. Qed.

Lemma stopGateway_present (accountId : jsstring) (s : World)
    (wsClient : Lark.WSClient) :
  wsClientCache s !! accountId = Some wsClient →
  stopGateway accountId s =
    (Normal (),
     set_effects (λ l, l ++ [RegistryDelete accountId])
       (set_wsClientCache (delete accountId)
          (set_effects (λ l, l ++ close_attempt wsClient) s))).
Proof.
  intros Present. unfold stopGateway, close_attempt. run. rewrite Present.
  destruct (Lark.close wsClient) as [[|e]|]; [reflexivity..|].
  destruct (Lark.stop wsClient) as [[|e]|]; try reflexivity.
  by rewrite set_effects_app_nil.
Qed.

Lemma no_binding {A} (key : jsstring) (l : list (jsstring * A)) :
  key ∉ l.*1 → filter (λ entry, entry.1 = key) l = [].
Proof.
  induction l as [|[k v] l IH]; intros Fresh; [done|].
  rewrite fmap_cons in Fresh. apply not_elem_of_cons in Fresh as [Ne Fresh].
  rewrite filter_cons. case_decide as Here; [by destruct Ne|by apply IH].
Qed.

Lemma at_most_one_binding {A} (key : jsstring) (l : list (jsstring * A)) :
  NoDup l.*1 → length (filter (λ entry, entry.1 = key) l) ≤ 1.
Proof.
  induction l as [|[k v] l IH]; intros Distinct; [cbn; lia|].
  apply NoDup_cons in Distinct as [Fresh Distinct].
  rewrite filter_cons. case_decide as Here; [|by apply IH].
  cbn in Here. subst k. cbn [length].
  rewrite no_binding by done. cbn. lia.
Qed.

Lemma registered_at_most_one (key : jsstring) (s : World) :
  registered key s ≤ 1.
Proof. apply at_most_one_binding, NoDup_fst_map_to_list. Qed.

(** C5.  [stopGateway] never throws.  With no handle registered for the
    account id it leaves the world as it was.  With a handle it calls
    [close] when that is a function, otherwise [stop] when that is a
    function, otherwise neither; whether or not the call throws, the
    handle is then removed from the registry and nothing else of the
    registry changes. *)
Theorem stopGateway_never_throws (accountId : jsstring) (s : World) :
  (stopGateway accountId s).1 = Normal ()
  ∧ wsClientCache (stopGateway accountId s).2
    = delete accountId (wsClientCache s)
  ∧ (wsClientCache s !! accountId = None →
     stopGateway accountId s = (Normal (), s))
  ∧ (∀ wsClient : Lark.WSClient,
       wsClientCache s !! accountId = Some wsClient →
       wsClientCache (stopGateway accountId s).2 !! accountId = None
       ∧ effects (stopGateway accountId s).2 =
           effects s
           ++ match Lark.close wsClient, Lark.stop wsClient with
              | Some _, _ => [WsCloseCalled (Lark.handle wsClient)]
              | None, Some _ => [WsStopCalled (Lark.handle wsClient)]
              | None, None => []
              end
           ++ [RegistryDelete accountId]).
Proof.
  destruct (wsClientCache s !! accountId) as [wsClient|] eqn:Lookup.
  - rewrite (stopGateway_present _ _ _ Lookup). world.
    split; [done|]. split; [done|]. split; [done|].
    intros ? [= <-]. split; [apply lookup_delete_eq|].
    by rewrite <- app_assoc.
  - rewrite (stopGateway_absent _ _ Lookup). cbn [fst snd].
    split; [done|]. split; [by rewrite delete_id|]. done.
Qed.

Lemma registered_absent (key : jsstring) (s : World) :
  wsClientCache s !! key = None → registered key s = 0.
Proof.
  intros Absent. unfold registered. rewrite no_binding; [done|].
  intros In. apply list_elem_of_fmap in In as ([k v] & -> & In).
  apply elem_of_map_to_list in In. cbn in Absent. congruence.
Qed.

Lemma registered_present (key : jsstring) (s : World)
    (wsClient : Lark.WSClient) :
  wsClientCache s !! key = Some wsClient → registered key s = 1.
Proof.
  intros Present. pose proof (registered_at_most_one key s) as Most.
  enough (0 < registered key s) by lia.
  unfold registered. apply elem_of_map_to_list in Present.
  assert ((key, wsClient) ∈ filter (λ entry, entry.1 = key)
            (map_to_list (wsClientCache s))) as In
    by (by apply list_elem_of_filter).
  destruct (filter _ _); [by apply not_elem_of_nil in In|cbn; lia].
Qed.

Lemma new_WSClient_run (id secret : jsstring) (s : World) :
  new_WSClient id secret s =
    (Normal {| Lark.handle := ws_constructed s;
               Lark.ws_appId := id;
               Lark.ws_appSecret := secret;
               Lark.close := (ws_members (ws_constructed s)).1;
               Lark.stop := (ws_members (ws_constructed s)).2 |},
     set_effects (λ l, l ++ [WsConstructed (ws_constructed s)])
       (set_ws_constructed S s)).
Proof. reflexivity. Qed.

(** C4.  Starting the gateway for an account id that has a handle in the
    registry: [stopGateway] runs first, so the existing handle gets its
    close attempt and leaves the registry before the SDK builds the new
    client; the new client is started and only then stored under the
    account id.  The registry holds one handle for the account id before
    the call, none once the old one is stopped, one after the call, and in
    no world more than one. *)
Theorem startGateway_stops_existing_handle_first (options : GatewayOptions)
    (existing : Lark.WSClient) (s : World) :
  let key := accountId (account options) in
  wsClientCache s !! key = Some existing →
  let stopped := (stopGateway key s).2 in
  let wsClient :=
    {| Lark.handle := ws_constructed s;
       Lark.ws_appId := appId (account options);
       Lark.ws_appSecret := appSecret (account options);
       Lark.close := (ws_members (ws_constructed s)).1;
       Lark.stop := (ws_members (ws_constructed s)).2 |} in
  let s' := (startGateway options s).2 in
  (startGateway options s).1 = Normal wsClient
  ∧ effects stopped =
      effects s
      ++ match Lark.close existing, Lark.stop existing with
         | Some _, _ => [WsCloseCalled (Lark.handle existing)]
         | None, Some _ => [WsStopCalled (Lark.handle existing)]
         | None, None => []
         end
      ++ [RegistryDelete key]
  ∧ wsClientCache stopped = delete key (wsClientCache s)
  ∧ effects s' =
      effects stopped
      ++ [WsConstructed (Lark.handle wsClient)]
      ++ match abortSignal options with
         | Some signal => [AbortListenerAdded signal key]
         | None => []
         end
      ++ [WsStarted (Lark.handle wsClient)]
      ++ match logger options with
         | Some lg =>
             [info lg (js "logged in to feishu as " ++ appId (account options))]
         | None => []
         end
      ++ [RegistrySet key (Lark.handle wsClient)]
  ∧ wsClientCache s' = <[key := wsClient]> (wsClientCache stopped)
  ∧ registered key s = 1
  ∧ registered key stopped = 0
  ∧ registered key s' = 1
  ∧ (∀ (k : jsstring) (w : World), registered k w ≤ 1).
Proof.
  cbv zeta. intros Present.
  assert (startGateway options s =
            (Normal {| Lark.handle := ws_constructed s;
                       Lark.ws_appId := appId (account options);
                       Lark.ws_appSecret := appSecret (account options);
                       Lark.close := (ws_members (ws_constructed s)).1;
                       Lark.stop := (ws_members (ws_constructed s)).2 |},
             set_effects
               (λ l, l ++ [RegistrySet (accountId (account options))
                             (ws_constructed s)])
               (set_wsClientCache
                  <[accountId (account options) :=
                      {| Lark.handle := ws_constructed s;
                         Lark.ws_appId := appId (account options);
                         Lark.ws_appSecret := appSecret (account options);
                         Lark.close := (ws_members (ws_constructed s)).1;
                         Lark.stop := (ws_members (ws_constructed s)).2 |}]>
                  (logged
                     ((λ lg, info lg (js "logged in to feishu as "
                                      ++ appId (account options)))
                        <$> logger options)
                     (set_effects
                        (λ l, l ++ [WsStarted (ws_constructed s)])
                        (set_effects
                           (λ l, l ++ match abortSignal options with
                                      | Some signal =>
                                          [AbortListenerAdded signal
                                             (accountId (account options))]
                                      | None => []
                                      end)
                           (set_effects
                              (λ l, l ++ [WsConstructed (ws_constructed s)])
                              (set_ws_constructed S
                                 (stopGateway (accountId (account options))
                                    s).2))))))))
    as Run.
  { unfold startGateway. unfold mbind at 1, M_bind. unfold get_world at 1.
    cbn iota. unfold mbind at 1, M_bind. unfold when.
    rewrite bool_decide_eq_true_2 by (by rewrite Present).
    rewrite (stopGateway_present _ _ _ Present).
    unfold mbind at 1, M_bind. rewrite new_WSClient_run.
    cbn [Lark.handle]. run.
    destruct (abortSignal options) as [signal|], (logger options) as [lg|];
      unfold logger_info; run; world; rewrite ?set_effects_app_nil;
      reflexivity. }
  rewrite Run. rewrite (stopGateway_present _ _ _ Present) in *.
  cbn [fst snd Lark.handle].
  split; [done|]. split; [world; by rewrite <- app_assoc|].
  split; [done|]. split.
  { destruct (logger options) as [lg|]; world;
      rewrite <- ?app_assoc; cbn; rewrite ?app_nil_r; reflexivity. }
  split.
  { by destruct (logger options) as [lg|]; world. }
  split; [by apply (registered_present _ _ existing)|].
  split; [apply registered_absent; world; apply lookup_delete_eq|].
  split; [|intros k w; apply registered_at_most_one].
  eapply registered_present.
  destruct (logger options) as [lg|]; world; apply lookup_insert_eq.
Qed.

(** *** Outbound send *)

Lemma getFeishuClient_run (acct : ResolvedFeishuAccount) (s : World) :
  client_available acct s →
  getFeishuClient acct s =
    (Normal (client_of acct s),
     match clientCache s !! appId acct with
     | Some _ => s
     | None => set_clientCache <[appId acct := client_of acct s]> s
     end).
Proof.
  intros Available. unfold getFeishuClient, client_of. run.
  destruct (clientCache s !! appId acct) as [client|] eqn:Cached; [done|].
  destruct Available as [[client Absurd]|Builds]; [congruence|].
  by rewrite Builds.
Qed.

Lemma getFeishuClient_refused (acct : ResolvedFeishuAccount) (s : World)
    (e : JsThrown) :
  client_refused acct s e → getFeishuClient acct s = (Throw e, s).
Proof.
  intros (Absent & Throws). unfold getFeishuClient. run.
  by rewrite Absent, Throws.
Qed.

Lemma getFeishuClient_cached (acct : ResolvedFeishuAccount) (s : World) :
  client_available acct s →
  clientCache (getFeishuClient acct s).2 !! appId acct
  = Some (client_of acct s).
Proof.
  intros Available. rewrite getFeishuClient_run by done. unfold client_of.
  destruct (clientCache s !! appId acct) as [client|] eqn:Cached;
    cbn [snd]; [done|]. world. apply lookup_insert_eq.
Qed.

Lemma getFeishuClient_frame (acct : ResolvedFeishuAccount) (s : World) :
  effects (getFeishuClient acct s).2 = effects s
  ∧ processedMessages (getFeishuClient acct s).2 = processedMessages s
  ∧ wsClientCache (getFeishuClient acct s).2 = wsClientCache s
  ∧ immediates (getFeishuClient acct s).2 = immediates s
  ∧ clock_reads (getFeishuClient acct s).2 = clock_reads s
  ∧ ws_constructed (getFeishuClient acct s).2 = ws_constructed s.
Proof.
  unfold getFeishuClient. run.
  destruct (clientCache s !! appId acct) as [client|]; [done|].
  by destruct (Client_throws _ _).
Qed.

Lemma sendTextMessage_world (acct : ResolvedFeishuAccount)
    (target body : jsstring) (s : World) :
  client_available acct s →
  sendTextMessage acct target body s =
    (Normal (send_result
               (im_v1_message_create (getFeishuClient acct s).2
                  (create_request target body))),
     set_effects
       (λ l, l ++ [MessageCreate (client_of acct s)
                     (create_request target body)])
       (getFeishuClient acct s).2).
Proof.
  intros Available.
  unfold sendTextMessage, send_result. fold (create_request target body).
  unfold mbind at 1, M_bind. rewrite getFeishuClient_run by done.
  unfold message_create. run.
  destruct (im_v1_message_create _ _) as [code msg|e]; cbn [fst snd];
    [by destruct (bool_decide _)|reflexivity].
Qed.

Lemma replyTextMessage_world (acct : ResolvedFeishuAccount)
    (source body : jsstring) (s : World) :
  client_available acct s →
  replyTextMessage acct source body s =
    (Normal (send_result
               (im_v1_message_reply (getFeishuClient acct s).2
                  (reply_request source body))),
     set_effects
       (λ l, l ++ [MessageReply (client_of acct s)
                     (reply_request source body)])
       (getFeishuClient acct s).2).
Proof.
  intros Available.
  unfold replyTextMessage, send_result. fold (reply_request source body).
  unfold mbind at 1, M_bind. rewrite getFeishuClient_run by done.
  unfold message_reply. run.
  destruct (im_v1_message_reply _ _) as [code msg|e]; cbn [fst snd];
    [by destruct (bool_decide _)|reflexivity].
Qed.

Lemma sendTextMessage_refused (acct : ResolvedFeishuAccount)
    (target body : jsstring) (s : World) (e : JsThrown) :
  client_refused acct s e →
  sendTextMessage acct target body s = (Throw e, s).
Proof.
  intros Refused. unfold sendTextMessage. unfold mbind at 1, M_bind.
  by rewrite (getFeishuClient_refused acct s e).
Qed.

Lemma replyTextMessage_refused (acct : ResolvedFeishuAccount)
    (source body : jsstring) (s : World) (e : JsThrown) :
  client_refused acct s e →
  replyTextMessage acct source body s = (Throw e, s).
Proof.
  intros Refused. unfold replyTextMessage. unfold mbind at 1, M_bind.
  by rewrite (getFeishuClient_refused acct s e).
Qed.

(** C6, as the code has it.  When a client is cached for the account or
    [new lark.Client] returns one, [sendTextMessage] and
    [replyTextMessage] return a result: [{ok: true}] when the platform
    answers with code 0, [{ok: false, error}] with the platform's
    message when it answers with another code, and [{ok: false, error}]
    with [String(error)] when the call rejects.  The client is obtained
    before the [try] block: when none is cached and [new lark.Client]
    throws, both functions throw that error and make no request. *)
Theorem send_failures_are_returned_not_thrown (acct : ResolvedFeishuAccount)
    (id body : jsstring) (s : World) :
  let called := (getFeishuClient acct s).2 in
  let created :=
    im_v1_message_create called
      {| Lark.receive_id_type := js "chat_id";
         Lark.receive_id := id;
         Lark.create_msg_type := js "text";
         Lark.create_text := body |} in
  let replied :=
    im_v1_message_reply called
      {| Lark.path_message_id := id;
         Lark.reply_msg_type := js "text";
         Lark.reply_text := body |} in
  let sent := (sendTextMessage acct id body s).1 in
  let answered := (replyTextMessage acct id body s).1 in
  (client_available acct s →
   (∃ result : SendResult, sent = Normal result)
   ∧ (∃ result : SendResult, answered = Normal result)
   ∧ (∀ msg : option jsstring,
        (created = Lark.Resolved (Some 0%Z) msg →
         sent = Normal {| ok := true; send_error := None |})
        ∧ (replied = Lark.Resolved (Some 0%Z) msg →
           answered = Normal {| ok := true; send_error := None |}))
   ∧ (∀ (code : option Z) (msg : option jsstring),
        code ≠ Some 0%Z →
        (created = Lark.Resolved code msg →
         sent = Normal {| ok := false; send_error := msg |})
        ∧ (replied = Lark.Resolved code msg →
           answered = Normal {| ok := false; send_error := msg |}))
   ∧ (∀ e : JsThrown,
        (created = Lark.Rejected e →
         sent = Normal {| ok := false; send_error := Some (String_of e) |})
        ∧ (replied = Lark.Rejected e →
           answered =
             Normal {| ok := false; send_error := Some (String_of e) |})))
  ∧ (∀ e : JsThrown,
       client_refused acct s e →
       sendTextMessage acct id body s = (Throw e, s)
       ∧ replyTextMessage acct id body s = (Throw e, s)).
Proof.
  cbv zeta. split.
  - intros Available.
    rewrite sendTextMessage_world, replyTextMessage_world by done.
    cbn [fst]. fold (create_request id body). fold (reply_request id body).
    split; [eauto|]. split; [eauto|]. split; [|split].
    + intros msg. split; by intros ->.
    + intros code msg NonZero.
      split; intros ->; unfold send_result;
        by rewrite bool_decide_eq_false_2.
    + intros e. split; by intros ->.
  - intros e Refused.
    by rewrite (sendTextMessage_refused _ _ _ _ e),
               (replyTextMessage_refused _ _ _ _ e).
Qed.

(** *** The channel's [onMessage] *)

Lemma channel_onMessage_skips (acct : ResolvedFeishuAccount)
    (cfg : ClawdbotConfig) (message : FeishuMessage) (s : World) :
  messageType message ≠ js "text" ∨ not_text message = true →
  channel_onMessage acct cfg message s = (Normal (), s).
Proof.
  intros Skip. unfold channel_onMessage.
  destruct Skip as [Other|Falsy].
  - by rewrite bool_decide_eq_true_2.
  - rewrite Falsy. by rewrite orb_true_r.
Qed.

Lemma added_nothing (s : World) : added s s = [].
Proof. unfold added. by rewrite drop_all. Qed.

Lemma added_app (s s' : World) (new : list Effect) :
  effects s' = effects s ++ new → added s s' = new.
Proof. intros Grown. unfold added. by rewrite Grown, drop_app_length. Qed.

Lemma sendTextMessage_extends (acct : ResolvedFeishuAccount)
    (target body : jsstring) (s : World) :
  ∃ new : list Effect,
    effects (sendTextMessage acct target body s).2 = effects s ++ new.
Proof.
  unfold sendTextMessage. fold (create_request target body).
  unfold mbind at 1, M_bind.
  destruct (getFeishuClient_frame acct s) as (Same & _).
  destruct (getFeishuClient acct s) as [[client|e] s1]; cbn [fst snd] in *.
  - exists [MessageCreate client (create_request target body)].
    unfold message_create. run.
    destruct (im_v1_message_create s1 _) as [code msg|e]; cbn [fst snd].
    + destruct (bool_decide _); world; by rewrite Same.
    + world. by rewrite Same.
  - exists []. by rewrite app_nil_r.
Qed.

Lemma deliver_extends (acct : ResolvedFeishuAccount) (message : FeishuMessage)
    (payload : Lark.ReplyPayload) (s : World) :
  ∃ new : list Effect,
    effects (deliver acct message payload s).2 = effects s ++ new.
Proof.
  unfold deliver. destruct (bool_decide _).
  - destruct (sendTextMessage_extends acct (chatId message)
                (default [] (Lark.payload_text payload)) s) as [new Sent].
    exists new. unfold mbind, M_bind.
    destruct (sendTextMessage _ _ _ s) as [[r|e] s1]; exact Sent.
  - exists []. by rewrite app_nil_r.
Qed.

Lemma for_of_deliver_extends (acct : ResolvedFeishuAccount)
    (message : FeishuMessage) (payloads : list Lark.ReplyPayload)
    (s : World) :
  ∃ new : list Effect,
    effects (for_of payloads (deliver acct message) s).2 = effects s ++ new.
Proof.
  revert s. induction payloads as [|payload rest IH]; intros s.
  - exists []. by rewrite app_nil_r.
  - cbn [for_of]. unfold mbind, M_bind.
    destruct (deliver_extends acct message payload s) as [new1 First].
    destruct (deliver acct message payload s) as [[[]|e] s1];
      cbn [snd] in First.
    + destruct (IH s1) as [new2 Then]. exists (new1 ++ new2).
      by rewrite Then, First, app_assoc.
    + by exists new1.
Qed.

(** C10.  [onMessage] returns at once, leaving the world as it was (no
    console line, no dispatcher call, no send), when the message type is
    not ["text"], when the text field is absent, and when it is the empty
    string.  It calls the reply dispatcher only when the message type is
    ["text"] and the text field is present and not the empty string; and
    for a text message whose text field is a non-empty string it does
    call the dispatcher, with that string as body. *)
Theorem onMessage_dispatches_only_text_with_text_field
    (acct : ResolvedFeishuAccount) (cfg : ClawdbotConfig)
    (message : FeishuMessage) (s : World) :
  let s' := (channel_onMessage acct cfg message s).2 in
  ((messageType message ≠ js "text"
    ∨ text message = None
    ∨ text message = Some (JString [])) →
   channel_onMessage acct cfg message s = (Normal (), s))
  ∧ (∀ ctx : MsgContext,
       DispatchReply ctx ∈ added s s' →
       messageType message = js "text"
       ∧ ∃ value : json,
           text message = Some value ∧ value ≠ JString []
           ∧ ToBoolean value = true)
  ∧ (∀ body : jsstring,
       messageType message = js "text" →
       text message = Some (JString body) →
       body ≠ [] →
       ∃ (line : jsstring) (ctx : MsgContext) (rest : list Effect),
         added s s' = ConsoleLog line :: DispatchReply ctx :: rest
         ∧ Body ctx = JString body
         ∧ To ctx = chatId message
         ∧ From ctx = senderId message).
Proof.
  cbv zeta.
  assert ((messageType message ≠ js "text"
           ∨ text message = None
           ∨ text message = Some (JString [])) →
          channel_onMessage acct cfg message s = (Normal (), s)) as Skips.
  { intros Skip. apply channel_onMessage_skips. unfold not_text.
    destruct Skip as [Other|[-> | ->]]; auto. }
  split; [exact Skips|]. split.
  - intros ctx Dispatched.
    destruct (decide (messageType message = js "text")) as [Text|Other];
      [|rewrite channel_onMessage_skips, added_nothing in Dispatched
          by auto; by apply not_elem_of_nil in Dispatched].
    split; [done|].
    destruct (text message) as [value|] eqn:Field;
      [|rewrite Skips, added_nothing in Dispatched by auto;
        by apply not_elem_of_nil in Dispatched].
    destruct (ToBoolean value) eqn:Truthy.
    + exists value. split; [done|]. split; [|done].
      intros ->. discriminate.
    + rewrite channel_onMessage_skips, added_nothing in Dispatched;
        [by apply not_elem_of_nil in Dispatched|].
      right. unfold not_text. by rewrite Field, Truthy.
  - intros body Text Field NonEmpty.
    unfold channel_onMessage, not_text. rewrite Field.
    rewrite bool_decide_eq_false_2 by (by intros Ne; apply Ne).
    destruct body as [|c r]; [done|].
    cbn [ToBoolean negb orb from_option id ToString].
    unfold dispatchReplyWithBufferedBlockDispatcher. run.
    match goal with
    | |- context [for_of ?ps (deliver acct message) ?w] =>
        destruct (for_of_deliver_extends acct message ps w) as [new Extends];
        destruct (for_of ps (deliver acct message) w) as [[[]|e] s1] eqn:Run
    end; cbn [snd] in Extends; world.
    + eexists _, _, new. split.
      * match goal with
        | |- context [match ?outcome with Some _ => _ | None => _ end] =>
            destruct outcome
        end; cbn [snd]; apply added_app; rewrite Extends, <- !app_assoc;
          reflexivity.
      * repeat split; reflexivity.
    + eexists _, _, new. split.
      * apply added_app. rewrite Extends, <- !app_assoc. reflexivity.
      * repeat split; reflexivity.
Qed.

(** ** Further properties *)

(** *** Connection lifecycle *)

Lemma stopGateway_effects (key : jsstring) (s : World) :
  effects (stopGateway key s).2 = effects s ++ closing key s.
Proof.
  unfold closing. destruct (wsClientCache s !! key) as [wsClient|] eqn:Lookup.
  - rewrite (stopGateway_present _ _ _ Lookup). world.
    by rewrite <- app_assoc.
  - rewrite (stopGateway_absent _ _ Lookup). cbn [snd]. by rewrite app_nil_r.
Qed.

Lemma stopGateway_registry (key : jsstring) (s : World) :
  wsClientCache (stopGateway key s).2 = delete key (wsClientCache s).
Proof.
  destruct (wsClientCache s !! key) as [wsClient|] eqn:Lookup.
  - by rewrite (stopGateway_present _ _ _ Lookup).
  - rewrite (stopGateway_absent _ _ Lookup). cbn [snd]. by rewrite delete_id.
Qed.

Lemma stopGateway_frame (key : jsstring) (s : World) :
  processedMessages (stopGateway key s).2 = processedMessages s
  ∧ clientCache (stopGateway key s).2 = clientCache s
  ∧ clock_reads (stopGateway key s).2 = clock_reads s
  ∧ ws_constructed (stopGateway key s).2 = ws_constructed s
  ∧ immediates (stopGateway key s).2 = immediates s.
Proof.
  destruct (wsClientCache s !! key) as [wsClient|] eqn:Lookup.
  - by rewrite (stopGateway_present _ _ _ Lookup).
  - by rewrite (stopGateway_absent _ _ Lookup).
Qed.

Lemma stopGateway_returns (key : jsstring) (s : World) :
  (stopGateway key s).1 = Normal ().
Proof.
  destruct (wsClientCache s !! key) as [wsClient|] eqn:Lookup.
  - by rewrite (stopGateway_present _ _ _ Lookup).
  - by rewrite (stopGateway_absent _ _ Lookup).
Qed.

(** The world [startGateway] leaves, from the world in which it builds
    the new client. *)
Lemma startGateway_run (options : GatewayOptions) (s : World) :
  let key := accountId (account options) in
  let before := (stopGateway key s).2 in
  startGateway options s =
    (Normal (built_client options s),
     set_effects (λ l, l ++ [RegistrySet key (ws_constructed s)])
       (set_wsClientCache <[key := built_client options s]>
          (logged
             ((λ lg, info lg (js "logged in to feishu as "
                              ++ appId (account options)))
                <$> logger options)
             (set_effects (λ l, l ++ [WsStarted (ws_constructed s)])
                (set_effects
                   (λ l, l ++ match abortSignal options with
                              | Some signal => [AbortListenerAdded signal key]
                              | None => []
                              end)
                   (set_effects (λ l, l ++ [WsConstructed (ws_constructed s)])
                      (set_ws_constructed S before))))))).
Proof.
  cbv zeta. unfold built_client.
  destruct (stopGateway_frame (accountId (account options)) s)
    as (_ & _ & _ & Built & _).
  unfold startGateway. unfold mbind at 1, M_bind. unfold get_world at 1.
  cbn iota. unfold mbind at 1, M_bind. unfold when.
  destruct (wsClientCache s !! accountId (account options))
    as [existing|] eqn:Lookup.
  - rewrite bool_decide_eq_true_2 by done.
    rewrite (stopGateway_present _ _ _ Lookup) in *.
    unfold mbind at 1, M_bind. rewrite new_WSClient_run.
    cbn [Lark.handle]. run.
    destruct (abortSignal options) as [signal|], (logger options) as [lg|];
      unfold logger_info; run; world; rewrite ?set_effects_app_nil;
      reflexivity.
  - rewrite bool_decide_eq_false_2 by (by intros [? ?]).
    rewrite (stopGateway_absent _ _ Lookup) in *.
    unfold mbind at 1, M_bind. unfold mret at 1, M_ret.
    unfold mbind at 1, M_bind. rewrite new_WSClient_run.
    cbn [Lark.handle]. run.
    destruct (abortSignal options) as [signal|], (logger options) as [lg|];
      unfold logger_info; run; world; rewrite ?set_effects_app_nil;
      reflexivity.
Qed.

Lemma startGateway_effects (options : GatewayOptions) (s : World) :
  effects (startGateway options s).2
  = effects s ++ closing (accountId (account options)) s ++ opening options s.
Proof.
  rewrite startGateway_run. cbv zeta. unfold opening.
  destruct (logger options) as [lg|]; world;
    rewrite stopGateway_effects, <- !app_assoc; cbn [app]; reflexivity.
Qed.

Lemma startGateway_registry (options : GatewayOptions) (s : World) :
  wsClientCache (startGateway options s).2
  = <[accountId (account options) := built_client options s]>
      (wsClientCache s).
Proof.
  rewrite startGateway_run. cbv zeta.
  destruct (logger options) as [lg|]; world;
    by rewrite stopGateway_registry, insert_delete_eq.
Qed.

Lemma startGateway_frame (options : GatewayOptions) (s : World) :
  processedMessages (startGateway options s).2 = processedMessages s
  ∧ clientCache (startGateway options s).2 = clientCache s
  ∧ clock_reads (startGateway options s).2 = clock_reads s
  ∧ ws_constructed (startGateway options s).2 = S (ws_constructed s)
  ∧ immediates (startGateway options s).2 = immediates s.
Proof.
  rewrite startGateway_run. cbv zeta.
  destruct (stopGateway_frame (accountId (account options)) s)
    as (Processed & Clients & Reads & Built & Pending).
  destruct (logger options) as [lg|]; world;
    by rewrite Processed, Clients, Reads, Built, Pending.
Qed.

(** X1.  Stopping an account twice is stopping it once: the second call
    finds no handle and leaves the world as the first call left it.
    Stopping one account leaves the handle of every other account
    registered. *)
Theorem stopGateway_twice_is_once (key : jsstring) (s : World) :
  stopGateway key (stopGateway key s).2 = (Normal (), (stopGateway key s).2)
  ∧ ∀ other : jsstring,
      other ≠ key →
      wsClientCache (stopGateway key s).2 !! other = wsClientCache s !! other.
Proof.
  split.
  - apply stopGateway_absent. rewrite stopGateway_registry.
    apply lookup_delete_eq.
  - intros other Other. rewrite stopGateway_registry.
    by apply lookup_delete_ne.
Qed.

(** X2.  The first start of an account, with no handle registered for
    it: [startGateway] returns the client the SDK built, makes no close or
    stop call and deletes nothing; it builds the client, adds the abort
    listener when a signal is given, starts the client, logs through the
    logger when there is one, and registers the client, in that order.
    The handles of other accounts stay registered. *)
Theorem startGateway_first_start (options : GatewayOptions) (s : World) :
  let key := accountId (account options) in
  wsClientCache s !! key = None →
  let h := ws_constructed s in
  let s' := (startGateway options s).2 in
  (startGateway options s).1
  = Normal {| Lark.handle := h;
              Lark.ws_appId := appId (account options);
              Lark.ws_appSecret := appSecret (account options);
              Lark.close := (ws_members h).1;
              Lark.stop := (ws_members h).2 |}
  ∧ effects s' =
      effects s
      ++ [WsConstructed h]
      ++ match abortSignal options with
         | Some signal => [AbortListenerAdded signal key]
         | None => []
         end
      ++ [WsStarted h]
      ++ match logger options with
         | Some lg =>
             [info lg (js "logged in to feishu as " ++ appId (account options))]
         | None => []
         end
      ++ [RegistrySet key h]
  ∧ (∃ wsClient : Lark.WSClient,
       wsClientCache s' !! key = Some wsClient ∧ Lark.handle wsClient = h)
  ∧ registered key s' = 1
  ∧ ∀ other : jsstring,
      other ≠ key → wsClientCache s' !! other = wsClientCache s !! other.
Proof.
  cbv zeta. intros Absent.
  rewrite startGateway_effects, startGateway_registry.
  rewrite startGateway_run. cbv zeta. cbn [fst].
  split; [done|]. split.
  { unfold closing. by rewrite Absent. }
  split.
  { exists (built_client options s). by rewrite lookup_insert_eq. }
  split.
  { apply (registered_present _ _ (built_client options s)).
    rewrite <- startGateway_run. rewrite startGateway_registry.
    apply lookup_insert_eq. }
  intros other Other. by rewrite lookup_insert_ne.
Qed.

(** X3.  Start then stop: the account has no handle afterwards, whatever
    was registered before; the close attempt of the stop goes to the
    client the start built; every other account keeps its handle. *)
Theorem stopGateway_after_startGateway (options : GatewayOptions) (s : World) :
  let key := accountId (account options) in
  let started := (startGateway options s).2 in
  let h := ws_constructed s in
  (stopGateway key started).1 = Normal ()
  ∧ wsClientCache (stopGateway key started).2 = delete key (wsClientCache s)
  ∧ effects (stopGateway key started).2 =
      effects started
      ++ match (ws_members h).1, (ws_members h).2 with
         | Some _, _ => [WsCloseCalled h]
         | None, Some _ => [WsStopCalled h]
         | None, None => []
         end
      ++ [RegistryDelete key].
Proof.
  cbv zeta. split; [apply stopGateway_returns|]. split.
  - rewrite stopGateway_registry, startGateway_registry.
    apply delete_insert_eq.
  - rewrite stopGateway_effects. unfold closing.
    rewrite startGateway_registry, lookup_insert_eq.
    reflexivity.
Qed.

Lemma abort_listener_run (options : GatewayOptions) (s : World) :
  abort_listener options s =
    stopGateway (accountId (account options))
      (logged
         ((λ lg, info lg (js "received abort signal, stopping gateway"))
            <$> logger options) s).
Proof.
  unfold abort_listener. unfold mbind, M_bind. rewrite logger_info_run.
  reflexivity.
Qed.

(** X4.  The abort listener stops whatever handle is registered for its
    account id when it fires.  After a later [startGateway] for the same
    account id (with other options, another signal), the listener of the
    earlier start logs through its own logger and then closes and
    unregisters the client of the later start.  It never throws. *)
Theorem abort_listener_stops_the_latest_handle
    (earlier later : GatewayOptions) (s : World) :
  accountId (account earlier) = accountId (account later) →
  let key := accountId (account later) in
  let h := ws_constructed s in
  let started := (startGateway later s).2 in
  (abort_listener earlier started).1 = Normal ()
  ∧ wsClientCache (abort_listener earlier started).2 !! key = None
  ∧ effects (abort_listener earlier started).2 =
      effects started
      ++ match logger earlier with
         | Some lg => [info lg (js "received abort signal, stopping gateway")]
         | None => []
         end
      ++ match (ws_members h).1, (ws_members h).2 with
         | Some _, _ => [WsCloseCalled h]
         | None, Some _ => [WsStopCalled h]
         | None, None => []
         end
      ++ [RegistryDelete key].
Proof.
  cbv zeta. intros Same. rewrite abort_listener_run, Same.
  split; [apply stopGateway_returns|]. split.
  - rewrite stopGateway_registry. apply lookup_delete_eq.
  - rewrite stopGateway_effects. unfold closing.
    destruct (logger earlier) as [lg|]; world;
      rewrite startGateway_registry, lookup_insert_eq, <- ?app_assoc;
      reflexivity.
Qed.

(** X5.  Starting, stopping and aborting a connection leave the dedupe
    mapping, the pending dispatches, the client cache and the clock
    untouched: a reconnect does not reset the dedupe window, an id seen
    before it is still a duplicate after it. *)
Theorem lifecycle_keeps_message_state (options : GatewayOptions)
    (key : jsstring) (s : World) :
  let keeps (s' : World) :=
    processedMessages s' = processedMessages s
    ∧ immediates s' = immediates s
    ∧ clientCache s' = clientCache s
    ∧ clock_reads s' = clock_reads s in
  keeps (startGateway options s).2
  ∧ keeps (stopGateway key s).2
  ∧ keeps (abort_listener options s).2
  ∧ ∀ messageId : jsstring,
      is_Some (processedMessages s !! messageId) →
      (isDuplicateMessage messageId (startGateway options s).2).1
      = Normal true.
Proof.
  cbv zeta.
  destruct (startGateway_frame options s) as (P1 & C1 & R1 & _ & I1).
  destruct (stopGateway_frame key s) as (P2 & C2 & R2 & _ & I2).
  split; [done|]. split; [done|]. split.
  - rewrite abort_listener_run.
    destruct (stopGateway_frame (accountId (account options))
                (logged
                   ((λ lg, info lg (js "received abort signal, stopping gateway"))
                      <$> logger options) s))
      as (P3 & C3 & R3 & _ & I3).
    rewrite P3, C3, R3, I3. by destruct (logger options).
  - intros messageId Seen. rewrite isDuplicateMessage_seen; [done|].
    by rewrite P1.
Qed.

Lemma registry_sound_delete (key : jsstring) (s s' : World) :
  wsClientCache s' = delete key (wsClientCache s) →
  ws_constructed s' = ws_constructed s →
  registry_sound s → registry_sound s'.
Proof.
  intros Registry Built Sound k1 c1 In1. rewrite Registry in In1.
  apply lookup_delete_Some in In1 as [Ne1 In1].
  destruct (Sound k1 c1 In1) as [Below Unique]. rewrite Built.
  split; [done|]. intros k2 c2 In2. rewrite Registry in In2.
  apply lookup_delete_Some in In2 as [Ne2 In2]. by apply (Unique k2 c2).
Qed.

(** X6.  In the world before any call every registered client is one the
    SDK built earlier and no client is registered under two account ids;
    [startGateway], [stopGateway] and the inbound handler keep it so.
    Hence two accounts never share a connection handle. *)
Theorem registry_stays_sound (options : GatewayOptions) (key : jsstring)
    (data : Lark.ReceiveEvent) (s : World) :
  registry_sound empty_world
  ∧ (registry_sound s →
     registry_sound (startGateway options s).2
     ∧ registry_sound (stopGateway key s).2
     ∧ registry_sound (on_message_receive options data s).2).
Proof.
  split; [intros k1 c1 In; by destruct (lookup_empty_Some (M:=gmap jsstring) k1 c1)|].
  intros Sound. split; [|split].
  - destruct (startGateway_frame options s) as (_ & _ & _ & Built & _).
    intros k1 c1 In1. rewrite startGateway_registry in In1. rewrite Built.
    assert (∀ k c, wsClientCache s !! k = Some c →
                   Lark.handle c ≠ ws_constructed s) as Older.
    { intros k c In. destruct (Sound k c In) as [Below _]. lia. }
    destruct (decide (accountId (account options) = k1)) as [<-|Ne1].
    + rewrite lookup_insert_eq in In1. injection In1 as <-.
      cbn [built_client Lark.handle]. split; [lia|].
      intros k2 c2 In2 Same. rewrite startGateway_registry in In2.
      destruct (decide (accountId (account options) = k2)) as [<-|Ne2];
        [done|].
      rewrite lookup_insert_ne in In2 by done.
      by destruct (Older k2 c2 In2).
    + rewrite lookup_insert_ne in In1 by done.
      destruct (Sound k1 c1 In1) as [Below Unique]. split; [lia|].
      intros k2 c2 In2 Same. rewrite startGateway_registry in In2.
      destruct (decide (accountId (account options) = k2)) as [<-|Ne2].
      * rewrite lookup_insert_eq in In2. injection In2 as <-.
        cbn [built_client Lark.handle] in Same.
        by destruct (Older k1 c1 In1).
      * rewrite lookup_insert_ne in In2 by done. by apply (Unique k2 c2).
  - destruct (stopGateway_frame key s) as (_ & _ & _ & Built & _).
    by apply (registry_sound_delete key s); [apply stopGateway_registry|..].
  - assert (wsClientCache (on_message_receive options data s).2
            = wsClientCache s
            ∧ ws_constructed (on_message_receive options data s).2
              = ws_constructed s) as [Registry Built].
    { destruct (Lark.message data) as [message|] eqn:E;
        [|by rewrite on_message_receive_no_message].
      destruct (processedMessages s !! or_empty (Lark.message_id message))
        as [t|] eqn:Seen; [by erewrite on_message_receive_duplicate|].
      erewrite on_message_receive_fresh by done. cbn [snd].
      unfold admitted_or_expired, recorded.
      destruct (expired_at _ _), (logger options), (reads_clock _),
        (bool_decide _); by world. }
    intros k1 c1 In1. rewrite Registry in In1. rewrite Built.
    destruct (Sound k1 c1 In1) as [Below Unique]. split; [done|].
    intros k2 c2 In2. rewrite Registry in In2. by apply (Unique k2 c2).
Qed.

(** *** The dedupe mapping over time *)

Lemma on_message_receive_processed (options : GatewayOptions)
    (data : Lark.ReceiveEvent) (s : World) :
  (on_message_receive options data s).2 = s
  ∨ ∃ message : Lark.RawMessage,
      Lark.message data = Some message
      ∧ processedMessages s !! or_empty (Lark.message_id message) = None
      ∧ processedMessages (on_message_receive options data s).2
        = processedMessages (recorded (or_empty (Lark.message_id message)) s)
      ∧ clock_reads (recorded (or_empty (Lark.message_id message)) s)
        ≤ clock_reads (on_message_receive options data s).2.
Proof.
  destruct (Lark.message data) as [message|] eqn:E;
    [|left; by rewrite on_message_receive_no_message].
  destruct (processedMessages s !! or_empty (Lark.message_id message))
    as [t|] eqn:Seen; [left; by erewrite on_message_receive_duplicate|].
  right. exists message. erewrite on_message_receive_fresh by done.
  cbn [snd]. rewrite admitted_or_expired_processed.
  split; [done|]. split; [done|]. split; [done|].
  apply admitted_or_expired_clock_reads.
Qed.

(** X7.  The handler never changes the timestamp of an id it has seen:
    a redelivery does not extend the dedupe window.  An entry leaves the
    mapping only in a sweep, that is when the mapping already held 100
    ids and the entry is more than 60 seconds older than the reading of
    the sweep.  The only entry the handler adds is the id of the event,
    with the clock reading the dedupe check took. *)
Theorem first_seen_timestamp_is_never_refreshed (options : GatewayOptions)
    (data : Lark.ReceiveEvent) (s : World) :
  let s' := (on_message_receive options data s).2 in
  (∀ (k : jsstring) (t : Z),
     processedMessages s !! k = Some t →
     processedMessages s' !! k = Some t
     ∨ (processedMessages s' !! k = None
        ∧ 100 ≤ size (processedMessages s)
        ∧ (clock (S (clock_reads s)) - t > 60 * 1000)%Z))
  ∧ (∀ (k : jsstring) (t : Z),
       processedMessages s' !! k = Some t →
       processedMessages s !! k = Some t
       ∨ (∃ message : Lark.RawMessage,
            Lark.message data = Some message
            ∧ k = or_empty (Lark.message_id message)
            ∧ t = clock (clock_reads s))).
Proof.
  cbv zeta. change (60 * 1000)%Z with MESSAGE_DEDUPE_TTL_MS.
  destruct (on_message_receive_processed options data s)
    as [->|(message & E & Fresh & -> & _)]; [split; auto|].
  unfold recorded. world.
  rewrite map_size_insert_None by done.
  split; intros k t In.
  - assert (or_empty (Lark.message_id message) ≠ k) as Ne by congruence.
    destruct (decide (size (processedMessages s) < 100)) as [Small|Large].
    + rewrite bool_decide_eq_false_2 by lia. world.
      left. by rewrite lookup_insert_ne.
    + rewrite bool_decide_eq_true_2 by lia. world. rewrite sweep_lookup.
      rewrite lookup_insert_ne, In by done.
      destruct (decide (clock (S (clock_reads s)) - t
                        > MESSAGE_DEDUPE_TTL_MS)%Z) as [Old|Young].
      * rewrite bool_decide_eq_true_2 by done. right.
        split; [done|]. split; [lia|done].
      * rewrite bool_decide_eq_false_2 by done. by left.
  - assert (<[or_empty (Lark.message_id message) := clock (clock_reads s)]>
              (processedMessages s) !! k = Some t) as Inserted.
    { destruct (bool_decide _); world; [|done].
      by apply sweep_lookup_Some in In as [? _]. }
    apply lookup_insert_Some in Inserted as [[<- <-]|[_ Old]]; [|by left].
    right. by exists message.
Qed.

Lemma window_bounded_step (options : GatewayOptions)
    (data : Lark.ReceiveEvent) (s : World) :
  monotone_clock →
  window_bounded s → window_bounded (on_message_receive options data s).2.
Proof.
  intros Mono (Readings & Bounded).
  destruct (on_message_receive_processed options data s)
    as [->|(message & E & Fresh & Processed & Reads)]; [done|].
  unfold window_bounded. rewrite Processed.
  set (id := or_empty (Lark.message_id message)) in *.
  assert (∀ (k : jsstring) (t : Z),
            <[id := clock (clock_reads s)]> (processedMessages s) !! k
            = Some t →
            ∃ i : nat, i ≤ clock_reads s ∧ t = clock i) as Inserted.
  { intros k t [[_ <-]|[_ Old]]%lookup_insert_Some; [by eexists|].
    destruct (Readings k t Old) as (i & Earlier & ->).
    exists i. split; [lia|done]. }
  revert Reads. unfold recorded. world.
  destruct (decide (size (<[id := clock (clock_reads s)]>
                            (processedMessages s)) > 100)) as [Large|Small].
  - rewrite bool_decide_eq_true_2 by done. world. intros Reads. split.
    + intros k t [In _]%sweep_lookup_Some.
      destruct (Inserted k t In) as (i & Earlier & ->).
      exists i. split; [lia|done].
    + right. intros k1 t1 k2 t2 [In1 _]%sweep_lookup_Some
        [_ Young]%sweep_lookup_Some.
      destruct (Inserted k1 t1 In1) as (i & Earlier & ->).
      assert (i ≤ S (clock_reads s)) as Le by lia.
      apply Mono in Le. lia.
  - rewrite bool_decide_eq_false_2 by done. world. intros Reads. split.
    + intros k t In. destruct (Inserted k t In) as (i & Earlier & ->).
      exists i. split; [lia|done].
    + left. lia.
Qed.

(** X8.  Bounded window of the dedupe mapping.  With a clock that never
    goes backwards, from the empty mapping and after any run of events:
    every timestamp in the mapping is a clock reading already taken, and
    whenever the mapping holds more than 100 ids, no two of them were
    first seen more than 60 seconds apart.  So ids older than 60 seconds
    before the newest one do not stay beyond the threshold. *)
Theorem dedupe_mapping_spans_at_most_the_ttl (options : GatewayOptions)
    (events : list Lark.ReceiveEvent) (s : World) :
  monotone_clock →
  window_bounded empty_world
  ∧ (window_bounded s →
     window_bounded (for_of events (on_message_receive options) s).2).
Proof.
  intros Mono. split.
  { split; [intros k t In; by destruct (lookup_empty_Some (M:=gmap jsstring) k t)|].
    left. unfold empty_world. cbn [processedMessages].
    rewrite map_size_empty. lia. }
  revert s. induction events as [|data rest IH]; intros s Bounded; [done|].
  rewrite for_of_on_message_receive_cons. by apply IH, window_bounded_step.
Qed.

(** *** Reading the creation time *)

Lemma digit_code (d : N) :
  (d < 10)%N →
  digit_value (0x30 + d) = Some (Z.of_N d)
  ∧ is_StrWhiteSpaceChar (0x30 + d) = false
  ∧ ((0x30 + d =? 0x2D) = false)%N
  ∧ ((0x30 + d =? 0x2B) = false)%N.
Proof.
  intros Digit.
  assert (d = 0 ∨ d = 1 ∨ d = 2 ∨ d = 3 ∨ d = 4 ∨ d = 5 ∨ d = 6 ∨ d = 7
          ∨ d = 8 ∨ d = 9)%N as Cases by lia.
  repeat destruct Cases as [->|Cases]; try subst d; by vm_compute.
Qed.

Lemma leading_digits_app (ds : list N) (rest : jsstring) (acc : option Z) :
  Forall (λ d, (d < 10)%N) ds →
  leading_digits acc (map (N.add 0x30) ds ++ rest)
  = leading_digits
      (if bool_decide (ds = []) then acc
       else Some (fold_left (λ a d, (10 * a + Z.of_N d)%Z) ds (default 0%Z acc)))
      rest.
Proof.
  intros Digits. revert acc.
  induction Digits as [|d ds Digit _ IH]; intros acc; [done|].
  cbn [map app leading_digits].
  destruct (digit_code d Digit) as (-> & _). rewrite IH.
  rewrite (bool_decide_eq_false_2 (d :: ds = [])) by done.
  destruct ds as [|d' ds']; reflexivity.
Qed.

Lemma digits_value_Z (ds : list N) (a : N) :
  Z.of_N (fold_left (λ acc d, (10 * acc + d)%N) ds a)
  = fold_left (λ acc d, (10 * acc + Z.of_N d)%Z) ds (Z.of_N a).
Proof.
  revert a. induction ds as [|d ds IH]; intros a; [done|].
  cbn [fold_left]. rewrite IH. f_equal. lia.
Qed.

Lemma trim_start_spaces (spaces rest : jsstring) :
  Forall (λ c, is_StrWhiteSpaceChar c = true) spaces →
  trim_start (spaces ++ rest) = trim_start rest.
Proof.
  induction 1 as [|c spaces Space _ IH]; [done|].
  cbn [app trim_start]. by rewrite Space.
Qed.

Lemma leading_digits_started (a : Z) (s : jsstring) :
  is_Some (leading_digits (Some a) s).
Proof.
  revert a. induction s as [|c r IH]; intros a; [by eexists|].
  cbn [leading_digits]. destruct (digit_value c); [apply IH|by eexists].
Qed.

(** What [parseInt] reads from optional white space, decimal digits, and
    a rest that does not go on with a digit. *)
Lemma parseInt_digits (spaces : jsstring) (ds : list N) (rest : jsstring) :
  Forall (λ c, is_StrWhiteSpaceChar c = true) spaces →
  Forall (λ d, (d < 10)%N) ds →
  ds ≠ [] →
  leading_digits None rest = None →
  parseInt (spaces ++ map (N.add 0x30) ds ++ rest)
  = Some (Z.of_N (digits_value ds)).
Proof.
  intros Spaces Digits NonEmpty Rest. unfold parseInt.
  rewrite trim_start_spaces by done.
  destruct ds as [|d ds]; [done|].
  apply Forall_cons in Digits as [Digit Digits].
  destruct (digit_code d Digit) as (Value & NoSpace & NoMinus & NoPlus).
  cbn [map app trim_start]. rewrite NoSpace, NoMinus, NoPlus.
  cbn [leading_digits]. rewrite Value, leading_digits_app by done.
  assert (∀ v, leading_digits (Some v) rest = Some v) as Stop.
  { intros v. destruct rest as [|c r]; [done|].
    cbn [leading_digits] in *. destruct (digit_value c) as [d'|]; [|done].
    destruct (leading_digits_started (10 * default 0 None + d')%Z r)
      as [? Started]. congruence. }
  unfold digits_value. cbn [fold_left default].
  destruct (bool_decide (ds = [])) eqn:Last.
  - apply bool_decide_eq_true in Last as ->. rewrite Stop.
    cbn [fmap option_fmap option_map fold_left]. f_equal; lia.
  - rewrite Stop. cbn [fmap option_fmap option_map]. f_equal.
    rewrite digits_value_Z. rewrite Z.mul_1_l. f_equal; lia.
Qed.

(** X9.  A creation time written as decimal digits is read as that
    number, also with white space before it and with anything after it
    that does not start with a digit: the staleness check then answers
    whether the clock reading exceeds that number by more than 30
    minutes, and takes one clock reading. *)
Theorem isMessageExpired_reads_decimal_digits (spaces : jsstring)
    (ds : list N) (rest : jsstring) (s : World) :
  Forall (λ c, is_StrWhiteSpaceChar c = true) spaces →
  Forall (λ d, (d < 10)%N) ds →
  ds ≠ [] →
  leading_digits None rest = None →
  isMessageExpired (Some (spaces ++ map (N.add 0x30) ds ++ rest)) s
  = (Normal (bool_decide (clock (clock_reads s) - Z.of_N (digits_value ds)
                          > 30 * 60 * 1000)%Z),
     set_clock_reads S s).
Proof.
  intros Spaces Digits NonEmpty Rest.
  pose proof (parseInt_digits spaces ds rest Spaces Digits NonEmpty Rest)
    as Read.
  rewrite isMessageExpired_run. unfold expired_at, reads_clock.
  destruct (spaces ++ map (N.add 0x30) ds ++ rest) as [|c r] eqn:Text.
  { apply app_eq_nil in Text as [_ Text].
    apply app_eq_nil in Text as [Text _]. by destruct ds. }
  rewrite Read.
  rewrite (bool_decide_eq_true_2 (is_Some (Some (Z.of_N (digits_value ds)))))
    by (by eexists).
  reflexivity.
Qed.

(** *** The API client *)

(** X10.  One client per application id.  When a client is cached for
    the application id of the account or [new lark.Client] returns one,
    the client returned is cached under the application id alone: any
    later call for an account with that application id gets the same
    client and changes nothing, also when the secret differs, so the
    secret of the first account stays in use; clients cached for other
    application ids are left alone.  When none is cached and
    [new lark.Client] throws, [getFeishuClient] throws that error and
    caches nothing.  In both cases the rest of the world is untouched. *)
Theorem getFeishuClient_caches_by_appId (first later : ResolvedFeishuAccount)
    (s : World) :
  appId first = appId later →
  let client := client_of first s in
  let s1 := (getFeishuClient first s).2 in
  (client_available first s →
   (getFeishuClient first s).1 = Normal client
   ∧ getFeishuClient later s1 = (Normal client, s1)
   ∧ (clientCache s !! appId first = None →
      Lark.client_appId client = appId first
      ∧ Lark.client_appSecret client = appSecret first)
   ∧ (∀ other : jsstring,
        other ≠ appId first →
        clientCache s1 !! other = clientCache s !! other))
  ∧ (∀ e : JsThrown,
       client_refused first s e → getFeishuClient first s = (Throw e, s))
  ∧ effects s1 = effects s
  ∧ wsClientCache s1 = wsClientCache s
  ∧ processedMessages s1 = processedMessages s.
Proof.
  intros Same. cbv zeta.
  destruct (getFeishuClient_frame first s) as (E & P & W & _).
  split; [|split; [apply getFeishuClient_refused|done]].
  intros Available.
  pose proof (getFeishuClient_cached first s Available) as Cached.
  split; [by rewrite getFeishuClient_run|]. split.
  { rewrite (getFeishuClient_run later).
    - unfold client_of at 1. by rewrite <- Same, Cached.
    - left. rewrite <- Same, Cached. by eexists. }
  split.
  { intros Absent. unfold client_of. by rewrite Absent. }
  intros other Other. rewrite getFeishuClient_run by done.
  destruct (clientCache s !! appId first); cbn [snd]; [done|]. world.
  by apply lookup_insert_ne.
Qed.

(** X11.  A send is one request and nothing else.  When a client is
    cached for the account or can be built, [sendTextMessage] makes
    exactly one [message.create] call, addressed by [chat_id] to the
    conversation given, of type [text], carrying the text, and
    [replyTextMessage] makes exactly one [message.reply] call for the
    message id given; whatever the platform answers, neither retries,
    and neither touches the registry, the dedupe mapping or the pending
    dispatches; the only other change is the client cached for the
    application id.  When no client is cached and [new lark.Client]
    throws, both throw that error, make no request and change nothing. *)
Theorem send_is_a_single_request (acct : ResolvedFeishuAccount)
    (id body : jsstring) (s : World) :
  let cached := (getFeishuClient acct s).2 in
  let sent := (sendTextMessage acct id body s).2 in
  let replied := (replyTextMessage acct id body s).2 in
  (client_available acct s →
   effects sent =
     effects s
     ++ [MessageCreate (client_of acct s)
           {| Lark.receive_id_type := js "chat_id";
              Lark.receive_id := id;
              Lark.create_msg_type := js "text";
              Lark.create_text := body |}]
   ∧ effects replied =
       effects s
       ++ [MessageReply (client_of acct s)
             {| Lark.path_message_id := id;
                Lark.reply_msg_type := js "text";
                Lark.reply_text := body |}]
   ∧ sent = set_effects (λ _, effects sent) cached
   ∧ replied = set_effects (λ _, effects replied) cached
   ∧ clientCache cached !! appId acct = Some (client_of acct s)
   ∧ wsClientCache cached = wsClientCache s
   ∧ processedMessages cached = processedMessages s
   ∧ immediates cached = immediates s)
  ∧ (∀ e : JsThrown,
       client_refused acct s e →
       sendTextMessage acct id body s = (Throw e, s)
       ∧ replyTextMessage acct id body s = (Throw e, s)).
Proof.
  cbv zeta. split.
  - intros Available.
    rewrite sendTextMessage_world, replyTextMessage_world by done.
    destruct (getFeishuClient_frame acct s) as (E & P & W & I & _).
    cbn [snd]. world. rewrite E.
    split; [done|]. split; [done|].
    split; [unfold set_effects; by rewrite E|].
    split; [unfold set_effects; by rewrite E|].
    split; [by apply getFeishuClient_cached|done].
  - intros e Refused.
    by rewrite (sendTextMessage_refused _ _ _ _ e),
               (replyTextMessage_refused _ _ _ _ e).
Qed.

(** *** Replies *)

Lemma client_available_cached (acct : ResolvedFeishuAccount) (s s' : World) :
  client_available acct s →
  clientCache s' !! appId acct = Some (client_of acct s) →
  client_available acct s' ∧ client_of acct s' = client_of acct s.
Proof.
  intros _ Cached. split; [left; by eexists|].
  unfold client_of at 1. by rewrite Cached.
Qed.

Lemma client_after_send (acct : ResolvedFeishuAccount)
    (target body : jsstring) (s : World) :
  client_available acct s →
  client_available acct (sendTextMessage acct target body s).2
  ∧ client_of acct (sendTextMessage acct target body s).2 = client_of acct s.
Proof.
  intros Available. apply client_available_cached; [done|].
  rewrite sendTextMessage_world by done. cbn [snd]. world.
  by apply getFeishuClient_cached.
Qed.

Lemma deliver_run (acct : ResolvedFeishuAccount) (message : FeishuMessage)
    (payload : Lark.ReplyPayload) (s : World) :
  client_available acct s →
  (deliver acct message payload s).1 = Normal ()
  ∧ effects (deliver acct message payload s).2
    = effects s
      ++ map (λ t, MessageCreate (client_of acct s)
                     (create_request (chatId message) t))
             (reply_texts [payload])
  ∧ client_available acct (deliver acct message payload s).2
  ∧ client_of acct (deliver acct message payload s).2 = client_of acct s.
Proof.
  intros Available.
  unfold deliver, reply_texts. cbn [map]. rewrite filter_cons, filter_nil.
  destruct (decide (default [] (Lark.payload_text payload) ≠ [])) as [Text|No].
  - rewrite bool_decide_eq_true_2 by done. unfold mbind, M_bind.
    pose proof (client_after_send acct (chatId message)
                  (default [] (Lark.payload_text payload)) s Available)
      as Same.
    rewrite sendTextMessage_world in * by done. cbn [fst snd] in *.
    destruct (getFeishuClient_frame acct s) as (E & _).
    unfold mret, M_ret. cbn [fst snd map].
    split; [done|]. split; [|done]. world. by rewrite E.
  - rewrite bool_decide_eq_false_2 by done. cbn [fst snd map].
    by rewrite app_nil_r.
Qed.

Lemma for_of_deliver_run (acct : ResolvedFeishuAccount)
    (message : FeishuMessage) (payloads : list Lark.ReplyPayload)
    (s : World) :
  client_available acct s →
  (for_of payloads (deliver acct message) s).1 = Normal ()
  ∧ effects (for_of payloads (deliver acct message) s).2
    = effects s
      ++ map (λ t, MessageCreate (client_of acct s)
                     (create_request (chatId message) t))
             (reply_texts payloads).
Proof.
  revert s. induction payloads as [|payload rest IH]; intros s Available.
  - cbn. by rewrite app_nil_r.
  - cbn [for_of]. unfold mbind, M_bind.
    destruct (deliver_run acct message payload s Available)
      as (Returned & First & Still & Same).
    destruct (deliver acct message payload s) as [[[]|e] s1];
      cbn [fst snd] in *; [|done].
    destruct (IH s1 Still) as (Returned' & Then). split; [done|].
    rewrite Then, First, Same, <- app_assoc, <- map_app. f_equal. f_equal.
    unfold reply_texts. cbn [map]. rewrite (filter_cons _ _ (map _ rest)).
    rewrite filter_cons, filter_nil. by case_decide.
Qed.

Lemma for_of_deliver_refused (acct : ResolvedFeishuAccount)
    (message : FeishuMessage) (payloads : list Lark.ReplyPayload)
    (s : World) (e : JsThrown) :
  client_refused acct s e →
  for_of payloads (deliver acct message) s
  = (match reply_texts payloads with [] => Normal () | _ :: _ => Throw e end,
     s).
Proof.
  intros Refused. induction payloads as [|payload rest IH]; [done|].
  cbn [for_of]. unfold mbind, M_bind. unfold deliver at 1.
  unfold reply_texts in *. cbn [map]. rewrite filter_cons.
  destruct (decide (default [] (Lark.payload_text payload) ≠ [])) as [Text|No].
  - rewrite bool_decide_eq_true_2 by done. unfold mbind, M_bind.
    by rewrite (sendTextMessage_refused _ _ _ _ e).
  - rewrite bool_decide_eq_false_2 by done. exact IH.
Qed.

(** X12.  The replies of the dispatcher are sent to the conversation the
    message came from.  When a client is cached for the account or can
    be built: one [message.create] request for each payload whose text
    is present and not empty, in the order of the payloads; payloads
    without text are skipped; a send the platform refuses or that fails
    does not stop the later ones, and the delivery does not throw.  When
    no client is cached and [new lark.Client] throws: [deliver] sends
    nothing, changes nothing, and throws that error for every payload
    with a text. *)
Theorem deliver_sends_each_reply_in_order (acct : ResolvedFeishuAccount)
    (message : FeishuMessage) (payloads : list Lark.ReplyPayload)
    (s : World) :
  let texts :=
    filter (λ t, t ≠ [])
      (map (λ p, default [] (Lark.payload_text p)) payloads) in
  (client_available acct s →
   (for_of payloads (deliver acct message) s).1 = Normal ()
   ∧ effects (for_of payloads (deliver acct message) s).2 =
       effects s
       ++ map (λ t, MessageCreate (client_of acct s)
                      {| Lark.receive_id_type := js "chat_id";
                         Lark.receive_id := chatId message;
                         Lark.create_msg_type := js "text";
                         Lark.create_text := t |})
              texts)
  ∧ (∀ (e : JsThrown) (payload : Lark.ReplyPayload),
       client_refused acct s e →
       deliver acct message payload s
       = (if bool_decide (default [] (Lark.payload_text payload) ≠ [])
          then Throw e else Normal (),
          s)).
Proof.
  split; [apply for_of_deliver_run|].
  intros e payload Refused. unfold deliver.
  destruct (bool_decide _); [|done]. unfold mbind, M_bind.
  by rewrite (sendTextMessage_refused _ _ _ _ e).
Qed.

(** *** The configuration *)

Lemma last_binding_app (key : jsstring) (a b : list (jsstring * json)) :
  last_binding key (a ++ b)
  = match last_binding key b with
    | Some w => Some w
    | None => last_binding key a
    end.
Proof.
  induction a as [|[k v] a IH]; cbn [app last_binding].
  - by destruct (last_binding key b).
  - rewrite IH. by destruct (last_binding key b).
Qed.

Lemma last_binding_other (key k : jsstring) (v : json) :
  key ≠ k → last_binding key [(k, v)] = None.
Proof. intros Ne. cbn. by rewrite decide_False by done. Qed.

Lemma last_binding_same (key : jsstring) (v : json) :
  last_binding key [(key, v)] = Some v.
Proof. cbn. by rewrite decide_True. Qed.

Lemma uint_codes_head (u : Decimal.uint) :
  u ≠ Decimal.Nil →
  ∃ (c : N) (r : jsstring), uint_codes u = c :: r ∧ is_digit c = true.
Proof. destruct u; [done|..]; intros _; cbn; eauto. Qed.

Lemma revapp_not_Nil (u v : Decimal.uint) :
  v ≠ Decimal.Nil → Decimal.revapp u v ≠ Decimal.Nil.
Proof. revert v. induction u; intros v Ne; cbn; try done; by apply IHu. Qed.

Lemma to_little_uint_not_Nil (n : nat) (acc : Decimal.uint) :
  acc ≠ Decimal.Nil → Nat.to_little_uint n acc ≠ Decimal.Nil.
Proof.
  revert acc. induction n as [|n IH]; intros acc Ne; cbn; [done|].
  apply IH. by destruct acc.
Qed.

Lemma index_key_head (i : nat) :
  ∃ (c : N) (r : jsstring), index_key i = c :: r ∧ is_digit c = true.
Proof.
  apply uint_codes_head. unfold Nat.to_uint, Decimal.rev.
  pose proof (to_little_uint_not_Nil i Decimal.zero) as Ne.
  destruct (Nat.to_little_uint i Decimal.zero) as [|u|u|u|u|u|u|u|u|u|u];
    [by destruct Ne|..]; cbn; by apply revapp_not_Nil.
Qed.

(** A name that does not start with a digit is not among the indices a
    spread of an array or of a string writes. *)
Lemma last_binding_indices {A : Type} (key : jsstring) (f : A → json)
    (l : list A) (c : N) (r : jsstring) :
  key = c :: r → is_digit c = false →
  ∀ start : nat,
    last_binding key (imap (λ i x, (index_key (start + i), f x)) l) = None.
Proof.
  intros -> Letter. induction l as [|x l IH]; intros start; [done|].
  cbn [imap last_binding]. 
  rewrite <- (IH (S start)) at 1.
  assert (imap ((λ i x, (index_key (start + i), f x)) ∘ S) l
          = imap (λ i x, (index_key (S start + i), f x)) l) as ->.
  { apply imap_ext. intros i y _. cbn. by rewrite Nat.add_succ_r. }
  rewrite IH. rewrite decide_False; [done|].
  destruct (index_key_head (start + 0)) as (d & t & -> & Digit).
  intros [= -> _]. congruence.
Qed.

Lemma spread_member (o : option json) (key : jsstring) (c : N) (r : jsstring) :
  key = c :: r → is_digit c = false →
  last_binding key (spread o) = optional_member o key.
Proof.
  intros Key Letter. destruct o as [[| | | s | l | ms]|]; try done.
  - apply (last_binding_indices key (λ c, JString [c]) s c r Key Letter 0).
  - apply (last_binding_indices key (λ x, x) l c r Key Letter 0).
Qed.

Lemma optional_member_truthy (v : json) (key : jsstring) :
  ToBoolean v = true → optional_member (Some v) key = member v key.
Proof. by destruct v. Qed.

Lemma optional_member_falsy (o : option json) (key : jsstring) :
  truthy o = false → optional_member o key = None.
Proof. destruct o as [[| | | [|] | |]|]; done. Qed.

Lemma credential_member (cfg : Config) (feishuCfg : json) (name : jsstring) :
  getFeishuConfig cfg = Some feishuCfg → ToBoolean feishuCfg = true →
  credential cfg name = member feishuCfg name.
Proof.
  intros Section_ Truthy. unfold credential. rewrite Section_.
  by apply optional_member_truthy.
Qed.

Lemma credential_falsy (cfg : Config) (name : jsstring) :
  truthy (getFeishuConfig cfg) = false → credential cfg name = None.
Proof. apply optional_member_falsy. Qed.

(** X13.  Every account id [listFeishuAccountIds] lists is the default
    one, [resolveFeishuAccount] resolves it to an account of that id, and
    [isConfigured] accepts the account. *)
Theorem listed_accounts_resolve_and_are_configured (cfg : Config)
    (id : jsstring) :
  id ∈ listFeishuAccountIds cfg →
  id = DEFAULT_ACCOUNT_ID
  ∧ ∃ acct : ResolvedAccount,
      resolveFeishuAccount cfg id = Some acct
      ∧ resolved_accountId acct = id
      ∧ resolved_appId acct = credential cfg (js "appId")
      ∧ resolved_appSecret acct = credential cfg (js "appSecret")
      ∧ isConfigured acct = true.
Proof.
  unfold listFeishuAccountIds, resolveFeishuAccount, isConfigured.
  destruct (getFeishuConfig cfg) as [feishuCfg|] eqn:Section_;
    [|by intros ?%elem_of_nil].
  destruct (ToBoolean feishuCfg) eqn:Truthy; [|by intros ?%elem_of_nil].
  cbn [negb orb].
  destruct (is_false (member feishuCfg (js "enabled")));
    [by intros ?%elem_of_nil|].
  destruct (truthy (member feishuCfg (js "appId"))) eqn:Id;
    [|by intros ?%elem_of_nil].
  destruct (truthy (member feishuCfg (js "appSecret"))) eqn:Secret;
    [|by intros ?%elem_of_nil].
  cbn [negb orb]. intros ->%list_elem_of_singleton. split; [done|].
  rewrite bool_decide_eq_false_2 by (by intros []).
  eexists. split; [done|]. cbn [resolved_accountId resolved_appId
                                 resolved_appSecret].
  rewrite !(credential_member cfg feishuCfg) by done.
  by rewrite Id, Secret.
Qed.

(** X14.  The onboarding status reports [configured] exactly when the
    default account resolves to one [isConfigured] accepts, and the
    account is listed exactly when the status is [configured] and
    [enabled] is not [false]: an absent [enabled] counts as enabled. *)
Theorem status_and_listing_agree (cfg : Config) :
  (configured (getStatus cfg) = true
   ↔ ∃ acct : ResolvedAccount,
       resolveFeishuAccount cfg DEFAULT_ACCOUNT_ID = Some acct
       ∧ isConfigured acct = true)
  ∧ listFeishuAccountIds cfg
    = (if configured (getStatus cfg)
          && negb (is_false (credential cfg (js "enabled")))
       then [DEFAULT_ACCOUNT_ID] else []).
Proof.
  unfold getStatus, listFeishuAccountIds, resolveFeishuAccount, isConfigured.
  cbn [configured].
  rewrite bool_decide_eq_false_2 by (by intros []).
  fold (credential cfg (js "appId")) (credential cfg (js "appSecret")).
  destruct (getFeishuConfig cfg) as [feishuCfg|] eqn:Section_.
  - destruct (ToBoolean feishuCfg) eqn:Truthy; cbn [negb orb].
    + rewrite !(credential_member cfg feishuCfg) by done.
      split.
      * split.
        -- intros Both. eexists. split; [done|]. done.
        -- by intros (acct & [= <-] & Both).
      * destruct (is_false (member feishuCfg (js "enabled")));
          [by rewrite andb_false_r|].
        destruct (truthy (member feishuCfg (js "appId")));
          [|done].
        by destruct (truthy (member feishuCfg (js "appSecret"))).
    + rewrite !credential_falsy by (by rewrite Section_).
      split; [|done]. split; [done|]. by intros (acct & [=] & _).
  - rewrite !credential_falsy by (by rewrite Section_).
    split; [|done]. split; [done|]. by intros (acct & [=] & _).
Qed.

Lemma disable_section (cfg : Config) :
  getFeishuConfig (disable cfg)
  = Some (JObject (spread (getFeishuConfig cfg)
                   ++ [(js "enabled", JBool false)])).
Proof.
  unfold getFeishuConfig at 1. unfold disable. cbn [member].
  rewrite last_binding_app, last_binding_same. cbn [optional_member member].
  by rewrite last_binding_app, last_binding_same.
Qed.

Lemma letter_key (key : jsstring) (c : N) (r : jsstring) (other : jsstring)
    (v : json) (o : option json) :
  key = c :: r → is_digit c = false → key ≠ other →
  last_binding key (spread o ++ [(other, v)]) = optional_member o key.
Proof.
  intros Key Letter Ne. rewrite last_binding_app, last_binding_other by done.
  by apply (spread_member o key c r).
Qed.

Lemma disable_credentials (cfg : Config) :
  credential (disable cfg) (js "enabled") = Some (JBool false)
  ∧ credential (disable cfg) (js "appId") = credential cfg (js "appId")
  ∧ credential (disable cfg) (js "appSecret") = credential cfg (js "appSecret").
Proof.
  assert (∀ (name : jsstring) (c : N) (r : jsstring),
            name = c :: r → is_digit c = false → name ≠ js "enabled" →
            credential (disable cfg) name = credential cfg name) as Kept.
  { intros name c r Name Letter Ne. unfold credential at 1.
    rewrite disable_section. cbn [optional_member member].
    by apply (letter_key name c r). }
  split; [|split].
  - unfold credential. rewrite disable_section. cbn [optional_member member].
    by rewrite last_binding_app, last_binding_same.
  - by apply (Kept (js "appId") _ _ eq_refl eq_refl).
  - by apply (Kept (js "appSecret") _ _ eq_refl eq_refl).
Qed.

(** X15.  [disable] takes the account off the list whatever the
    configuration held, and changes nothing else: the credentials, the
    onboarding status, the other channels and the other settings are
    those of before.  The default account resolves afterwards also
    when there was no Feishu configuration before. *)
Theorem disable_unlists_and_keeps_the_rest (cfg : Config) :
  listFeishuAccountIds (disable cfg) = []
  ∧ credential (disable cfg) (js "enabled") = Some (JBool false)
  ∧ credential (disable cfg) (js "appId") = credential cfg (js "appId")
  ∧ credential (disable cfg) (js "appSecret") = credential cfg (js "appSecret")
  ∧ configured (getStatus (disable cfg)) = configured (getStatus cfg)
  ∧ resolveFeishuAccount (disable cfg) DEFAULT_ACCOUNT_ID
    = Some {| resolved_accountId := DEFAULT_ACCOUNT_ID;
              resolved_appId := credential cfg (js "appId");
              resolved_appSecret := credential cfg (js "appSecret") |}
  ∧ (∀ key : jsstring,
       key ≠ js "channels" →
       member (JObject (disable cfg)) key = member (JObject cfg) key)
  ∧ (∀ key : jsstring,
       key ≠ js "feishu" →
       optional_member (member (JObject (disable cfg)) (js "channels")) key
       = last_binding key (spread (member (JObject cfg) (js "channels")))).
Proof.
  destruct (disable_credentials cfg) as (Enabled & Id & Secret).
  rewrite Id, Secret.
  split; [|split; [done|]; split; [done|]; split; [done|]; split;
            [|split; [|split]]].
  - unfold listFeishuAccountIds. rewrite disable_section. cbn [ToBoolean negb orb].
    unfold credential in Enabled. rewrite disable_section in Enabled.
    cbn [optional_member] in Enabled. by rewrite Enabled.
  - unfold getStatus. cbn [configured].
    fold (credential (disable cfg) (js "appId"))
         (credential (disable cfg) (js "appSecret"))
         (credential cfg (js "appId")) (credential cfg (js "appSecret")).
    by rewrite Id, Secret.
  - unfold resolveFeishuAccount.
    rewrite bool_decide_eq_false_2 by (by intros []).
    unfold credential in Id, Secret. rewrite disable_section in *.
    cbn [ToBoolean negb optional_member] in *. by rewrite Id, Secret.
  - intros key Ne. unfold disable. cbn [member].
    by rewrite last_binding_app, last_binding_other.
  - intros key Ne. unfold disable. cbn [member].
    rewrite last_binding_app, last_binding_same. cbn [optional_member member].
    by rewrite last_binding_app, last_binding_other.
Qed.

Lemma listFeishuAccountIds_credentials (cfg : Config) :
  listFeishuAccountIds cfg
  = (if truthy (credential cfg (js "appId"))
        && truthy (credential cfg (js "appSecret"))
        && negb (is_false (credential cfg (js "enabled")))
     then [DEFAULT_ACCOUNT_ID] else []).
Proof.
  unfold listFeishuAccountIds.
  destruct (getFeishuConfig cfg) as [feishuCfg|] eqn:Section_.
  - destruct (ToBoolean feishuCfg) eqn:Truthy; cbn [negb orb].
    + rewrite !(credential_member cfg feishuCfg) by done.
      destruct (is_false (member feishuCfg (js "enabled")));
        [by rewrite andb_false_r|].
      destruct (truthy (member feishuCfg (js "appId"))); [|done].
      by destruct (truthy (member feishuCfg (js "appSecret"))).
    + by rewrite !credential_falsy by (by rewrite Section_).
  - by rewrite !credential_falsy by (by rewrite Section_).
Qed.

Lemma configure_unfold (cfg : Config) (prompter : Prompter) :
  configure cfg prompter
  = and_then (note prompter) (λ _,
    and_then
      (and_then
         (if truthy (credential cfg (js "appId"))
          then slice_0_8 (credential cfg (js "appId")) else Normal ())
         (λ _, asked (truthy (credential cfg (js "appId")))
                 (confirm_appId prompter) (text_appId prompter)))
      (λ appId,
    and_then
      (asked (truthy (credential cfg (js "appSecret")))
         (confirm_appSecret prompter) (text_appSecret prompter))
      (λ appSecret,
    Normal
      (cfg
       ++ [(js "channels",
            JObject
              (spread (member (JObject cfg) (js "channels"))
               ++ [(js "feishu",
                    JObject
                      (spread (getFeishuConfig cfg)
                       ++ [(js "enabled", JBool true)]
                       ++ written (js "appId") appId
                       ++ written (js "appSecret") appSecret))]))],
       DEFAULT_ACCOUNT_ID)))).
Proof.
  unfold configure, credential, asked.
  destruct (note prompter); [|done]. cbn [and_then].
  destruct (truthy (optional_member (getFeishuConfig cfg) (js "appId")));
    destruct (truthy (optional_member (getFeishuConfig cfg) (js "appSecret")));
    try done.
  all: by destruct (slice_0_8 _).
Qed.

Lemma asked_entered (current : option json) (confirm : Completion bool)
    (typed : Completion jsstring) (value : option jsstring) :
  asked (truthy current) confirm typed = Normal value →
  match value with
  | Some (c :: r) => Some (JString (c :: r))
  | _ => current
  end = entered current confirm typed.
Proof.
  unfold asked, entered.
  destruct (truthy current), confirm as [[|]|], typed as [t|];
    cbn; intros [= <-]; try done; by destruct (trim t).
Qed.

Lemma configured_section (old : option json) (appId appSecret : option jsstring) :
  let feishuCfg :=
    JObject (spread old ++ [(js "enabled", JBool true)]
             ++ written (js "appId") appId
             ++ written (js "appSecret") appSecret) in
  member feishuCfg (js "enabled") = Some (JBool true)
  ∧ member feishuCfg (js "appId")
    = match appId with
      | Some (c :: r) => Some (JString (c :: r))
      | _ => optional_member old (js "appId")
      end
  ∧ member feishuCfg (js "appSecret")
    = match appSecret with
      | Some (c :: r) => Some (JString (c :: r))
      | _ => optional_member old (js "appSecret")
      end.
Proof.
  cbn [member]. rewrite !last_binding_app.
  rewrite (spread_member old (js "appId") _ _ eq_refl eq_refl).
  rewrite (spread_member old (js "appSecret") _ _ eq_refl eq_refl).
  destruct appId as [[|c1 r1]|], appSecret as [[|c2 r2]|]; done.
Qed.

Lemma configure_result (cfg : Config)
    (prompter : Prompter) (next : Config) (id : jsstring) :
  configure cfg prompter = Normal (next, id) →
  id = DEFAULT_ACCOUNT_ID
  ∧ credential next (js "enabled") = Some (JBool true)
  ∧ credential next (js "appId")
    = entered (credential cfg (js "appId"))
        (confirm_appId prompter) (text_appId prompter)
  ∧ credential next (js "appSecret")
    = entered (credential cfg (js "appSecret"))
        (confirm_appSecret prompter) (text_appSecret prompter)
  ∧ (∀ key : jsstring,
       key ≠ js "channels" →
       member (JObject next) key = member (JObject cfg) key)
  ∧ (∀ key : jsstring,
       key ≠ js "feishu" →
       optional_member (member (JObject next) (js "channels")) key
       = last_binding key (spread (member (JObject cfg) (js "channels")))).
Proof.
  rewrite configure_unfold.
  destruct (note prompter); [|done]. cbn [and_then].
  destruct (if truthy (credential cfg (js "appId"))
            then slice_0_8 (credential cfg (js "appId")) else Normal ());
    [|done]. cbn [and_then].
  destruct (asked (truthy (credential cfg (js "appId"))) _ _)
    as [appId|] eqn:Id; [|done]. cbn [and_then].
  destruct (asked (truthy (credential cfg (js "appSecret"))) _ _)
    as [appSecret|] eqn:Secret; [|done]. cbn [and_then].
  intros [= <- <-]. split; [done|].
  apply asked_entered in Id, Secret. rewrite <- Id, <- Secret.
  destruct (configured_section (getFeishuConfig cfg) appId appSecret)
    as (E1 & E2 & E3).
  assert (∀ name : jsstring,
            credential
              (cfg
               ++ [(js "channels",
                    JObject
                      (spread (member (JObject cfg) (js "channels"))
                       ++ [(js "feishu",
                            JObject
                              (spread (getFeishuConfig cfg)
                               ++ [(js "enabled", JBool true)]
                               ++ written (js "appId") appId
                               ++ written (js "appSecret") appSecret))]))])
              name
            = member
                (JObject
                   (spread (getFeishuConfig cfg)
                    ++ [(js "enabled", JBool true)]
                    ++ written (js "appId") appId
                    ++ written (js "appSecret") appSecret)) name) as Read.
  { intros name. unfold credential, getFeishuConfig at 1. cbn [member].
    rewrite last_binding_app, last_binding_same. cbn [optional_member member].
    by rewrite last_binding_app, last_binding_same. }
  rewrite !Read. split; [done|]. split; [done|]. split; [done|]. split.
  - intros key Ne. cbn [member].
    by rewrite last_binding_app, last_binding_other.
  - intros key Ne. cbn [member].
    rewrite last_binding_app, last_binding_same. cbn [optional_member member].
    by rewrite last_binding_app, last_binding_other.
Qed.

(** X16.  When the onboarding wizard returns, the channel is enabled
    under the default account id; each credential is the current one if
    it is kept or if only white space is typed, else what is typed with
    the white space at both ends removed; the other channels and the
    other settings are those of before. *)
Theorem configure_writes_what_was_entered (cfg : Config)
    (prompter : Prompter) (next : Config) (id : jsstring) :
  configure cfg prompter = Normal (next, id) →
  id = DEFAULT_ACCOUNT_ID
  ∧ credential next (js "enabled") = Some (JBool true)
  ∧ credential next (js "appId")
    = entered (credential cfg (js "appId"))
        (confirm_appId prompter) (text_appId prompter)
  ∧ credential next (js "appSecret")
    = entered (credential cfg (js "appSecret"))
        (confirm_appSecret prompter) (text_appSecret prompter)
  ∧ (∀ key : jsstring,
       key ≠ js "channels" →
       member (JObject next) key = member (JObject cfg) key)
  ∧ (∀ key : jsstring,
       key ≠ js "feishu" →
       optional_member (member (JObject next) (js "channels")) key
       = last_binding key (spread (member (JObject cfg) (js "channels")))).
Proof. apply configure_result. Qed.

Lemma configure_answered (cfg : Config) (prompter : Prompter) :
  answered prompter →
  (truthy (credential cfg (js "appId")) = true →
   ∃ s : jsstring, credential cfg (js "appId") = Some (JString s)) →
  ∃ next : Config, configure cfg prompter = Normal (next, DEFAULT_ACCOUNT_ID).
Proof.
  intros (Note & (k1 & Confirm1) & (t1 & Text1 & _)
          & (k2 & Confirm2) & (t2 & Text2 & _)) Sliceable.
  rewrite configure_unfold, Note. cbn [and_then]. unfold asked.
  rewrite Confirm1, Confirm2, Text1, Text2.
  destruct (truthy (credential cfg (js "appId"))) eqn:Has.
  - destruct (Sliceable eq_refl) as (s & ->). cbn [slice_0_8 and_then].
    destruct k1, k2, (truthy (credential cfg (js "appSecret")));
      cbn [negb and_then]; by eexists.
  - destruct k2, (truthy (credential cfg (js "appSecret")));
      cbn [negb and_then]; by eexists.
Qed.

Lemma entered_answered (current : option json) (confirm : Completion bool)
    (typed : Completion jsstring) :
  (∃ keep : bool, confirm = Normal keep) →
  (∃ value : jsstring, typed = Normal value ∧ trim value ≠ []) →
  (truthy current = true → ∃ s : jsstring, current = Some (JString s)) →
  truthy (entered current confirm typed) = true
  ∧ ∃ s : jsstring, entered current confirm typed = Some (JString s).
Proof.
  intros (keep & ->) (value & -> & Typed) String_.
  unfold entered. destruct (trim value) as [|c r]; [done|].
  destruct (truthy current) eqn:Has; [|by eauto].
  destruct keep; [|by eauto]. split; [done|]. by apply String_.
Qed.

Lemma configure_lists (cfg : Config) (prompter : Prompter) :
  answered prompter →
  (truthy (credential cfg (js "appId")) = true →
   ∃ s : jsstring, credential cfg (js "appId") = Some (JString s)) →
  ∃ next : Config,
    configure cfg prompter = Normal (next, DEFAULT_ACCOUNT_ID)
    ∧ listFeishuAccountIds next = [DEFAULT_ACCOUNT_ID]
    ∧ configured (getStatus next) = true
    ∧ ∃ s : jsstring, credential next (js "appId") = Some (JString s).
Proof.
  intros Answers Sliceable.
  destruct (configure_answered cfg prompter Answers Sliceable)
    as (next & Returned).
  destruct (configure_result cfg prompter next _ Returned)
    as (_ & Enabled & Id & Secret & _).
  destruct Answers as (_ & Confirm1 & Text1 & Confirm2 & Text2).
  destruct (entered_answered (credential cfg (js "appId")) _ _
              Confirm1 Text1 Sliceable) as (HasId & s & IsString).
  assert (truthy (entered (credential cfg (js "appSecret"))
                    (confirm_appSecret prompter) (text_appSecret prompter))
          = true) as HasSecret.
  { destruct Confirm2 as (keep & ->), Text2 as (value & -> & Typed).
    unfold entered. destruct (trim value) as [|c r]; [done|].
    destruct (truthy (credential cfg (js "appSecret"))) eqn:Has; [|done].
    by destruct keep. }
  exists next. split; [done|]. split; [|split].
  - rewrite listFeishuAccountIds_credentials, Enabled, Id, Secret.
    by rewrite HasId, HasSecret.
  - unfold getStatus. cbn [configured].
    fold (credential next (js "appId")) (credential next (js "appSecret")).
    by rewrite Id, Secret, HasId, HasSecret.
  - exists s. by rewrite Id.
Qed.

(** X17.  When the prompts are answered with text that is not blank and
    a configured application id is a string, the wizard returns, and the
    account is then listed and reported as configured.  This also holds
    when the wizard is run on a configuration that [disable] switched
    off: it enables the channel again. *)
Theorem configure_with_answers_lists_the_account (cfg : Config)
    (prompter : Prompter) :
  answered prompter →
  (truthy (credential cfg (js "appId")) = true →
   ∃ s : jsstring, credential cfg (js "appId") = Some (JString s)) →
  ∃ next : Config,
    configure cfg prompter = Normal (next, DEFAULT_ACCOUNT_ID)
    ∧ listFeishuAccountIds next = [DEFAULT_ACCOUNT_ID]
    ∧ configured (getStatus next) = true
    ∧ listFeishuAccountIds (disable next) = []
    ∧ ∃ again : Config,
        configure (disable next) prompter = Normal (again, DEFAULT_ACCOUNT_ID)
        ∧ listFeishuAccountIds again = [DEFAULT_ACCOUNT_ID].
Proof.
  intros Answers Sliceable.
  destruct (configure_lists cfg prompter Answers Sliceable)
    as (next & Returned & Listed & Status & s & IsString).
  exists next. split; [done|]. split; [done|]. split; [done|].
  destruct (disable_credentials next) as (Off & Id & Secret).
  split.
  - rewrite listFeishuAccountIds_credentials, Off. cbn [is_false negb].
    by rewrite andb_false_r.
  - destruct (configure_lists (disable next) prompter Answers)
      as (again & Returned' & Listed' & _).
    + intros _. exists s. by rewrite Id.
    + by exists again.
Qed.

(** *** [JSON.stringify] and [JSON.parse] *)

Lemma lex_string_escape (acc : jsstring) (out : list token) (c e : N)
    (r : jsstring) :
  escape_char c = Some e →
  lex (LxString acc) out (0x5C%N :: c :: r) = lex (LxString (e :: acc)) out r.
Proof. intros E. cbn. by rewrite E. Qed.

Lemma lex_string_raw (acc : jsstring) (out : list token) (c : N)
    (r : jsstring) :
  c ≠ 0x22%N → c ≠ 0x5C%N → (0x20 ≤ c)%N →
  lex (LxString acc) out (c :: r) = lex (LxString (c :: acc)) out r.
Proof.
  intros Quote Solidus Printable. cbn.
  destruct (N.eqb_spec c 0x22); [done|].
  destruct (N.eqb_spec c 0x5C); [done|].
  destruct (N.ltb_spec c 0x20); [lia|done].
Qed.

Lemma hex_value_digit (n : N) : (n < 16)%N → hex_value (hex_digit n) = Some n.
Proof.
  intros Small. unfold hex_digit, hex_value, is_digit.
  destruct (N.ltb_spec n 10).
  - replace ((0x30 <=? 0x30 + n)%N) with true by (symmetry; apply N.leb_le; lia).
    replace ((0x30 + n <=? 0x39)%N) with true by (symmetry; apply N.leb_le; lia).
    cbn [andb]. f_equal. lia.
  - replace ((0x30 + (n - 10) + 0x31 <=? 0x39)%N) with false in *
      by (symmetry; apply N.leb_gt; lia).
    replace ((0x61 + (n - 10) <=? 0x39)%N) with false
      by (symmetry; apply N.leb_gt; lia).
    rewrite andb_false_r.
    replace ((0x61 <=? 0x61 + (n - 10))%N) with true
      by (symmetry; apply N.leb_le; lia).
    replace ((0x61 + (n - 10) <=? 0x66)%N) with true
      by (symmetry; apply N.leb_le; lia).
    cbn [andb]. f_equal. lia.
Qed.

Lemma lex_string_unicode (acc : jsstring) (out : list token) (c : N)
    (r : jsstring) :
  (c < 65536)%N →
  lex (LxString acc) out (unicode_escape c ++ r)
  = lex (LxString (c :: acc)) out r.
Proof.
  (* the arithmetic below is about [c] alone *)
  clear Client_throws. intros Unit. unfold unicode_escape. cbn [app lex].
  change ((0x5C =? 0x22)%N) with false. change ((0x5C =? 0x5C)%N) with true.
  cbn match. change (escape_char 0x75%N) with (@None N).
  change ((0x75 =? 0x75)%N) with true. cbn match.
  rewrite !hex_value_digit; cbn [mbind option_bind];
    try (zify; Z.to_euclidean_division_equations; lia).
  do 3 f_equal. zify. Z.to_euclidean_division_equations. lia.
Qed.

Lemma quote_json_cons (c : N) (r : jsstring) :
  quote_json (c :: r)
  = if (c =? 0x08)%N then [0x5C; 0x62]%N ++ quote_json r
    else if (c =? 0x09)%N then [0x5C; 0x74]%N ++ quote_json r
    else if (c =? 0x0A)%N then [0x5C; 0x6E]%N ++ quote_json r
    else if (c =? 0x0C)%N then [0x5C; 0x66]%N ++ quote_json r
    else if (c =? 0x0D)%N then [0x5C; 0x72]%N ++ quote_json r
    else if (c =? 0x22)%N then [0x5C; 0x22]%N ++ quote_json r
    else if (c =? 0x5C)%N then [0x5C; 0x5C]%N ++ quote_json r
    else if (c <? 0x20)%N then unicode_escape c ++ quote_json r
    else if is_high_surrogate c then
      match r with
      | d :: r' =>
          if is_low_surrogate d then c :: d :: quote_json r'
          else unicode_escape c ++ quote_json r
      | [] => unicode_escape c
      end
    else if is_low_surrogate c then unicode_escape c ++ quote_json r
    else c :: quote_json r.
Proof. by destruct r. Qed.

(** The lexer reads back, inside a string, what [quote_json] wrote. *)
Lemma lex_quote_json (n : nat) :
  ∀ (t : jsstring) (acc : jsstring) (out : list token) (rest : jsstring),
    length t ≤ n → code_units t →
    lex (LxString acc) out (quote_json t ++ rest)
    = lex (LxString (rev t ++ acc)) out rest.
Proof.
  induction n as [|n IH]; intros [|c r] acc out rest Short Units;
    try done; [cbn in Short; lia|].
  cbn [length] in Short.
  apply Forall_cons in Units as (Unit & Units).
  assert (∀ e : N,
            lex (LxString (e :: acc)) out (quote_json r ++ rest)
            = lex (LxString (rev (e :: r) ++ acc)) out rest) as Next.
  { intros e. rewrite IH by (done || lia). cbn [rev].
    by rewrite <- app_assoc. }
  rewrite quote_json_cons.
  destruct (N.eqb_spec c 0x08) as [->|];
    [rewrite <- app_assoc; cbn [app]; by rewrite (lex_string_escape _ _ _ 0x08%N)|].
  destruct (N.eqb_spec c 0x09) as [->|];
    [rewrite <- app_assoc; cbn [app]; by rewrite (lex_string_escape _ _ _ 0x09%N)|].
  destruct (N.eqb_spec c 0x0A) as [->|];
    [rewrite <- app_assoc; cbn [app]; by rewrite (lex_string_escape _ _ _ 0x0A%N)|].
  destruct (N.eqb_spec c 0x0C) as [->|];
    [rewrite <- app_assoc; cbn [app]; by rewrite (lex_string_escape _ _ _ 0x0C%N)|].
  destruct (N.eqb_spec c 0x0D) as [->|];
    [rewrite <- app_assoc; cbn [app]; by rewrite (lex_string_escape _ _ _ 0x0D%N)|].
  destruct (N.eqb_spec c 0x22) as [->|];
    [rewrite <- app_assoc; cbn [app]; by rewrite (lex_string_escape _ _ _ 0x22%N)|].
  destruct (N.eqb_spec c 0x5C) as [->|];
    [rewrite <- app_assoc; cbn [app]; by rewrite (lex_string_escape _ _ _ 0x5C%N)|].
  destruct (N.ltb_spec c 0x20);
    [by rewrite <- app_assoc, lex_string_unicode|].
  destruct (is_high_surrogate c) eqn:High.
  - destruct r as [|d r'].
    + rewrite lex_string_unicode by done. cbn [rev app]. done.
    + destruct (is_low_surrogate d) eqn:Low;
        [|by rewrite <- app_assoc, lex_string_unicode].
      unfold is_low_surrogate in Low.
      apply andb_true_iff in Low as (Low1%N.leb_le & Low2%N.leb_le).
      cbn [app]. rewrite !lex_string_raw by lia.
      apply Forall_cons in Units as (_ & Units).
      cbn [length] in Short.
      rewrite IH by (done || lia). cbn [rev].
      by rewrite <- !app_assoc.
  - destruct (is_low_surrogate c);
      [by rewrite <- app_assoc, lex_string_unicode|].
    cbn [app]. by rewrite lex_string_raw by lia.
Qed.

Lemma lex_stringified (text : jsstring) :
  code_units text →
  lex LxIdle [] (JSON_stringify_text text)
  = Some [TLBrace; TString (js "text"); TColon; TString text; TRBrace].
Proof.
  intros Units.
  change (lex LxIdle [] (JSON_stringify_text text))
    with (lex (LxString []) [TColon; TString (js "text"); TLBrace]
            (quote_json text ++ [0x22; 0x7D]%N)).
  rewrite (lex_quote_json (length text)) by done.
  cbn. by rewrite app_nil_r, rev_involutive.
Qed.

Lemma parse_stringified (body : jsstring) :
  code_units body →
  JSON_parse (JSON_stringify_text body)
  = Some (JObject [(js "text", JString body)])
  ∧ extracted_text (JSON_stringify_text body) = Some (JString body).
Proof.
  intros Units. unfold extracted_text, JSON_parse.
  rewrite lex_stringified by done. cbn [mbind option_bind].
  split; [done|]. cbn. by rewrite decide_True.
Qed.

(** X18.  [JSON.parse] reads back what [JSON.stringify({ text })]
    writes, for every string: the content of a text message the plugin
    builds parses to an object whose only member is the text, so the
    gateway extracts from it the very text that was sent, whatever
    quotation marks, reverse solidi, control characters or surrogates it
    holds. *)
Theorem parse_reads_back_stringified_text (body : jsstring) :
  code_units body →
  JSON_parse (JSON_stringify_text body)
  = Some (JObject [(js "text", JString body)])
  ∧ extracted_text (JSON_stringify_text body) = Some (JString body).
Proof. apply parse_stringified. Qed.

(** *** The callbacks of [startAccount] *)

Lemma channel_onMessage_unshown (acct : ResolvedFeishuAccount)
    (cfg : ClawdbotConfig) (message : FeishuMessage) (s : World)
    (e : JsThrown) :
  messageType message = js "text" → not_text message = false →
  ToString number_toString (default JNull (text message)) = Throw e →
  channel_onMessage acct cfg message s = (Throw e, s).
Proof.
  intros Text Truthy Unshown. unfold channel_onMessage.
  rewrite Truthy, bool_decide_eq_false_2 by (by intros []). cbn [orb].
  unfold mbind at 1, M_bind, completed. by rewrite Unshown.
Qed.

(** The line and the dispatcher call, and the world the replies are
    delivered in. *)
Lemma channel_onMessage_dispatch (acct : ResolvedFeishuAccount)
    (cfg : ClawdbotConfig) (message : FeishuMessage) (s : World)
    (shown : jsstring) :
  messageType message = js "text" → not_text message = false →
  ToString number_toString (default JNull (text message)) = Normal shown →
  let line :=
    ConsoleLog (console_prefix acct ++ [0x6536; 0x5230; 0x6D88; 0x606F]%N
                ++ js ": " ++ shown) in
  let verdict :=
    dispatcher cfg (set_effects (λ l, l ++ [line]) s)
      (context_of acct message) in
  let s2 :=
    set_effects (λ l, l ++ [DispatchReply (context_of acct message)])
      (set_effects (λ l, l ++ [line]) s) in
  channel_onMessage acct cfg message s
  = match for_of verdict.1 (deliver acct message) s2 with
    | (Normal _, s3) =>
        (match verdict.2 with None => Normal () | Some e => Throw e end, s3)
    | (Throw e, s3) => (Throw e, s3)
    end.
Proof.
  intros Text Truthy Shown. cbv zeta. unfold channel_onMessage.
  rewrite Truthy, bool_decide_eq_false_2 by (by intros []). cbn [orb].
  unfold mbind at 1, M_bind, completed. rewrite Shown.
  fold (context_of acct message). unfold console_prefix.
  rewrite <- !app_assoc.
  unfold dispatchReplyWithBufferedBlockDispatcher. run.
  destruct (for_of _ _ _) as [[[]|e] s3]; [|done].
  by destruct (dispatcher _ _ _).2.
Qed.

Lemma channel_onMessage_run (acct : ResolvedFeishuAccount)
    (cfg : ClawdbotConfig) (message : FeishuMessage) (s : World)
    (shown : jsstring) :
  messageType message = js "text" → not_text message = false →
  ToString number_toString (default JNull (text message)) = Normal shown →
  client_available acct s →
  let line :=
    ConsoleLog (console_prefix acct ++ [0x6536; 0x5230; 0x6D88; 0x606F]%N
                ++ js ": " ++ shown) in
  let verdict :=
    dispatcher cfg (set_effects (λ l, l ++ [line]) s)
      (context_of acct message) in
  (channel_onMessage acct cfg message s).1
  = match verdict.2 with None => Normal () | Some e => Throw e end
  ∧ effects (channel_onMessage acct cfg message s).2
    = effects s
      ++ [line; DispatchReply (context_of acct message)]
      ++ map (λ t, MessageCreate (client_of acct s)
                     (create_request (chatId message) t))
             (reply_texts verdict.1).
Proof.
  intros Text Truthy Shown Available. cbv zeta.
  rewrite (channel_onMessage_dispatch acct cfg message s shown) by done.
  cbv zeta.
  match goal with
  | |- context [for_of ?ps ?f ?w] =>
      destruct (for_of_deliver_run acct message ps w) as (Returned & Sent);
      [exact Available|];
      destruct (for_of ps f w) as [[[]|e] s3]
  end; cbn [fst snd] in *; [|done].
  unfold client_of in Sent. world. rewrite <- !app_assoc in Sent.
  destruct (dispatcher _ _ _).2; cbn [fst snd]; by rewrite Sent.
Qed.

Lemma channel_onMessage_refused (acct : ResolvedFeishuAccount)
    (cfg : ClawdbotConfig) (message : FeishuMessage) (s : World)
    (shown : jsstring) (e : JsThrown) :
  messageType message = js "text" → not_text message = false →
  ToString number_toString (default JNull (text message)) = Normal shown →
  client_refused acct s e →
  let line :=
    ConsoleLog (console_prefix acct ++ [0x6536; 0x5230; 0x6D88; 0x606F]%N
                ++ js ": " ++ shown) in
  let verdict :=
    dispatcher cfg (set_effects (λ l, l ++ [line]) s)
      (context_of acct message) in
  (channel_onMessage acct cfg message s).1
  = match reply_texts verdict.1 with
    | [] => match verdict.2 with None => Normal () | Some e' => Throw e' end
    | _ :: _ => Throw e
    end
  ∧ effects (channel_onMessage acct cfg message s).2
    = effects s ++ [line; DispatchReply (context_of acct message)].
Proof.
  intros Text Truthy Shown Refused. cbv zeta.
  rewrite (channel_onMessage_dispatch acct cfg message s shown) by done.
  cbv zeta. rewrite (for_of_deliver_refused acct message _ _ e) by done.
  destruct (reply_texts _); cbn [fst snd]; world;
    rewrite <- !app_assoc; [|done].
  by destruct (dispatcher _ _ _).2.
Qed.

(** X19.  For a text message whose text is truthy, [onMessage] first
    converts the text to a string.  When that throws (the text is an
    object with a member named [toString], or an array holding one),
    [onMessage] throws the TypeError and does nothing else.  Otherwise
    it writes one console line and hands the dispatcher a context that
    names the sender, the account and the conversation, with the session
    key [feishu:<account>:<chat>] and the chat type [direct] for a [p2p]
    chat and [group] otherwise.  When a client is cached for the account
    or can be built, the dispatcher's replies are sent to the
    conversation of the message, and [onMessage] throws exactly when the
    dispatcher rejects, with the dispatcher's error.  When no client is
    cached and [new lark.Client] throws, the line is written, the
    dispatcher is called, and nothing is sent. *)
Theorem onMessage_hands_over_and_sends_the_replies
    (acct : ResolvedFeishuAccount) (cfg : ClawdbotConfig)
    (message : FeishuMessage) (s : World) :
  messageType message = js "text" → not_text message = false →
  let body := default JNull (text message) in
  (∀ e : JsThrown,
     ToString number_toString body = Throw e →
     channel_onMessage acct cfg message s = (Throw e, s))
  ∧ ∀ shown : jsstring,
      ToString number_toString body = Normal shown →
      let line :=
        ConsoleLog (js "[feishu:" ++ accountId acct ++ js "] "
                    ++ [0x6536; 0x5230; 0x6D88; 0x606F]%N ++ js ": "
                    ++ shown) in
      let ctx :=
        {| From := senderId message;
           Body := body;
           AccountId := accountId acct;
           Provider := js "feishu";
           Surface := js "feishu";
           SessionKey := js "feishu:" ++ accountId acct ++ js ":"
                         ++ chatId message;
           To := chatId message;
           ChatType := match chatType message with
                       | p2p => direct
                       | group => group_chat
                       end |} in
      let verdict := dispatcher cfg (set_effects (λ l, l ++ [line]) s) ctx in
      (client_available acct s →
       (channel_onMessage acct cfg message s).1
       = match verdict.2 with None => Normal () | Some e => Throw e end
       ∧ effects (channel_onMessage acct cfg message s).2
         = effects s
           ++ [line; DispatchReply ctx]
           ++ map (λ t, MessageCreate (client_of acct s)
                          (create_request (chatId message) t))
                  (reply_texts verdict.1))
      ∧ (∀ e : JsThrown,
           client_refused acct s e →
           effects (channel_onMessage acct cfg message s).2
           = effects s ++ [line; DispatchReply ctx]).
Proof.
  intros Text Truthy. cbv zeta. split.
  - intros e. by apply channel_onMessage_unshown.
  - intros shown Shown. split.
    + intros Available.
      pose proof (channel_onMessage_run acct cfg message s shown
                    Text Truthy Shown Available) as Run.
      cbv zeta in Run. unfold console_prefix, context_of in Run.
      by rewrite <- !app_assoc in Run.
    + intros e Refused.
      destruct (channel_onMessage_refused acct cfg message s shown e
                  Text Truthy Shown Refused) as (_ & Run).
      cbv zeta in Run. unfold console_prefix, context_of in Run.
      by rewrite <- !app_assoc in Run.
Qed.

(** X20.  [sendText] makes one [message.create] request to the
    conversation given and returns a result, when a client is cached
    for the account or can be built.  The result is [ok] exactly when
    the platform answers with code 0; a failure carries an [Error] with
    the platform's message, or with the stringified rejection, and no
    error at all when that message is absent or empty.  When no client
    is cached and [new lark.Client] throws, [sendText] throws that error
    and makes no request. *)
Theorem sendText_reports_the_failure (ctx : OutboundContext) (s : World) :
  let acct := outbound_account ctx in
  let request := create_request (to ctx) (outbound_text ctx) in
  let answer := im_v1_message_create (getFeishuClient acct s).2 request in
  (client_available acct s →
   (sendText ctx s).1
   = Normal
       match answer with
       | Lark.Resolved code msg =>
           if bool_decide (code = Some 0%Z)
           then {| outbound_ok := true; outbound_error := None |}
           else {| outbound_ok := false; outbound_error := error_of msg |}
       | Lark.Rejected e =>
           {| outbound_ok := false;
              outbound_error := error_of (Some (String_of e)) |}
       end
   ∧ effects (sendText ctx s).2
     = effects s ++ [MessageCreate (client_of acct s) request])
  ∧ (∀ e : JsThrown,
       client_refused acct s e → sendText ctx s = (Throw e, s)).
Proof.
  cbv zeta. unfold sendText. unfold mbind, M_bind. split.
  - intros Available.
    rewrite sendTextMessage_world by done. cbn [fst snd]. unfold mret, M_ret.
    cbn [fst snd]. split.
    + f_equal. unfold send_result, error_of.
      destruct (im_v1_message_create _ _) as [code msg|e]; [|done].
      by destruct (bool_decide (code = Some 0%Z)).
    + destruct (getFeishuClient_frame (outbound_account ctx) s) as (E & _).
      world. by rewrite E.
  - intros e Refused. by rewrite (sendTextMessage_refused _ _ _ _ e).
Qed.

(** X21.  [startAccount] fails with [Feishu runtime not initialized]
    and opens nothing while the plugin is not registered.  Once the
    runtime is set it starts a gateway for the account, and that gateway
    always has a logger: the login line, the notice for an expired event
    and the error of a dispatch that failed all go to the console,
    behind the prefix [[feishu:<account>] ]; a dispatch error is never
    lost and never thrown further. *)
Theorem startAccount_runs_a_gateway_that_logs_to_the_console
    (runtime : PluginRuntime) (ctx : GatewayContext) (s : World) :
  let acct := ctx_account ctx in
  let options := account_options ctx in
  let prefix := js "[feishu:" ++ accountId acct ++ js "] " in
  startAccount None ctx s
  = (Throw (ErrorObject (js "Error") (js "Feishu runtime not initialized")), s)
  ∧ startAccount (setFeishuRuntime runtime None) ctx s
    = (Normal (), (startGateway options s).2)
  ∧ effects (startGateway options s).2
    = effects s
      ++ closing (accountId acct) s
      ++ [WsConstructed (ws_constructed s)]
      ++ match ctx_abortSignal ctx with
         | Some signal => [AbortListenerAdded signal (accountId acct)]
         | None => []
         end
      ++ [WsStarted (ws_constructed s);
          ConsoleLog (prefix ++ js "logged in to feishu as " ++ appId acct);
          RegistrySet (accountId acct) (ws_constructed s)]
  ∧ (∀ (data : Lark.ReceiveEvent) (message : Lark.RawMessage) (s0 : World),
       Lark.message data = Some message →
       processedMessages s0 !! or_empty (Lark.message_id message) = None →
       (isMessageExpired (Lark.create_time message)
          (isDuplicateMessage (or_empty (Lark.message_id message)) s0).2).1
         = Normal true →
       effects (on_message_receive options data s0).2
       = effects s0
         ++ [ConsoleLog
               (prefix ++ js "Skipping expired message "
                ++ template (Lark.content message) ++ js ", create_time: "
                ++ template (Lark.create_time message))])
  ∧ (∀ (feishuMessage : FeishuMessage) (s0 s1 : World) (e : JsThrown),
       channel_onMessage acct (ctx_cfg ctx) feishuMessage s0 = (Throw e, s1) →
       immediate_callback options feishuMessage s0
       = (Normal (),
          set_effects
            (λ l, l ++ [ConsoleError
                          (prefix ++ js "Error handling message: "
                           ++ String_of e)])
            s1)).
Proof.
  cbv zeta. split; [done|]. split; [|split; [|split]].
  - unfold startAccount, setFeishuRuntime, getFeishuRuntime.
    unfold mbind, M_bind, mret, M_ret. cbn [fst snd].
    fold (account_options ctx).
    rewrite (startGateway_run (account_options ctx) s). cbv zeta.
    reflexivity.
  - rewrite startGateway_effects. unfold opening.
    cbn [account_options abortSignal logger account channel_logger info].
    by rewrite <- !app_assoc.
  - intros data message s0 E Fresh.
    rewrite isDuplicateMessage_fresh by done. cbn [snd].
    rewrite isMessageExpired_run. cbn [fst]. intros [= Expired].
    rewrite (on_message_receive_fresh _ data message s0 E Fresh).
    cbn [snd]. unfold admitted_or_expired. rewrite Expired.
    cbn [account_options logger channel_logger info]. unfold expired_notice.
    destruct (reads_clock _); world;
      rewrite ?recorded_effects, <- ?app_assoc; done.
  - intros feishuMessage s0 s1 e Thrown. unfold immediate_callback.
    cbn [account_options onMessage logger]. unfold try_catch.
    rewrite Thrown. rewrite logger_error_run.
    cbn [channel_logger error fmap option_fmap option_map logged].
    by rewrite <- !app_assoc.
Qed.

(** *** From an event to the dispatcher *)

Lemma dispatched_app (l1 l2 : list Effect) :
  dispatched (l1 ++ l2) = dispatched l1 ++ dispatched l2.
Proof. apply omap_app. Qed.

(** A send calls no dispatcher and schedules nothing. *)
Lemma sendTextMessage_quiet (acct : ResolvedFeishuAccount)
    (target body : jsstring) (s : World) :
  immediates (sendTextMessage acct target body s).2 = immediates s
  ∧ dispatched (effects (sendTextMessage acct target body s).2)
    = dispatched (effects s).
Proof.
  remember (sendTextMessage acct target body s) as sent eqn:Sent.
  unfold sendTextMessage in Sent. unfold mbind at 1, M_bind in Sent.
  destruct (getFeishuClient_frame acct s) as (E & _ & _ & I & _).
  destruct (getFeishuClient acct s) as [[client|e] s1]; cbn [fst snd] in *;
    [|subst sent; cbn [snd]; by rewrite E, I].
  unfold message_create in Sent. run.
  destruct (im_v1_message_create s1 _) as [code msg|e]; cbn [fst snd] in Sent;
    [destruct (bool_decide _)|]; subst sent; world;
    by rewrite dispatched_app, app_nil_r, E, I.
Qed.

Lemma deliver_quiet (acct : ResolvedFeishuAccount)
    (message : FeishuMessage) (payload : Lark.ReplyPayload) (s : World) :
  immediates (deliver acct message payload s).2 = immediates s
  ∧ dispatched (effects (deliver acct message payload s).2)
    = dispatched (effects s).
Proof.
  unfold deliver. destruct (bool_decide _); [|done].
  unfold mbind, M_bind.
  pose proof (sendTextMessage_quiet acct (chatId message)
                (default [] (Lark.payload_text payload)) s) as Quiet.
  by destruct (sendTextMessage _ _ _ s) as [[r|e] s1].
Qed.

Lemma for_of_deliver_quiet (acct : ResolvedFeishuAccount)
    (message : FeishuMessage) (payloads : list Lark.ReplyPayload)
    (s : World) :
  immediates (for_of payloads (deliver acct message) s).2 = immediates s
  ∧ dispatched (effects (for_of payloads (deliver acct message) s).2)
    = dispatched (effects s).
Proof.
  revert s. induction payloads as [|payload rest IH]; intros s; [done|].
  cbn [for_of]. unfold mbind, M_bind.
  destruct (deliver_quiet acct message payload s) as (Queue & Calls).
  destruct (deliver acct message payload s) as [[[]|e] s1];
    cbn [fst snd] in *; [|done].
  destruct (IH s1) as (Queue' & Calls'). split; congruence.
Qed.

Lemma channel_onMessage_quiet (acct : ResolvedFeishuAccount)
    (cfg : ClawdbotConfig) (message : FeishuMessage) (s : World) :
  immediates (channel_onMessage acct cfg message s).2 = immediates s
  ∧ dispatched (effects (channel_onMessage acct cfg message s).2)
    = dispatched (effects s)
      ++ (if dispatchable message then [context_of acct message] else []).
Proof.
  unfold dispatchable.
  destruct (decide (messageType message = js "text")) as [Text|Other];
    [destruct (not_text message) eqn:Falsy|].
  - rewrite channel_onMessage_skips by auto.
    by rewrite andb_false_r, app_nil_r.
  - rewrite bool_decide_eq_true_2 by done. cbn [negb andb].
    destruct (ToString number_toString (default JNull (text message)))
      as [shown|e] eqn:Shown.
    + rewrite (channel_onMessage_dispatch acct cfg message s shown) by done.
      cbv zeta.
      match goal with
      | |- context [for_of ?ps ?f ?w] =>
          destruct (for_of_deliver_quiet acct message ps w) as (Queue & Calls);
          destruct (for_of ps f w) as [[[]|e] s3]
      end; cbn [fst snd] in *; world;
        rewrite !dispatched_app, app_nil_r in Calls; done.
    + rewrite (channel_onMessage_unshown acct cfg message s e) by done.
      by rewrite app_nil_r.
  - rewrite channel_onMessage_skips by auto.
    rewrite bool_decide_eq_false_2 by done. by rewrite app_nil_r.
Qed.

Lemma immediate_callback_account (ctx : GatewayContext)
    (message : FeishuMessage) (s : World) :
  (immediate_callback (account_options ctx) message s).1 = Normal ()
  ∧ immediates (immediate_callback (account_options ctx) message s).2
    = immediates s
  ∧ dispatched (effects (immediate_callback (account_options ctx) message s).2)
    = dispatched (effects s)
      ++ (if dispatchable message
          then [context_of (ctx_account ctx) message] else []).
Proof.
  destruct (channel_onMessage_quiet (ctx_account ctx) (ctx_cfg ctx) message s)
    as (Queue & Calls).
  unfold immediate_callback. cbn [account_options onMessage logger].
  unfold try_catch.
  destruct (channel_onMessage (ctx_account ctx) (ctx_cfg ctx) message s)
    as [[[]|e] s1]; cbn [fst snd] in *; [done|].
  rewrite logger_error_run.
  cbn [channel_logger error fmap option_fmap option_map logged fst snd].
  world. by rewrite dispatched_app, app_nil_r.
Qed.

Lemma immediate_callback_begins (ctx : GatewayContext)
    (message : FeishuMessage) (s : World) (shown : jsstring) :
  messageType message = js "text" → not_text message = false →
  ToString number_toString (default JNull (text message)) = Normal shown →
  ∃ rest : list Effect,
    effects (immediate_callback (account_options ctx) message s).2
    = effects s
      ++ ConsoleLog (console_prefix (ctx_account ctx)
                     ++ [0x6536; 0x5230; 0x6D88; 0x606F]%N ++ js ": "
                     ++ shown)
         :: DispatchReply (context_of (ctx_account ctx) message) :: rest.
Proof.
  intros Text Truthy Shown.
  unfold immediate_callback. cbn [account_options onMessage logger].
  unfold try_catch.
  rewrite (channel_onMessage_dispatch _ _ message s shown) by done.
  cbv zeta.
  match goal with
  | |- context [for_of ?ps ?f ?w] =>
      destruct (for_of_deliver_extends (ctx_account ctx) message ps w)
        as (new & Extends);
      destruct (for_of ps f w) as [[[]|e] s3]
  end; cbn [fst snd] in *; world; rewrite <- !app_assoc in Extends;
    cbn [app] in Extends.
  - destruct (dispatcher _ _ _).2 as [e|]; [|by exists new].
    rewrite logger_error_run.
    cbn [channel_logger error fmap option_fmap option_map logged fst snd].
    world. rewrite Extends, <- !app_assoc. cbn [app]. by eexists.
  - rewrite logger_error_run.
    cbn [channel_logger error fmap option_fmap option_map logged fst snd].
    world. rewrite Extends, <- !app_assoc. cbn [app]. by eexists.
Qed.

(** X22.  A text event the gateway admits reaches the dispatcher with
    its own text.  When the event is new and not expired, its type is
    [text] and its content is what [JSON.stringify({ text })] writes for
    a text that is not empty, the handler of a gateway started by
    [startAccount] returns its acknowledgment, shows nothing, and
    schedules one callback, for a message that carries the ids, the chat
    type and the content of the event and that text.  Whenever that
    callback runs, it first writes the text to the console and then
    calls the dispatcher with the text as body, the sender, the
    conversation and the chat type of the event; and it does not throw.
    What the callback does after that call is not stated here. *)
Theorem text_event_reaches_the_dispatcher (ctx : GatewayContext)
    (data : Lark.ReceiveEvent) (message : Lark.RawMessage)
    (body : jsstring) (s : World) :
  Lark.message data = Some message →
  processedMessages s !! or_empty (Lark.message_id message) = None →
  (isMessageExpired (Lark.create_time message)
     (isDuplicateMessage (or_empty (Lark.message_id message)) s).2).1
    = Normal false →
  Lark.message_type message = Some (js "text") →
  Lark.content message = Some (JSON_stringify_text body) →
  code_units body → body ≠ [] →
  let acct := ctx_account ctx in
  let options := account_options ctx in
  let feishuMessage :=
    {| messageId := or_empty (Lark.message_id message);
       chatId := or_empty (Lark.chat_id message);
       chatType := if bool_decide (Lark.chat_type message = Some (js "p2p"))
                   then p2p else group;
       senderId := or_empty (Lark.open_id data);
       messageType := js "text";
       content := JSON_stringify_text body;
       text := Some (JString body) |} in
  let line :=
    ConsoleLog (js "[feishu:" ++ accountId acct ++ js "] "
                ++ [0x6536; 0x5230; 0x6D88; 0x606F]%N ++ js ": " ++ body) in
  let msgCtx :=
    {| From := or_empty (Lark.open_id data);
       Body := JString body;
       AccountId := accountId acct;
       Provider := js "feishu";
       Surface := js "feishu";
       SessionKey := js "feishu:" ++ accountId acct ++ js ":"
                     ++ or_empty (Lark.chat_id message);
       To := or_empty (Lark.chat_id message);
       ChatType := if bool_decide (Lark.chat_type message = Some (js "p2p"))
                   then direct else group_chat |} in
  (on_message_receive options data s).1 = Normal ()
  ∧ effects (on_message_receive options data s).2 = effects s
  ∧ immediates (on_message_receive options data s).2
    = immediates s ++ [feishuMessage]
  ∧ ∀ w : World,
      (immediate_callback options feishuMessage w).1 = Normal ()
      ∧ ∃ rest : list Effect,
          effects (immediate_callback options feishuMessage w).2
          = effects w ++ line :: DispatchReply msgCtx :: rest.
Proof.
  intros E Fresh NotExpired Type_ Content Units Filled. cbv zeta.
  rewrite isDuplicateMessage_fresh in NotExpired by done.
  rewrite isMessageExpired_run in NotExpired. cbn [fst snd] in NotExpired.
  injection NotExpired as NotExpired.
  rewrite (on_message_receive_fresh _ data message s E Fresh). cbn [fst snd].
  unfold admitted_or_expired. rewrite NotExpired.
  assert (normalized data message
          = {| messageId := or_empty (Lark.message_id message);
               chatId := or_empty (Lark.chat_id message);
               chatType :=
                 if bool_decide (Lark.chat_type message = Some (js "p2p"))
                 then p2p else group;
               senderId := or_empty (Lark.open_id data);
               messageType := js "text";
               content := JSON_stringify_text body;
               text := Some (JString body) |}) as ->.
  { unfold normalized. rewrite Type_, Content. cbn [or_empty from_option id].
    rewrite (bool_decide_eq_true_2 (js "text" = js "text")) by done.
    by destruct (parse_stringified body Units) as (_ & ->). }
  split; [done|]. split; [|split].
  - destruct (reads_clock _); world; by rewrite recorded_effects.
  - destruct (reads_clock _); world; by rewrite recorded_immediates.
  - intros w.
    match goal with
    | |- context [immediate_callback _ ?m w] => set (m0 := m)
    end.
    split; [apply immediate_callback_account|].
    destruct (immediate_callback_begins ctx m0 w body)
      as (rest & Begins); [done| |done|].
    { unfold not_text, m0. cbn [text ToBoolean]. by destruct body. }
    exists rest. rewrite Begins. unfold console_prefix, context_of, m0.
    cbn [senderId text chatId chatType from_option id].
    rewrite <- !app_assoc.
    by destruct (bool_decide (Lark.chat_type message = Some (js "p2p"))).
Qed.




End Plugin.

(** ** The statements at sample inputs *)

Example JSON_parse_hi :
  JSON_parse hi_content = Some (JObject [(js "text", JString (js "hi"))]).
Proof. reflexivity. Qed.

Example JSON_parse_not_json : JSON_parse (js "not-json") = None.
Proof. reflexivity. Qed.

Example JSON_parse_nested :
  JSON_parse (js " [1, -2.50e+3, true, null, {}] ")
  = Some (JArray [JNumber {| neg := false; mantissa := 1; exp10 := 0 |};
                  JNumber {| neg := true; mantissa := 250; exp10 := 1 |};
                  JBool true; JNull; JObject []]).
Proof. reflexivity. Qed.

Example JSON_parse_trailing_comma : JSON_parse (js "[1,]") = None.
Proof. reflexivity. Qed.

Example parseInt_timestamp :
  parseInt (js "1700000000000") = Some 1700000000000%Z.
Proof. reflexivity. Qed.

Example parseInt_prefix : parseInt (js "  -12px") = Some (-12)%Z.
Proof. reflexivity. Qed.

Example parseInt_not_a_number : parseInt (js "soon") = None.
Proof. reflexivity. Qed.

(** An event created 40 minutes before the clock reading is dropped. *)
Example forty_minutes_old_is_dropped :
  on_message_receive sample_clock sample_options
    (text_event (js "E1") (js "1699997600000") hi_content) empty_world
  = (Normal (),
     set_effects
       (λ _, [LoggerInfo (js "Skipping expired message " ++ hi_content
                          ++ js ", create_time: 1699997600000")])
       (set_clock_reads (λ _, 2)
          (set_processedMessages (λ _, {[js "E1" := 1700000000000%Z]})
             empty_world))).
Proof. vm_compute. reflexivity. Qed.

(** The platform answers code 1234 with the message [rate limited]. *)
Example send_rate_limited :
  (sendTextMessage
     (platform_answers (Lark.Resolved (Some 1234%Z) (Some (js "rate limited"))))
     builds_any sample_account (js "oc_1") (js "hello") empty_world).1
  = Normal {| ok := false; send_error := Some (js "rate limited") |}.
Proof. reflexivity. Qed.

Example send_accepted :
  (sendTextMessage (platform_answers (Lark.Resolved (Some 0%Z) None))
     builds_any sample_account (js "oc_1") (js "hello") empty_world).1
  = Normal {| ok := true; send_error := None |}.
Proof. reflexivity. Qed.



(** A mapping of 100 stale ids: the 101st insert sweeps them away; and an
    id recorded more than 60 seconds ago is admitted again after a sweep. *)
Lemma dedupe_cleanup_at_101_entries :
  let stale := (sample_clock 0 - 61 * 1000)%Z in
  let s := crowded_world 100 stale in
  ((isDuplicateMessage sample_clock (js "E1") s).1 = Normal false
   ∧ ∀ (k : jsstring) (timestamp : Z),
       processedMessages (isDuplicateMessage sample_clock (js "E1") s).2 !! k
         = Some timestamp
       ↔ <[js "E1" := sample_clock 0]> (processedMessages s) !! k
           = Some timestamp
         ∧ ¬ (sample_clock 1 - timestamp > 60 * 1000)%Z)
  ∧ processedMessages (isDuplicateMessage sample_clock (js "E1") s).2
    = {[js "E1" := sample_clock 0]}
  ∧ (isDuplicateMessage sample_clock [0%N]
       (cleanupDedupeCache sample_clock s).2).1 = Normal false.
Proof.
  cbv zeta.
  destruct (dedupe_cleanup_runs_only_above_100_entries sample_clock
              (js "E1") (crowded_world 100 (sample_clock 0 - 61 * 1000)%Z))
    as (_ & _ & Large & _ & _).
  destruct (dedupe_cleanup_runs_only_above_100_entries sample_clock
              [0%N] (crowded_world 100 (sample_clock 0 - 61 * 1000)%Z))
    as (_ & _ & _ & _ & Again).
  split; [|split].
  - apply Large; [reflexivity|vm_compute; lia].
  - vm_compute. reflexivity.
  - apply (Again (sample_clock 0 - 61 * 1000)%Z); [reflexivity|].
    vm_compute. reflexivity.
Defined.

(** A stale event through a gateway started with a logger. *)
Lemma dedupe_check_precedes_staleness_check_logged :
  let data := text_event (js "E1") (js "1699997600000") hi_content in
  let s' :=
    (on_message_receive sample_clock sample_options data empty_world).2 in
  (is_Some (processedMessages empty_world !! js "E1") →
     on_message_receive sample_clock sample_options data empty_world
     = (Normal (), empty_world))
  ∧ (processedMessages empty_world !! js "E1" = None →
     (isMessageExpired sample_clock (Some (js "1699997600000"))
        (isDuplicateMessage sample_clock (js "E1") empty_world).2).1
       = Normal true →
     (on_message_receive sample_clock sample_options data empty_world).1
       = Normal ()
     ∧ immediates s' = immediates empty_world
     ∧ processedMessages s'
       = processedMessages
           (isDuplicateMessage sample_clock (js "E1") empty_world).2
     ∧ effects s' =
         effects empty_world
         ++ [LoggerInfo (js "Skipping expired message " ++ hi_content
                         ++ js ", create_time: " ++ js "1699997600000")])
  ∧ (processedMessages empty_world !! js "E1" = None →
     processedMessages s'
     = processedMessages
         (isDuplicateMessage sample_clock (js "E1") empty_world).2
     ∧ clock_reads s'
       = clock_reads
           (isMessageExpired sample_clock (Some (js "1699997600000"))
              (isDuplicateMessage sample_clock (js "E1") empty_world).2).2).
Proof.
  exact (dedupe_check_precedes_staleness_check sample_clock sample_options
           (text_event (js "E1") (js "1699997600000") hi_content)
           (text_message (js "E1") (js "1699997600000") hi_content)
           empty_world eq_refl).
Defined.

(** The same stale event through a gateway started without a logger: it
    is not a duplicate, it is expired, it is dropped, and no log line is
    emitted. *)
Lemma expired_event_leaves_no_log_line_without_logger :
  let data := text_event (js "E1") (js "1699997600000") hi_content in
  processedMessages empty_world !! js "E1" = None
  ∧ (isMessageExpired sample_clock (Some (js "1699997600000"))
       (isDuplicateMessage sample_clock (js "E1") empty_world).2).1
    = Normal true
  ∧ (on_message_receive sample_clock options_without_logger data
       empty_world).1 = Normal ()
  ∧ immediates
      (on_message_receive sample_clock options_without_logger data
         empty_world).2 = []
  ∧ effects
      (on_message_receive sample_clock options_without_logger data
         empty_world).2 = [].
Proof. vm_compute. repeat split; reflexivity. Qed.

(** A fresh text event with content [{"text":"hi"}]. *)
Lemma text_is_extracted_from_hi_content :
  let data := text_event (js "E1") (js "1700000000000") hi_content in
  ∃ feishuMessage : FeishuMessage,
    (on_message_receive sample_clock sample_options data empty_world).1
      = Normal ()
    ∧ immediates
        (on_message_receive sample_clock sample_options data empty_world).2
      = immediates empty_world ++ [feishuMessage]
    ∧ content feishuMessage = hi_content
    ∧ (∀ parsed : json,
         JSON_parse hi_content = Some parsed →
         text feishuMessage =
           match get_property parsed (js "text") with
           | Normal value => value
           | Throw _ => None
           end)
    ∧ (JSON_parse hi_content = None → text feishuMessage = None)
    ∧ (hi_content = js "{" ++ quoted "text" ++ js ":" ++ quoted "hi" ++ js "}" →
       text feishuMessage = Some (JString (js "hi")))
    ∧ (hi_content = js "not-json" → text feishuMessage = None).
Proof.
  exact (text_is_extracted_from_json_content sample_clock sample_options
           (text_event (js "E1") (js "1700000000000") hi_content)
           (text_message (js "E1") (js "1700000000000") hi_content)
           empty_world eq_refl eq_refl eq_refl eq_refl).
Defined.

(** A callback that throws, in a gateway started with a logger: the turn
    returns and the error is logged. *)
Lemma dispatch_error_is_logged_with_logger :
  let feishuMessage :=
    normalized (text_event (js "E1") (js "1700000000000") hi_content)
      (text_message (js "E1") (js "1700000000000") hi_content) in
  (immediate_callback sample_options feishuMessage empty_world).1 = Normal ()
  ∧ set_effects (λ _, effects empty_world)
      (immediate_callback sample_options feishuMessage empty_world).2
    = empty_world
  ∧ effects (immediate_callback sample_options feishuMessage empty_world).2
    = effects empty_world
      ++ [LoggerError (js "Error handling message: "
                       ++ String_of (ErrorObject (js "Error") (js "boom")))].
Proof.
  cbv zeta.
  destruct (dispatch_errors_are_caught_in_their_own_turn sample_clock
              sample_options
              (text_event (js "E1") (js "1700000000000") hi_content)
              empty_world)
    as (_ & _ & _ & _ & _ & Thrown).
  apply (Thrown _ empty_world empty_world (ErrorObject (js "Error") (js "boom"))).
  reflexivity.
Defined.

(** The same callback in a gateway started without a logger: it throws,
    the turn returns, and nothing is logged. *)
Lemma dispatch_error_leaves_no_log_line_without_logger :
  let feishuMessage :=
    normalized (text_event (js "E1") (js "1700000000000") hi_content)
      (text_message (js "E1") (js "1700000000000") hi_content) in
  onMessage options_without_logger feishuMessage empty_world
  = (Throw (ErrorObject (js "Error") (js "boom")), empty_world)
  ∧ immediate_callback options_without_logger feishuMessage empty_world
    = (Normal (), empty_world)
  ∧ effects
      (immediate_callback options_without_logger feishuMessage empty_world).2
    = [].
Proof. repeat split; reflexivity. Qed.

(** The gateway is started twice for the same account; the first client's
    [close] throws. *)
Lemma startGateway_twice_for_one_account :
  let s := (startGateway close_throws sample_options empty_world).2 in
  let existing :=
    {| Lark.handle := 0;
       Lark.ws_appId := appId sample_account;
       Lark.ws_appSecret := appSecret sample_account;
       Lark.close := Some (Lark.Raises (ErrorObject (js "Error") (js "socket")));
       Lark.stop := None |} in
  let key := accountId (account sample_options) in
  let stopped := (stopGateway key s).2 in
  let wsClient :=
    {| Lark.handle := ws_constructed s;
       Lark.ws_appId := appId (account sample_options);
       Lark.ws_appSecret := appSecret (account sample_options);
       Lark.close := (closable (ws_constructed s)).1;
       Lark.stop := (closable (ws_constructed s)).2 |} in
  let s' := (startGateway closable sample_options s).2 in
  (startGateway closable sample_options s).1 = Normal wsClient
  ∧ effects stopped =
      effects s
      ++ match Lark.close existing, Lark.stop existing with
         | Some _, _ => [WsCloseCalled (Lark.handle existing)]
         | None, Some _ => [WsStopCalled (Lark.handle existing)]
         | None, None => []
         end
      ++ [RegistryDelete key]
  ∧ wsClientCache stopped = delete key (wsClientCache s)
  ∧ effects s' =
      effects stopped
      ++ [WsConstructed (Lark.handle wsClient)]
      ++ match abortSignal sample_options with
         | Some signal => [AbortListenerAdded signal key]
         | None => []
         end
      ++ [WsStarted (Lark.handle wsClient)]
      ++ match logger sample_options with
         | Some lg =>
             [info lg (js "logged in to feishu as "
                       ++ appId (account sample_options))]
         | None => []
         end
      ++ [RegistrySet key (Lark.handle wsClient)]
  ∧ wsClientCache s' = <[key := wsClient]> (wsClientCache stopped)
  ∧ registered key s = 1
  ∧ registered key stopped = 0
  ∧ registered key s' = 1
  ∧ (∀ (k : jsstring) (w : World), registered k w ≤ 1).
Proof.
  apply (startGateway_stops_existing_handle_first closable sample_options).
  vm_compute. reflexivity.
Defined.

Example startGateway_twice_effects :
  effects
    (startGateway closable sample_options
       (startGateway close_throws sample_options empty_world).2).2
  = [WsConstructed 0; AbortListenerAdded 0 (js "default"); WsStarted 0;
     LoggerInfo (js "logged in to feishu as cli_a1b2c3");
     RegistrySet (js "default") 0;
     WsCloseCalled 0; RegistryDelete (js "default");
     WsConstructed 1; AbortListenerAdded 0 (js "default"); WsStarted 1;
     LoggerInfo (js "logged in to feishu as cli_a1b2c3");
     RegistrySet (js "default") 1].
Proof. vm_compute. reflexivity. Qed.

(** Stopping the sample gateway whose [close] throws, and stopping an
    account that was never started. *)
Lemma stopGateway_when_close_throws :
  let s := (startGateway close_throws sample_options empty_world).2 in
  (stopGateway (js "default") s).1 = Normal ()
  ∧ wsClientCache (stopGateway (js "default") s).2 = ∅
  ∧ effects (stopGateway (js "default") s).2
    = effects s ++ [WsCloseCalled 0] ++ [RegistryDelete (js "default")]
  ∧ stopGateway (js "other") s = (Normal (), s).
Proof.
  cbv zeta.
  destruct (stopGateway_never_throws (js "default")
              (startGateway close_throws sample_options empty_world).2)
    as (Returns & Removed & _ & Present).
  destruct (stopGateway_never_throws (js "other")
              (startGateway close_throws sample_options empty_world).2)
    as (_ & _ & Absent & _).
  split; [exact Returns|]. split; [rewrite Removed; vm_compute; reflexivity|].
  split; [|apply Absent; vm_compute; reflexivity].
  apply (Present
           {| Lark.handle := 0;
              Lark.ws_appId := appId sample_account;
              Lark.ws_appSecret := appSecret sample_account;
              Lark.close :=
                Some (Lark.Raises (ErrorObject (js "Error") (js "socket")));
              Lark.stop := None |}).
  vm_compute. reflexivity.
Defined.

(** The three answers of the platform, for a send and for a reply, and
    a constructor that throws. *)
Lemma send_results_at_sample_answers :
  (sendTextMessage (platform_answers (Lark.Resolved (Some 0%Z) None))
     builds_any sample_account (js "oc_1") (js "hello") empty_world).1
  = Normal {| ok := true; send_error := None |}
  ∧ (replyTextMessage
       (platform_answers
          (Lark.Resolved (Some 1234%Z) (Some (js "rate limited"))))
       builds_any sample_account (js "om_1") (js "hello") empty_world).1
    = Normal {| ok := false; send_error := Some (js "rate limited") |}
  ∧ (sendTextMessage
       (platform_answers
          (Lark.Rejected (ErrorObject (js "Error") (js "socket hang up"))))
       builds_any sample_account (js "oc_1") (js "hello") empty_world).1
    = Normal {| ok := false;
                send_error := Some (js "Error: socket hang up") |}
  ∧ replyTextMessage (platform_answers (Lark.Resolved (Some 0%Z) None))
      refuses_empty_secret account_without_secret (js "om_1") (js "hello")
      empty_world
    = (Throw (ErrorObject (js "Error") (js "appSecret is needed")),
       empty_world).
Proof.
  destruct (send_failures_are_returned_not_thrown
              (platform_answers (Lark.Resolved (Some 0%Z) None))
              (platform_answers (Lark.Resolved (Some 0%Z) None))
              builds_any sample_account (js "oc_1") (js "hello") empty_world)
    as (Accepted & _).
  destruct Accepted as (_ & _ & Accepted & _ & _); [by right|].
  destruct (send_failures_are_returned_not_thrown
              (platform_answers
                 (Lark.Resolved (Some 1234%Z) (Some (js "rate limited"))))
              (platform_answers
                 (Lark.Resolved (Some 1234%Z) (Some (js "rate limited"))))
              builds_any sample_account (js "om_1") (js "hello") empty_world)
    as (Refused & _).
  destruct Refused as (_ & _ & _ & Refused & _); [by right|].
  destruct (send_failures_are_returned_not_thrown
              (platform_answers
                 (Lark.Rejected (ErrorObject (js "Error") (js "socket hang up"))))
              (platform_answers
                 (Lark.Rejected (ErrorObject (js "Error") (js "socket hang up"))))
              builds_any sample_account (js "oc_1") (js "hello") empty_world)
    as (Failed & _).
  destruct Failed as (_ & _ & _ & _ & Failed); [by right|].
  destruct (send_failures_are_returned_not_thrown
              (platform_answers (Lark.Resolved (Some 0%Z) None))
              (platform_answers (Lark.Resolved (Some 0%Z) None))
              refuses_empty_secret account_without_secret
              (js "om_1") (js "hello") empty_world)
    as (_ & Thrown).
  split; [|split; [|split]].
  - apply (Accepted None). reflexivity.
  - apply (Refused (Some 1234%Z) (Some (js "rate limited"))); [|reflexivity].
    discriminate.
  - apply (Failed (ErrorObject (js "Error") (js "socket hang up"))).
    reflexivity.
  - apply (Thrown (ErrorObject (js "Error") (js "appSecret is needed"))).
    split; reflexivity.
Defined.

(** An account without a secret, a SDK that refuses to build a client
    for it: [sendTextMessage] returns no result, it throws. *)
Lemma send_throws_when_the_client_cannot_be_built :
  let sent :=
    sendTextMessage (platform_answers (Lark.Resolved (Some 0%Z) None))
      refuses_empty_secret account_without_secret (js "oc_1") (js "hello")
      empty_world in
  sent = (Throw (ErrorObject (js "Error") (js "appSecret is needed")),
          empty_world)
  ∧ ¬ ∃ result : SendResult, sent.1 = Normal result.
Proof.
  cbv zeta. split; [reflexivity|]. intros [result Returned]. discriminate.
Qed.

(** An image message, a text message whose content was not JSON, and a
    text message with text [hi]. *)
Lemma onMessage_at_sample_messages :
  let hi :=
    normalized (text_event (js "E1") (js "1700000000000") hi_content)
      (text_message (js "E1") (js "1700000000000") hi_content) in
  let broken :=
    normalized (text_event (js "E2") (js "1700000000000") (js "not-json"))
      (text_message (js "E2") (js "1700000000000") (js "not-json")) in
  let run :=
    channel_onMessage (platform_answers (Lark.Resolved (Some 0%Z) None))
      unit echo_dispatcher (λ _, []) builds_any sample_account () in
  run broken empty_world = (Normal (), empty_world)
  ∧ ∃ (line : jsstring) (ctx : MsgContext) (rest : list Effect),
      added empty_world (run hi empty_world).2
      = ConsoleLog line :: DispatchReply ctx :: rest
      ∧ Body ctx = JString (js "hi")
      ∧ To ctx = chatId hi
      ∧ From ctx = senderId hi.
Proof.
  cbv zeta.
  destruct (onMessage_dispatches_only_text_with_text_field
              (platform_answers (Lark.Resolved (Some 0%Z) None))
              unit echo_dispatcher (λ _, []) builds_any sample_account ()
              (normalized
                 (text_event (js "E2") (js "1700000000000") (js "not-json"))
                 (text_message (js "E2") (js "1700000000000") (js "not-json")))
              empty_world)
    as (Skipped & _ & _).
  destruct (onMessage_dispatches_only_text_with_text_field
              (platform_answers (Lark.Resolved (Some 0%Z) None))
              unit echo_dispatcher (λ _, []) builds_any sample_account ()
              (normalized
                 (text_event (js "E1") (js "1700000000000") hi_content)
                 (text_message (js "E1") (js "1700000000000") hi_content))
              empty_world)
    as (_ & _ & Dispatched).
  split.
  - apply Skipped. right. left. reflexivity.
  - apply (Dispatched (js "hi")); [reflexivity|reflexivity|discriminate].
Defined.

Example onMessage_hi_effects :
  effects
    (channel_onMessage (platform_answers (Lark.Resolved (Some 0%Z) None))
       unit echo_dispatcher (λ _, []) builds_any sample_account ()
       (normalized (text_event (js "E1") (js "1700000000000") hi_content)
          (text_message (js "E1") (js "1700000000000") hi_content))
       empty_world).2
  = [ConsoleLog (js "[feishu:default] "
                 ++ [0x6536; 0x5230; 0x6D88; 0x606F]%N ++ js ": hi");
     DispatchReply
       {| From := js "ou_1"; Body := JString (js "hi");
          AccountId := js "default"; Provider := js "feishu";
          Surface := js "feishu"; SessionKey := js "feishu:default:oc_1";
          To := js "oc_1"; ChatType := direct |};
     MessageCreate
       {| Lark.client_appId := js "cli_a1b2c3";
          Lark.client_appSecret := js "secret" |}
       {| Lark.receive_id_type := js "chat_id"; Lark.receive_id := js "oc_1";
          Lark.create_msg_type := js "text"; Lark.create_text := js "pong" |}].
Proof. vm_compute. reflexivity. Qed.

(** The staleness check at three timestamps: 40 minutes old, fresh,
    unreadable. *)
Lemma isMessageExpired_at_sample_timestamps :
  (isMessageExpired sample_clock (Some (js "1699997600000")) empty_world).1
  = Normal true
  ∧ (isMessageExpired sample_clock (Some (js "1700000000000")) empty_world).1
    = Normal false
  ∧ (isMessageExpired sample_clock (Some (js "soon")) empty_world).1
    = Normal false
  ∧ (isMessageExpired sample_clock None empty_world).1 = Normal false.
Proof.
  destruct (isMessageExpired_exactly_when_older_than_30_minutes sample_clock
              (Some (js "1699997600000")) empty_world)
    as (old & -> & Old & _).
  destruct (isMessageExpired_exactly_when_older_than_30_minutes sample_clock
              (Some (js "soon")) empty_world)
    as (unreadable & -> & _ & _ & Unreadable).
  destruct (isMessageExpired_exactly_when_older_than_30_minutes sample_clock
              None empty_world)
    as (absent & -> & _ & Absent & _).
  split; [|split; [reflexivity|split]].
  - f_equal. apply Old. exists (js "1699997600000"), 1699997600000%Z.
    split; [reflexivity|]. split; [reflexivity|]. vm_compute. reflexivity.
  - f_equal. by apply (Unreadable (js "soon")).
  - f_equal. by apply Absent.
Defined.

(** ** The further statements at sample inputs *)

(** X2 for the sample account, in the empty world. *)
Lemma startGateway_first_start_of_sample_account :
  let s' := (startGateway closable sample_options empty_world).2 in
  (startGateway closable sample_options empty_world).1
  = Normal {| Lark.handle := 0;
              Lark.ws_appId := js "cli_a1b2c3";
              Lark.ws_appSecret := js "secret";
              Lark.close := Some Lark.Returns;
              Lark.stop := None |}
  ∧ effects s' =
      [WsConstructed 0; AbortListenerAdded 0 (js "default"); WsStarted 0;
       LoggerInfo (js "logged in to feishu as cli_a1b2c3");
       RegistrySet (js "default") 0]
  ∧ (∃ wsClient : Lark.WSClient,
       wsClientCache s' !! js "default" = Some wsClient
       ∧ Lark.handle wsClient = 0)
  ∧ registered (js "default") s' = 1
  ∧ ∀ other : jsstring,
      other ≠ js "default" →
      wsClientCache s' !! other = wsClientCache empty_world !! other.
Proof.
  apply (startGateway_first_start closable sample_options empty_world).
  reflexivity.
Defined.

(** X4: the listener of a start with a logger fires after a start
    without one for the same account. *)
Lemma abort_listener_after_a_second_start :
  let started := (startGateway closable options_without_logger empty_world).2 in
  (abort_listener sample_options started).1 = Normal ()
  ∧ wsClientCache (abort_listener sample_options started).2 !! js "default"
    = None
  ∧ effects (abort_listener sample_options started).2 =
      effects started
      ++ [LoggerInfo (js "received abort signal, stopping gateway");
          WsCloseCalled 0; RegistryDelete (js "default")].
Proof.
  apply (abort_listener_stops_the_latest_handle closable sample_options
           options_without_logger empty_world).
  reflexivity.
Defined.

(** X8 for the events [E1], [E2], [E1], one second apart. *)
Lemma dedupe_mapping_after_three_events :
  let events :=
    [text_event (js "E1") (js "1700000000000") hi_content;
     text_event (js "E2") (js "1700000000000") hi_content;
     text_event (js "E1") (js "1700000000000") hi_content] in
  window_bounded sample_clock empty_world
  ∧ (window_bounded sample_clock empty_world →
     window_bounded sample_clock
       (for_of events (on_message_receive sample_clock sample_options)
          empty_world).2).
Proof.
  apply (dedupe_mapping_spans_at_most_the_ttl sample_clock sample_options).
  intros i j Le. unfold sample_clock. lia.
Defined.

(** X9: a creation time of 40 minutes before the first clock reading,
    with a space before the digits and letters after them. *)
Lemma isMessageExpired_reads_padded_digits :
  isMessageExpired sample_clock (Some (js " 1699997600000ms")) empty_world
  = (Normal true, set_clock_reads S empty_world).
Proof.
  apply (isMessageExpired_reads_decimal_digits sample_clock (js " ")
           [1; 6; 9; 9; 9; 9; 7; 6; 0; 0; 0; 0; 0]%N (js "ms") empty_world).
  - repeat constructor.
  - repeat (constructor; [reflexivity|]). constructor.
  - discriminate.
  - reflexivity.
Defined.

(** X10: two accounts with one application id and different secrets,
    and a SDK that builds a client for any credentials. *)
Lemma getFeishuClient_for_a_rotated_secret :
  let client :=
    {| Lark.client_appId := js "cli_a1b2c3";
       Lark.client_appSecret := js "secret" |} in
  let s1 := (getFeishuClient builds_any sample_account empty_world).2 in
  (getFeishuClient builds_any sample_account empty_world).1 = Normal client
  ∧ getFeishuClient builds_any rotated_account s1 = (Normal client, s1)
  ∧ clientCache s1 !! js "cli_a1b2c3" = Some client
  ∧ getFeishuClient refuses_empty_secret account_without_secret empty_world
    = (Throw (ErrorObject (js "Error") (js "appSecret is needed")),
       empty_world).
Proof.
  destruct (getFeishuClient_caches_by_appId builds_any sample_account
              rotated_account empty_world eq_refl)
    as (Built & _).
  destruct Built as (First & Later & _); [by right|].
  destruct (getFeishuClient_caches_by_appId refuses_empty_secret
              account_without_secret account_without_secret empty_world
              eq_refl)
    as (_ & Refused & _).
  split; [exact First|]. split; [exact Later|]. split; [reflexivity|].
  apply Refused. split; reflexivity.
Defined.

(** X13 for the sample configuration. *)
Lemma listed_account_of_sample_config :
  js "default" = DEFAULT_ACCOUNT_ID
  ∧ ∃ acct : ResolvedAccount,
      resolveFeishuAccount sample_config (js "default") = Some acct
      ∧ resolved_accountId acct = js "default"
      ∧ resolved_appId acct = Some (JString (js "cli_a1b2c3"))
      ∧ resolved_appSecret acct = Some (JString (js "secret"))
      ∧ isConfigured acct = true.
Proof.
  apply (listed_accounts_resolve_and_are_configured sample_config
           (js "default")).
  apply list_elem_of_here.
Defined.

(** X16: the wizard on an empty configuration writes the sample one. *)
Lemma configure_writes_sample_config :
  js "default" = DEFAULT_ACCOUNT_ID
  ∧ credential sample_config (js "enabled") = Some (JBool true)
  ∧ credential sample_config (js "appId") = Some (JString (js "cli_a1b2c3"))
  ∧ credential sample_config (js "appSecret") = Some (JString (js "secret"))
  ∧ (∀ key : jsstring,
       key ≠ js "channels" →
       member (JObject sample_config) key = member (JObject []) key)
  ∧ (∀ key : jsstring,
       key ≠ js "feishu" →
       optional_member (member (JObject sample_config) (js "channels")) key
       = last_binding key (spread (member (JObject []) (js "channels")))).
Proof.
  apply (configure_writes_what_was_entered (λ _, []) [] typing_prompter
           sample_config (js "default")).
  reflexivity.
Defined.

(** X17: the wizard on the sample configuration, and again after
    [disable]. *)
Lemma configure_sample_config_again :
  ∃ next : Config,
    configure (λ _, []) sample_config typing_prompter
    = Normal (next, DEFAULT_ACCOUNT_ID)
    ∧ listFeishuAccountIds next = [DEFAULT_ACCOUNT_ID]
    ∧ configured (getStatus next) = true
    ∧ listFeishuAccountIds (disable next) = []
    ∧ ∃ again : Config,
        configure (λ _, []) (disable next) typing_prompter
        = Normal (again, DEFAULT_ACCOUNT_ID)
        ∧ listFeishuAccountIds again = [DEFAULT_ACCOUNT_ID].
Proof.
  apply (configure_with_answers_lists_the_account (λ _, []) sample_config
           typing_prompter).
  - split; [reflexivity|]. split; [by exists false|].
    split; [exists (js " cli_a1b2c3 "); split; [reflexivity|discriminate]|].
    split; [by exists false|].
    exists (js "secret"); split; [reflexivity|discriminate].
  - intros _. exists (js "cli_a1b2c3"). reflexivity.
Defined.

(** X18 for a text full of characters that need an escape. *)
Lemma parse_reads_back_awkward_text :
  JSON_parse (JSON_stringify_text awkward_text)
  = Some (JObject [(js "text", JString awkward_text)])
  ∧ extracted_text (JSON_stringify_text awkward_text)
    = Some (JString awkward_text).
Proof.
  apply (parse_reads_back_stringified_text awkward_text).
  repeat (constructor; [reflexivity|]). constructor.
Defined.

(** X19 for the message [hi], with a dispatcher that replies [pong]:
    with a client that can be built, and with one that cannot. *)
Lemma onMessage_answers_hi_with_pong :
  let run Client_throws acct :=
    channel_onMessage (platform_answers (Lark.Resolved (Some 0%Z) None))
      unit echo_dispatcher (λ _, []) Client_throws acct () hi_message
      empty_world in
  let client :=
    {| Lark.client_appId := js "cli_a1b2c3";
       Lark.client_appSecret := js "secret" |} in
  let line :=
    ConsoleLog (js "[feishu:default] "
                ++ [0x6536; 0x5230; 0x6D88; 0x606F]%N ++ js ": hi") in
  let ctx :=
    {| From := js "ou_1";
       Body := JString (js "hi");
       AccountId := js "default";
       Provider := js "feishu";
       Surface := js "feishu";
       SessionKey := js "feishu:default:oc_1";
       To := js "oc_1";
       ChatType := direct |} in
  (run builds_any sample_account).1 = Normal ()
  ∧ effects (run builds_any sample_account).2 =
      [line; DispatchReply ctx;
       MessageCreate client (create_request (js "oc_1") (js "pong"))]
  ∧ effects (run refuses_empty_secret account_without_secret).2
    = [line; DispatchReply ctx].
Proof.
  cbv zeta.
  destruct (onMessage_hands_over_and_sends_the_replies
              (platform_answers (Lark.Resolved (Some 0%Z) None))
              unit echo_dispatcher (λ _, []) builds_any sample_account ()
              hi_message empty_world eq_refl eq_refl)
    as (_ & Shown).
  destruct (Shown (js "hi") eq_refl) as (Sent & _).
  destruct Sent as (Returned & Effects); [by right|].
  destruct (onMessage_hands_over_and_sends_the_replies
              (platform_answers (Lark.Resolved (Some 0%Z) None))
              unit echo_dispatcher (λ _, []) refuses_empty_secret
              account_without_secret () hi_message empty_world
              eq_refl eq_refl)
    as (_ & Shown').
  destruct (Shown' (js "hi") eq_refl) as (_ & Refused).
  split; [exact Returned|]. split; [exact Effects|].
  apply (Refused (ErrorObject (js "Error") (js "appSecret is needed"))).
  split; reflexivity.
Defined.

(** X22 for a text event with text [hi] in the empty world. *)
Lemma hi_event_reaches_the_dispatcher :
  let ctx :=
    {| ctx_account := sample_account; ctx_cfg := ();
       ctx_abortSignal := Some 0 |} in
  let options :=
    account_options (platform_answers (Lark.Resolved (Some 0%Z) None))
      unit echo_dispatcher (λ _, []) builds_any ctx in
  let data :=
    text_event (js "E1") (js "1700000000000")
      (JSON_stringify_text (js "hi")) in
  let feishuMessage :=
    {| messageId := js "E1";
       chatId := js "oc_1";
       chatType := p2p;
       senderId := js "ou_1";
       messageType := js "text";
       content := JSON_stringify_text (js "hi");
       text := Some (JString (js "hi")) |} in
  let line :=
    ConsoleLog (js "[feishu:default] "
                ++ [0x6536; 0x5230; 0x6D88; 0x606F]%N ++ js ": hi") in
  let msgCtx :=
    {| From := js "ou_1";
       Body := JString (js "hi");
       AccountId := js "default";
       Provider := js "feishu";
       Surface := js "feishu";
       SessionKey := js "feishu:default:oc_1";
       To := js "oc_1";
       ChatType := direct |} in
  (on_message_receive sample_clock options data empty_world).1 = Normal ()
  ∧ effects (on_message_receive sample_clock options data empty_world).2 = []
  ∧ immediates (on_message_receive sample_clock options data empty_world).2
    = [feishuMessage]
  ∧ ∀ w : World,
      (immediate_callback options feishuMessage w).1 = Normal ()
      ∧ ∃ rest : list Effect,
          effects (immediate_callback options feishuMessage w).2
          = effects w ++ line :: DispatchReply msgCtx :: rest.
Proof.
  apply (text_event_reaches_the_dispatcher sample_clock
           (platform_answers (Lark.Resolved (Some 0%Z) None))
           unit echo_dispatcher (λ _, []) builds_any
           {| ctx_account := sample_account; ctx_cfg := ();
              ctx_abortSignal := Some 0 |}
           (text_event (js "E1") (js "1700000000000")
              (JSON_stringify_text (js "hi")))
           (text_message (js "E1") (js "1700000000000")
              (JSON_stringify_text (js "hi")))
           (js "hi") empty_world);
    try reflexivity.
  - repeat (constructor; [reflexivity|]). constructor.
  - discriminate.
Defined.
